(** * httpdsl: the block preprocessor, the statement actions and the HTTP engine

    A shallow embedding of the Go sources of [arturoeanton/httpdsl]
    (package [core]): the interpreter facade [HTTPDSLv3] with its grammar
    actions, the block preprocessor ([ParseWithBlockSupport],
    [ProcessLoopBody], [ProcessIfBlockWithControl]), the textual condition
    evaluator ([EvaluateCondition], [CompareValues]) and the HTTP engine
    ([Request], [Extract], [Compare]).

    Go strings are byte strings ([string]); [interface{}] values are the
    inductive [Value]; [float64] is the kernel's binary64 [float]; Go maps
    are [gmap]s whose iteration order is chosen by the runtime. *)

From Stdlib Require Import ZArith String Ascii List Bool Lia Floats DecimalString Permutation.
From stdpp Require Import base option gmap strings.
Import ListNotations.
Local Open Scope string_scope.
Local Open Scope Z_scope.

(* ===================================================================== *)
(** ** Go's package [strings], on byte strings *)
(* ===================================================================== *)

Module strings.

Definition len (s : string) : nat := String.length s.

(** [s[n:]] *)
Fixpoint drop (n : nat) (s : string) : string :=
  match n, s with
  | O, _ => s
  | S n', String _ s' => drop n' s'
  | S _, EmptyString => EmptyString
  end.

(** [s[:n]] *)
Fixpoint take (n : nat) (s : string) : string :=
  match n, s with
  | O, _ => EmptyString
  | S n', String c s' => String c (take n' s')
  | S _, EmptyString => EmptyString
  end.

Definition HasPrefix (s prefix : string) : bool := String.prefix prefix s.

Definition HasSuffix (s suffix : string) : bool :=
  (len suffix <=? len s)%nat && String.eqb (drop (len s - len suffix) s) suffix.

Definition TrimPrefix (s prefix : string) : string :=
  if HasPrefix s prefix then drop (len prefix) s else s.

Definition TrimSuffix (s suffix : string) : string :=
  if HasSuffix s suffix then take (len s - len suffix) s else s.

(** Position of the first occurrence of [substr] in [s], counted from [i]. *)
Fixpoint index_from (s substr : string) (i : nat) : option nat :=
  if String.prefix substr s then Some i
  else match s with
       | EmptyString => None
       | String _ s' => index_from s' substr (S i)
       end.

Definition Index (s substr : string) : Z :=
  match index_from s substr 0 with
  | Some i => Z.of_nat i
  | None => -1
  end.

Definition Contains (s substr : string) : bool :=
  match index_from s substr 0 with Some _ => true | None => false end.

(** The ASCII white space of [unicode.IsSpace]: tab, LF, VT, FF, CR, space. *)
Definition isSpace (c : ascii) : bool :=
  let n := nat_of_ascii c in
  ((9 <=? n)%nat && (n <=? 13)%nat) || (n =? 32)%nat.

(** The white space of [unicode.IsSpace] above ASCII, by its UTF-8
    encoding: U+0085 and U+00A0 take two bytes; U+1680, U+2000 to U+200A,
    U+2028, U+2029, U+202F, U+205F and U+3000 take three. *)
Definition isSpace2 (c1 c2 : ascii) : bool :=
  let n1 := nat_of_ascii c1 in
  let n2 := nat_of_ascii c2 in
  ((n1 =? 194) && ((n2 =? 133) || (n2 =? 160)))%nat.

Definition isSpace3 (c1 c2 c3 : ascii) : bool :=
  let n1 := nat_of_ascii c1 in
  let n2 := nat_of_ascii c2 in
  let n3 := nat_of_ascii c3 in
  (((n1 =? 225) && (n2 =? 154) && (n3 =? 128))
   || ((n1 =? 226) && (n2 =? 128)
       && (((128 <=? n3) && (n3 <=? 138)) || (n3 =? 168) || (n3 =? 169) || (n3 =? 175)))
   || ((n1 =? 226) && (n2 =? 129) && (n3 =? 159))
   || ((n1 =? 227) && (n2 =? 128) && (n3 =? 128)))%nat.

Fixpoint trimLeftFunc (f : ascii -> bool) (s : string) : string :=
  match s with
  | EmptyString => EmptyString
  | String c s' => if f c then trimLeftFunc f s' else s
  end.

Fixpoint trimRightFunc (f : ascii -> bool) (s : string) : string :=
  match s with
  | EmptyString => EmptyString
  | String c s' =>
      match trimRightFunc f s' with
      | EmptyString => if f c then EmptyString else String c EmptyString
      | t => String c t
      end
  end.

(** The number of bytes of the white space rune that [s] starts with, [0]
    when it starts with none.  A rune is read off its bytes: a byte that
    begins no well-formed encoding is a rune of its own ([utf8.RuneError],
    which is no white space), and no byte inside a well-formed encoding
    begins the encoding of a white space rune. *)
Definition space_width (one : ascii -> bool) (two : ascii -> ascii -> bool)
           (three : ascii -> ascii -> ascii -> bool) (s : string) : nat :=
  match s with
  | String c1 r1 =>
      if one c1 then 1%nat
      else match r1 with
           | String c2 r2 =>
               if two c1 c2 then 2%nat
               else match r2 with
                    | String c3 _ => if three c1 c2 c3 then 3%nat else 0%nat
                    | EmptyString => 0%nat
                    end
           | EmptyString => 0%nat
           end
  | EmptyString => 0%nat
  end.

(** [s] without the white space runes it starts with; [left] counts the
    bytes still to look at. *)
Fixpoint trimLeftRunes (one : ascii -> bool) (two : ascii -> ascii -> bool)
         (three : ascii -> ascii -> ascii -> bool) (left : nat) (s : string) : string :=
  match left with
  | O => s
  | S left' =>
      match space_width one two three s with
      | O => s
      | w => trimLeftRunes one two three left' (drop w s)
      end
  end.

Fixpoint reverse_onto (s acc : string) : string :=
  match s with
  | EmptyString => acc
  | String c s' => reverse_onto s' (String c acc)
  end.

Definition reverse (s : string) : string := reverse_onto s EmptyString.

(** [strings.TrimLeftFunc(s, unicode.IsSpace)]. *)
Definition trimLeftSpace (s : string) : string :=
  trimLeftRunes isSpace isSpace2 isSpace3 (len s) s.

(** [strings.TrimRightFunc(s, unicode.IsSpace)]: the runes are read from
    the end of [s], so the bytes of an encoding come last byte first. *)
Definition trimRightSpace (s : string) : string :=
  reverse (trimLeftRunes isSpace (fun c2 c1 => isSpace2 c1 c2)
                         (fun c3 c2 c1 => isSpace3 c1 c2 c3) (len s) (reverse s)).

Definition TrimSpace (s : string) : string := trimRightSpace (trimLeftSpace s).

Fixpoint inCutset (cutset : string) (c : ascii) : bool :=
  match cutset with
  | EmptyString => false
  | String d rest => Ascii.eqb c d || inCutset rest c
  end.

(** [strings.Trim] for a cutset of ASCII bytes, as every cutset of the
    code is. *)
Definition Trim (s cutset : string) : string :=
  trimRightFunc (inCutset cutset) (trimLeftFunc (inCutset cutset) s).

(** The size [utf8.DecodeRuneInString] returns: the number of bytes of the
    UTF-8 sequence that [s] starts with, one for a byte that starts no
    well-formed sequence. *)
Definition rune_width (s : string) : nat :=
  let continuation (c : ascii) : bool :=
    let n := nat_of_ascii c in ((128 <=? n) && (n <=? 191))%nat in
  match s with
  | EmptyString => 0%nat
  | String c0 r0 =>
      let n0 := nat_of_ascii c0 in
      let size := (if n0 <? 194 then 1 else if n0 <=? 223 then 2 else if n0 <=? 239 then 3
                   else if n0 <=? 244 then 4 else 1)%nat in
      let lo := (if n0 =? 224 then 160 else if n0 =? 240 then 144 else 128)%nat in
      let hi := (if n0 =? 237 then 159 else if n0 =? 244 then 143 else 191)%nat in
      match size, r0 with
      | 1%nat, _ => 1%nat
      | _, String c1 r1 =>
          let n1 := nat_of_ascii c1 in
          if ((lo <=? n1) && (n1 <=? hi))%nat then
            if (size =? 2)%nat then 2%nat
            else match r1 with
                 | String c2 r2 =>
                     if continuation c2 then
                       if (size =? 3)%nat then 3%nat
                       else match r2 with
                            | String c3 _ => if continuation c3 then 4%nat else 1%nat
                            | EmptyString => 1%nat
                            end
                     else 1%nat
                 | EmptyString => 1%nat
                 end
          else 1%nat
      | _, EmptyString => 1%nat
      end
  end.

(** [explode(s, -1)]: [s] cut into its UTF-8 sequences, a byte that
    starts no well-formed sequence on its own; [left] counts the bytes
    still to cut. *)
Fixpoint explode_go (left : nat) (s : string) : list string :=
  match left, s with
  | S left', String _ _ =>
      let w := rune_width s in take w s :: explode_go left' (drop w s)
  | _, _ => []
  end.

Definition explode (s : string) : list string := explode_go (len s) s.

(** At most [k] cuts at [sep] (non-empty), left to right. *)
Fixpoint cut (k : nat) (s sep : string) : list string :=
  match k with
  | O => [s]
  | S k' =>
      match index_from s sep 0 with
      | None => [s]
      | Some i => take i s :: cut k' (drop (i + len sep) s) sep
      end
  end.

(** [strings.Split]: an empty [sep] cuts after each UTF-8 sequence. *)
Definition Split (s sep : string) : list string :=
  if String.eqb sep "" then explode s else cut (len s) s sep.

(** [strings.SplitN(s, sep, n)] for [n > 0] and a non-empty [sep]. *)
Definition SplitN (s sep : string) (n : nat) : list string :=
  match n with
  | O => []
  | S k => cut k s sep
  end.

Fixpoint Join (elems : list string) (sep : string) : string :=
  match elems with
  | [] => ""
  | [e] => e
  | e :: rest => e +:+ sep +:+ Join rest sep
  end.

(** [strings.Fields]: the maximal runs of bytes between white space runes
    ([unicode.IsSpace]); [cur] is the field being read. *)
Fixpoint fields_go (cur : string) (s : string) : list string :=
  let flush (rest : list string) := if String.eqb cur "" then rest else cur :: rest in
  match s with
  | EmptyString => flush []
  | String c1 r1 =>
      if isSpace c1 then flush (fields_go "" r1)
      else
        let next (_ : unit) := fields_go (cur +:+ String c1 EmptyString) r1 in
        match r1 with
        | String c2 r2 =>
            if isSpace2 c1 c2 then flush (fields_go "" r2)
            else match r2 with
                 | String c3 r3 =>
                     if isSpace3 c1 c2 c3 then flush (fields_go "" r3) else next tt
                 | EmptyString => next tt
                 end
        | EmptyString => next tt
        end
  end.

Definition Fields (s : string) : list string := fields_go "" s.

(** [strings.ReplaceAll]: the non-overlapping occurrences of [old], left to
    right; an empty [old] matches at the beginning and after each UTF-8
    sequence. *)
Definition ReplaceAll (s old new : string) : string :=
  if String.eqb old ""
  then new +:+ String.concat "" (map (fun c => c +:+ new) (explode s))
  else Join (cut (len s) s old) new.

End strings.

Example ReplaceAll_ex1 : strings.ReplaceAll "a$x-$x" "$x" "12" = "a12-12".
Proof. reflexivity. Qed.

Example Split_ex1 : strings.Split "a in b in c" " in " = ["a"; "b"; "c"].
Proof. reflexivity. Qed.

Example SplitN_ex1 : strings.SplitN "x then y then z" " then " 2 = ["x"; "y then z"].
Proof. reflexivity. Qed.

Example Fields_ex1 : strings.Fields "  $c   <  10 " = ["$c"; "<"; "10"].
Proof. reflexivity. Qed.

Example TrimSpace_ex1 : strings.TrimSpace "    header  " = "header".
Proof. reflexivity. Qed.

(** A no-break space (U+00A0, bytes 194 160) and an ideographic space
    (U+3000, bytes 227 128 128) are white space; the bytes 160 and 128 on
    their own are not. *)
Definition nbsp : string := String (ascii_of_nat 194) (String (ascii_of_nat 160) EmptyString).
Definition ideographic_space : string :=
  String (ascii_of_nat 227) (String (ascii_of_nat 128) (String (ascii_of_nat 128) EmptyString)).

Example TrimSpace_ex2 :
  strings.TrimSpace (nbsp +:+ " endif" +:+ ideographic_space +:+ nbsp) = "endif".
Proof. reflexivity. Qed.

Example Split_ex2 :
  strings.Split ("a" +:+ nbsp +:+ ideographic_space +:+ String (ascii_of_nat 160) "b") ""
  = ["a"; nbsp; ideographic_space; String (ascii_of_nat 160) ""; "b"].
Proof. reflexivity. Qed.

Example TrimSpace_ex3 :
  strings.TrimSpace (String (ascii_of_nat 160) "x" +:+ String (ascii_of_nat 128) " ")
  = String (ascii_of_nat 160) "x" +:+ String (ascii_of_nat 128) "".
Proof. reflexivity. Qed.

Example Fields_ex2 :
  strings.Fields ("while $i" +:+ nbsp +:+ "< 3" +:+ ideographic_space +:+ "do")
  = ["while"; "$i"; "<"; "3"; "do"].
Proof. reflexivity. Qed.

(* ===================================================================== *)
(** ** Values, parse trees and the Go runtime *)
(* ===================================================================== *)

#[local] Set Warnings "-register-all".

(** A Go [interface{}] as the interpreter meets it: the dynamic type is the
    constructor.  [VSlice] is [[]interface{}]; [VMap] is a
    [map[string]interface{}] (JSON objects, the response record), kept as an
    association list. *)
Inductive Value : Type :=
| VNil
| VBool (b : bool)
| VInt (n : Z)
| VInt64 (n : Z)
| VFloat (f : float)
| VString (s : string)
| VSlice (l : list Value)
| VMap (m : list (string * Value)).

(** [v == nil] and [v == ""] on an interface value: equal dynamic type and
    equal dynamic value. *)
Definition is_nil (v : Value) : bool :=
  match v with VNil => true | _ => false end.

Definition is_empty_string (v : Value) : bool :=
  match v with VString s => String.eqb s "" | _ => false end.

Definition is_true (v : option Value) : bool :=
  match v with Some (VBool true) => true | _ => false end.

(** The reductions of the grammar of [setupGrammar], one constructor per
    rule; the arguments are the lexemes the action receives in [args].
    [Expr] has the four rules of [expression]; [Stmt] has the statements
    whose action is a Go function of the interpreter alone: requests,
    [set]/[var], [extract], [print], [break], [continue], [assert status],
    [assert response contains], [log], [reset] and [base url].  The rules
    [conditional] and [loop_stmt], whose statements are run by the go-dsl
    engine while it reduces them, and [wait]/[sleep], [debug],
    [clear cookies] and [assert time] are not embedded. *)
Inductive ValueTok : Type :=
| TokString (lexeme : string)      (* value := STRING,   action valueString *)
| TokNumber (lexeme : string)      (* value := NUMBER,   action valueNumber *)
| TokVariable (lexeme : string).   (* value := VARIABLE, action valueVariable *)

Inductive Expr : Type :=
| ETerm (t : ValueTok)                          (* expression := term *)
| EArith (e : Expr) (op : string) (t : ValueTok) (* expression := expression ARITHMETIC term *)
| EArrayAccess (variable number : string)       (* array_access := VARIABLE [ NUMBER ] *)
| EArrayAccessVar (variable indexVariable : string) (* array_access := VARIABLE [ VARIABLE ] *)
| ELength (variable : string)                   (* function_call := length VARIABLE *)
| ESplit (variable lexeme : string).            (* function_call := split VARIABLE STRING *)

Inductive UrlValue : Type :=
| UrlString (lexeme : string)
| UrlDirect (lexeme : string)
| UrlVariable (lexeme : string).

Inductive ReqOption : Type :=
| OptHeader (key value : string)
| OptBody (lexeme : string)
| OptJsonString (lexeme : string)
| OptJsonInline (lexeme : string)
| OptAuthBasic (user pass : string)
| OptAuthBearer (token : string)
| OptTimeout (number unit : string).

Inductive Stmt : Type :=
| SHttp (method : string) (url : UrlValue) (options : list ReqOption)
| SSet (variable : string) (e : Expr)
| SExtract (extractType pattern variable : string)
| SExtractNoPattern (extractType variable : string)
| SPrintVariable (variable : string)
| SPrintString (lexeme : string)
| SBreak
| SContinue
| SAssertStatus (number : string)
| SAssertContains (lexeme : string)
| SLog (lexeme : string)
| SReset
| SBaseURL (lexeme : string).

Inductive ParseResult : Type :=
| Parsed (s : Stmt)
| ParseError (detail : string).

(** What the interpreter takes from outside the repository: functions of the
    Go standard library whose results are not re-derived here, the order in
    which the runtime walks a map, and the go-dsl engine that tokenizes a
    line and reduces it with the rule table of [setupGrammar].

    - [strconv_ParseFloat s] is the number when [err == nil];
      [strconv_ParseFloat_err s] is the number returned next to an error
      (zero for a text that is no number, an infinity for a number out of
      range), which the callers that drop the error go on with;
    - [strconv_Atoi s] is the number returned and whether [err == nil];
    - [url_Parse u] is [parsedURL.String()], and [url_Parse_err u] the text
      of the error when there is one;
    - [fmt_Sscanf_f s] is the number stored by [fmt.Sscanf(s, "%f", &x)]
      when it reports no error, [fmt_Sscanf_d] the same for ["%d"];
    - [fmt_FormatFloat] is [fmt.Sprintf("%v", x)] on a [float64];
    - [regexp_FindStringSubmatch p s] is [[]] when there is no match;
    - [map_range m] is one order in which [for k, v := range m] may visit
      the entries: any permutation of them. *)
Class GoEnv : Type := {
  strconv_ParseFloat : string -> option float;
  strconv_ParseFloat_err : string -> float;
  strconv_Atoi : string -> Z * bool;
  fmt_Sscanf_f : string -> option float;
  fmt_Sscanf_d : string -> option Z;
  fmt_FormatFloat : float -> string;
  json_Unmarshal : string -> option Value;
  json_Marshal : Value -> option string;
  regexp_Compile : string -> bool;
  regexp_FindStringSubmatch : string -> string -> list string;
  url_Parse : string -> option string;
  url_Parse_err : string -> string;
  map_range : gmap string Value -> list (string * Value);
  map_range_perm : forall m, Permutation (map_range m) (map_to_list m);
  dsl_Parse : string -> ParseResult
}.

Definition itoa (n : Z) : string := NilZero.string_of_int (Z.to_int n).

(** The one-byte string holding a double quote, and a quoted lexeme. *)
Definition dquote : string := String (ascii_of_nat 34) EmptyString.
Definition quoted (s : string) : string := dquote +:+ s +:+ dquote.

Section Sprint.
Context {E : GoEnv}.

Fixpoint insert_sorted (k : string) (e : string) (l : list (string * string))
  : list (string * string) :=
  match l with
  | [] => [(k, e)]
  | (k', e') :: rest =>
      if String.leb k k' then (k, e) :: l else (k', e') :: insert_sorted k e rest
  end.

(** [fmt.Sprintf("%v", v)]: maps print their entries sorted by key. *)
Fixpoint Sprint (v : Value) : string :=
  match v with
  | VNil => "<nil>"
  | VBool true => "true"
  | VBool false => "false"
  | VInt n => itoa n
  | VInt64 n => itoa n
  | VFloat f => fmt_FormatFloat f
  | VString s => s
  | VSlice l => "[" +:+ strings.Join (map Sprint l) " " +:+ "]"
  | VMap m =>
      let entries :=
        (fix go (m : list (string * Value)) : list (string * string) :=
           match m with
           | [] => []
           | (k, x) :: rest => insert_sorted k (k +:+ ":" +:+ Sprint x) (go rest)
           end) m in
      "map[" +:+ strings.Join (map snd entries) " " +:+ "]"
  end.
End Sprint.

(** How a Go call ends: a value, an [error], a run-time panic, or (for the
    fuel-indexed block processor only) no answer within the given fuel. *)
Inductive Outcome (A : Type) : Type :=
| Ok (a : A)
| Err (msg : string)
| Panic (msg : string)
| OutOfFuel.
Arguments Ok {A} a.
Arguments Err {A} msg.
Arguments Panic {A} msg.
Arguments OutOfFuel {A}.

(* ===================================================================== *)
(** ** The HTTP engine ([http_engine.go]) *)
(* ===================================================================== *)

(** What the transport answers to one [client.Do]: an I/O error (network
    failure, timeout, DNS failure), or a response whose body [io.ReadAll]
    reads ([Some]) or fails to read ([None]).  [elapsed] is
    [duration.Milliseconds()]. *)
Inductive RoundTrip : Type :=
| RTError (err : string) (elapsed : float)
| RTResponse (status : Z) (header : list (string * list string))
             (body : option string) (readErr : string) (elapsed : float).

(** The fields of [HTTPEngine] that [Request], [Extract] and the getters
    read or write.  [client] is the transport seen from the engine: the
    answers it will give, in order ([[]]: the connection is refused).
    [sent] lists the requests handed to [client.Do].  Cookies, history,
    metrics, logs and hooks are written but never read by the code below
    and are left out. *)
Record HTTPEngine : Type := mkHTTPEngine {
  client : list RoundTrip;
  clientTimeout : Z;
  baseURL : string;
  lastResponse : option (list (string * list string));
  lastResponseBody : string;
  lastStatusCode : Z;
  lastResponseTime : float;
  sent : list (string * string)
}.

Definition NewHTTPEngine (transport : list RoundTrip) : HTTPEngine :=
  {| client := transport; clientTimeout := 30000; baseURL := "";
     lastResponse := None; lastResponseBody := ""; lastStatusCode := 0;
     lastResponseTime := 0%float; sent := [] |}.

Definition Reset (he : HTTPEngine) : HTTPEngine :=
  {| client := client he; clientTimeout := 30000; baseURL := "";
     lastResponse := None; lastResponseBody := ""; lastStatusCode := 0;
     lastResponseTime := 0%float; sent := sent he |}.

Definition SetBaseURL (url : string) (he : HTTPEngine) : HTTPEngine :=
  let url := if strings.HasSuffix url "/" then url else url +:+ "/" in
  {| client := client he; clientTimeout := clientTimeout he; baseURL := url;
     lastResponse := lastResponse he; lastResponseBody := lastResponseBody he;
     lastStatusCode := lastStatusCode he; lastResponseTime := lastResponseTime he;
     sent := sent he |}.

Definition GetLastResponse (he : HTTPEngine) : string := lastResponseBody he.
Definition GetLastStatusCode (he : HTTPEngine) : Z := lastStatusCode he.

Definition set_lastResponseBody (b : string) (he : HTTPEngine) : HTTPEngine :=
  {| client := client he; clientTimeout := clientTimeout he; baseURL := baseURL he;
     lastResponse := lastResponse he; lastResponseBody := b;
     lastStatusCode := lastStatusCode he; lastResponseTime := lastResponseTime he;
     sent := sent he |}.

(** The request options assembled by [httpWithOptions]. *)
Record RequestOptions : Type := mkRequestOptions {
  opt_header : list (string * string);
  opt_body : option string;
  opt_json : option string;
  opt_auth : option (list (string * string));
  opt_timeout : option Z
}.

Definition no_options : RequestOptions :=
  {| opt_header := []; opt_body := None; opt_json := None; opt_auth := None;
     opt_timeout := None |}.

Fixpoint header_values (h : list (string * list string)) : Value :=
  match h with
  | [] => VMap []
  | (k, vs) :: rest =>
      match header_values rest with
      | VMap m => VMap ((k, VSlice (map VString vs)) :: m)
      | other => other
      end
  end.

Section Engine.
Context {E : GoEnv}.

(** [Request]: lines 141-296.  The request is built from [method], the
    URL and the options, handed to the transport, and only a response
    that was received and read is stored as the last response.  This is
    the call for a [method] that [http.NewRequest] accepts (a token, as
    every method of the grammar is: [validMethod] below), on an engine
    with no request or response hook installed; [clientTimeout] is the
    client's timeout in milliseconds, for an option whose nanoseconds fit
    in 64 bits. *)
Definition Request (method urlStr : string) (options : option RequestOptions)
           (he : HTTPEngine) : Outcome Value * HTTPEngine :=
  let urlStr :=
    if negb (String.eqb (baseURL he) "") && negb (strings.HasPrefix urlStr "http")
    then baseURL he +:+ urlStr else urlStr in
  match url_Parse urlStr with
  | None => (Err ("invalid URL: " +:+ url_Parse_err urlStr), he)
  | Some parsedURL =>
      let timeout :=
        match options with
        | Some o => match opt_timeout o with Some t => t | None => clientTimeout he end
        | None => clientTimeout he
        end in
      let answer := match client he with
                    | [] => RTError "connection refused" 0%float
                    | a :: _ => a
                    end in
      let rest := tl (client he) in
      let wire := (sent he ++ [(method, parsedURL)])%list in
      match answer with
      | RTError err elapsed =>
          (Err ("request failed: " +:+ err),
           {| client := rest; clientTimeout := timeout; baseURL := baseURL he;
              lastResponse := lastResponse he;
              lastResponseBody := lastResponseBody he;
              lastStatusCode := lastStatusCode he;
              lastResponseTime := elapsed; sent := wire |})
      | RTResponse status header None readErr elapsed =>
          (Err ("failed to read response: " +:+ readErr),
           {| client := rest; clientTimeout := timeout; baseURL := baseURL he;
              lastResponse := lastResponse he;
              lastResponseBody := lastResponseBody he;
              lastStatusCode := lastStatusCode he;
              lastResponseTime := elapsed; sent := wire |})
      | RTResponse status header (Some body) _ elapsed =>
          (Ok (VMap [("status", VInt status); ("body", VString body);
                     ("headers", header_values header);
                     ("time", VFloat elapsed);
                     ("size", VInt (Z.of_nat (strings.len body)))]),
           {| client := rest; clientTimeout := timeout; baseURL := baseURL he;
              lastResponse := Some header;
              lastResponseBody := body;
              lastStatusCode := status;
              lastResponseTime := elapsed; sent := wire |})
      end
  end.

(** [Compare]: lines 527-571. *)
Definition Compare (left : Value) (op : string) (right : Value) : bool :=
  let leftStr := Sprint left in
  let rightStr := Sprint right in
  let stringComparison :=
    if String.eqb op "==" then String.eqb leftStr rightStr
    else if String.eqb op "!=" then negb (String.eqb leftStr rightStr)
    else if String.eqb op ">" then String.ltb rightStr leftStr
    else if String.eqb op ">=" then String.leb rightStr leftStr
    else if String.eqb op "<" then String.ltb leftStr rightStr
    else if String.eqb op "<=" then String.leb leftStr rightStr
    else false in
  match strconv_ParseFloat leftStr, strconv_ParseFloat rightStr with
  | Some leftNum, Some rightNum =>
      if String.eqb op "==" then PrimFloat.eqb leftNum rightNum
      else if String.eqb op "!=" then negb (PrimFloat.eqb leftNum rightNum)
      else if String.eqb op ">" then PrimFloat.ltb rightNum leftNum
      else if String.eqb op ">=" then PrimFloat.leb rightNum leftNum
      else if String.eqb op "<" then PrimFloat.ltb leftNum rightNum
      else if String.eqb op "<=" then PrimFloat.leb leftNum rightNum
      else stringComparison
  | _, _ => stringComparison
  end.
End Engine.

(** [textproto.CanonicalMIMEHeaderKey]: a key of token bytes gets an upper
    case letter first and after each hyphen and lower case elsewhere; any
    other key is returned as it is. *)
Module textproto.
Definition isTokenByte (c : ascii) : bool :=
  let n := nat_of_ascii c in
  ((48 <=? n) && (n <=? 57) || (65 <=? n) && (n <=? 90) || (97 <=? n) && (n <=? 122)
   || strings.inCutset "!#$%&'*+-.^_`|~" c)%nat.

Definition upper (c : ascii) : ascii :=
  let n := nat_of_ascii c in
  if ((97 <=? n) && (n <=? 122))%nat then ascii_of_nat (n - 32) else c.

Definition lower (c : ascii) : ascii :=
  let n := nat_of_ascii c in
  if ((65 <=? n) && (n <=? 90))%nat then ascii_of_nat (n + 32) else c.

Fixpoint canonical_go (up : bool) (s : string) : string :=
  match s with
  | EmptyString => EmptyString
  | String c s' =>
      String (if up then upper c else lower c)
             (canonical_go (Ascii.eqb c "-"%char) s')
  end.

Definition CanonicalMIMEHeaderKey (s : string) : string :=
  if forallb isTokenByte (list_ascii_of_string s) then canonical_go true s else s.
End textproto.

(** The test of [http.NewRequest] on the method ([validMethod] of
    [net/http]): token bytes only; the empty method stands for [GET]. *)
Definition validMethod (method : string) : bool :=
  forallb textproto.isTokenByte (list_ascii_of_string method).

(** [http.Header.Get]: the first value stored under the canonical key, or
    the empty string. *)
Definition Header_Get (h : list (string * list string)) (key : string) : string :=
  match find (fun kv => String.eqb (fst kv) (textproto.CanonicalMIMEHeaderKey key)) h with
  | Some (_, v :: _) => v
  | _ => ""
  end.

(** [m[k]] on a [map[string]interface{}]: the value and whether it exists. *)
Definition map_index (m : list (string * Value)) (k : string) : option Value :=
  match find (fun kv => String.eqb (fst kv) k) m with
  | Some (_, v) => Some v
  | None => None
  end.

(** [arr[index]], which panics outside [0 <= index < len(arr)], with the
    text of the run-time error. *)
Definition slice_index (arr : list Value) (index : Z) : Outcome Value :=
  let out_of_range := "runtime error: index out of range [" +:+ itoa index +:+ "]" in
  if index <? 0 then Panic out_of_range
  else match nth_error arr (Z.to_nat index) with
       | Some v => Ok v
       | None => Panic (out_of_range +:+ " with length " +:+ itoa (Z.of_nat (length arr)))
       end.

(** [s[lo:hi]], which panics unless [0 <= lo <= hi <= len(s)]. *)
Definition slice_string (s : string) (lo hi : Z) : Outcome string :=
  if (lo <? 0) || (hi <? lo) || (Z.of_nat (strings.len s) <? hi)
  then Panic "slice bounds out of range"
  else Ok (strings.take (Z.to_nat (hi - lo)) (strings.drop (Z.to_nat lo) s)).

Section Extract.
Context {E : GoEnv}.

Definition mustMarshalJSON (v : Value) : string :=
  match json_Marshal v with
  | Some b => b
  | None => "{}"
  end.

(** The operator and operands of a filter [[?(@.field OP value)]]:
    lines 336-357. *)
Definition filter_parts (filterExpr : string) : string * string * string :=
  let operands sep :=
    let parts := strings.Split filterExpr sep in
    (nth 0 parts "", strings.Trim (nth 1 parts "") ("'" +:+ dquote)) in
  if strings.Contains filterExpr " == " then (operands " == ", "==")
  else if strings.Contains filterExpr " != " then (operands " != ", "!=")
  else if strings.Contains filterExpr " > " then (operands " > ", ">")
  else if strings.Contains filterExpr " < " then (operands " < ", "<")
  else (("", ""), "").

(** Lines 366-392: numeric when both sides parse, else [==] and [!=] on
    the strings. *)
Definition filter_match (fieldValue : Value) (operator compareValue : string) : bool :=
  let fieldStr := Sprint fieldValue in
  match strconv_ParseFloat fieldStr, strconv_ParseFloat compareValue with
  | Some fieldNum, Some compareNum =>
      if String.eqb operator "==" then PrimFloat.eqb fieldNum compareNum
      else if String.eqb operator "!=" then negb (PrimFloat.eqb fieldNum compareNum)
      else if String.eqb operator ">" then PrimFloat.ltb compareNum fieldNum
      else if String.eqb operator "<" then PrimFloat.ltb fieldNum compareNum
      else false
  | _, _ =>
      if String.eqb operator "==" then String.eqb fieldStr compareValue
      else if String.eqb operator "!=" then negb (String.eqb fieldStr compareValue)
      else false
  end.

(** Lines 360-407: the elements of the root array that pass the filter,
    projected on [selector] when the path goes on after the filter. *)
Fixpoint filter_array (arr : list Value) (fieldName operator compareValue : string)
         (selector : option string) : list Value :=
  match arr with
  | [] => []
  | item :: rest =>
      let tail := filter_array rest fieldName operator compareValue selector in
      match item with
      | VMap obj =>
          match map_index obj fieldName with
          | Some fieldValue =>
              if filter_match fieldValue operator compareValue
              then match selector with
                   | Some fieldSelector =>
                       match map_index obj fieldSelector with
                       | Some selectedValue => selectedValue :: tail
                       | None => tail
                       end
                   | None => item :: tail
                   end
              else tail
          | None => tail
          end
      | _ => tail
      end
  end.

(** Lines 446-474: the dotted path, one [part] at a time. *)
Fixpoint walk_parts (parts : list string) (current : Value) : Outcome Value :=
  match parts with
  | [] => Ok current
  | part :: rest =>
      if strings.Contains part "[" && strings.Contains part "]" then
        match slice_string part 0 (strings.Index part "["),
              slice_string part (strings.Index part "[" + 1) (strings.Index part "]") with
        | Ok fieldName, Ok indexStr =>
            let index := fst (strconv_Atoi indexStr) in
            match current with
            | VMap m =>
                match map_index m fieldName with
                | Some (VSlice arr) =>
                    if index <? Z.of_nat (length arr)
                    then match slice_index arr index with
                         | Ok e => walk_parts rest e
                         | other => other
                         end
                    else Ok VNil
                | _ => Ok VNil
                end
            | _ => Ok VNil
            end
        | Panic msg, _ => Panic msg
        | _, Panic msg => Panic msg
        | _, _ => Ok VNil
        end
      else
        match current with
        | VMap m =>
            walk_parts rest (match map_index m part with Some v => v | None => VNil end)
        | _ => Ok VNil
        end
  end.

Definition simple_path (path : string) (data : Value) : Outcome Value :=
  walk_parts (strings.Split (strings.TrimPrefix path "$.") ".") data.

(** [extractJSONPath]: lines 324-475.  The call on [remainingPath] at line
    434 is on a path that starts with ["$."], so it unmarshals the body it
    was just given and takes the dotted-path branch; it is written out
    here.  Line 436 leaves the re-marshalled document as the last body. *)
Definition extractJSONPath (path : string) (he : HTTPEngine) : Outcome Value * HTTPEngine :=
  match json_Unmarshal (lastResponseBody he) with
  | None => (Ok VNil, he)
  | Some data =>
      if strings.HasPrefix path "$[?(@." then
        let filterEnd := strings.Index path ")]" in
        if 6 <? filterEnd then
          let filterExpr := strings.take (Z.to_nat (filterEnd - 6)) (strings.drop 6 path) in
          let '(fieldName, compareValue, operator) := filter_parts filterExpr in
          match data with
          | VSlice arr =>
              let selector :=
                if (filterEnd + 2 <? Z.of_nat (strings.len path))
                   && match String.get (Z.to_nat (filterEnd + 2)) path with
                      | Some c => Ascii.eqb c "."%char
                      | None => false
                      end
                then Some (strings.drop (Z.to_nat (filterEnd + 3)) path)
                else None in
              match filter_array arr fieldName operator compareValue selector with
              | [] => (Ok VNil, he)
              | [r] => (Ok r, he)
              | results => (Ok (VSlice results), he)
              end
          | _ => (Ok VNil, he)
          end
        else (Ok VNil, he)
      else if strings.HasPrefix path "$[" then
        let indexEnd := strings.Index path "]" in
        if 2 <? indexEnd then
          let indexStr := strings.take (Z.to_nat (indexEnd - 2)) (strings.drop 2 path) in
          match strconv_Atoi indexStr, data with
          | (index, true), VSlice arr =>
              if index <? Z.of_nat (length arr) then
                match slice_index arr index with
                | Ok current =>
                    if (indexEnd + 1 <? Z.of_nat (strings.len path))
                       && match String.get (Z.to_nat (indexEnd + 1)) path with
                          | Some c => Ascii.eqb c "."%char
                          | None => false
                          end
                    then
                      let remainingPath := "$" +:+ strings.drop (Z.to_nat (indexEnd + 1)) path in
                      let result :=
                        match json_Unmarshal (mustMarshalJSON current) with
                        | None => Ok VNil
                        | Some data' => simple_path remainingPath data'
                        end in
                      (result, set_lastResponseBody (mustMarshalJSON data) he)
                    else (Ok current, he)
                | other => (other, he)
                end
              else (Ok VNil, he)
          | _, _ => (Ok VNil, he)
          end
        else (Ok VNil, he)
      else (simple_path path data, he)
  end.

(** [extractXPath]: lines 487-507; [regexp.MustCompile] panics on a
    pattern that does not compile. *)
Definition extractXPath (path : string) (he : HTTPEngine) : Outcome Value :=
  if strings.HasPrefix path "//" then
    let tagName := strings.TrimPrefix path "//" in
    let tagName :=
      if strings.Contains tagName "/"
      then strings.take (Z.to_nat (strings.Index tagName "/")) tagName
      else tagName in
    let pattern := "<" +:+ tagName +:+ "[^>]*>(.*?)</" +:+ tagName +:+ ">" in
    if regexp_Compile pattern then
      match regexp_FindStringSubmatch pattern (lastResponseBody he) with
      | _ :: group :: _ => Ok (VString group)
      | _ => Ok VNil
      end
    else Panic ("regexp: Compile(" +:+ pattern +:+ ")")
  else Ok VNil.

(** [extractRegex]: lines 510-524. *)
Definition extractRegex (pattern : string) (he : HTTPEngine) : Value :=
  if regexp_Compile pattern then
    match regexp_FindStringSubmatch pattern (lastResponseBody he) with
    | _ :: group :: _ => VString group
    | [whole] => VString whole
    | [] => VNil
    end
  else VNil.

(** [Extract]: lines 299-321. *)
Definition Extract (extractType pattern : string) (he : HTTPEngine)
  : Outcome Value * HTTPEngine :=
  if String.eqb extractType "status" then (Ok (VInt (lastStatusCode he)), he)
  else if String.eqb extractType "header" then
    match lastResponse he with
    | Some header => (Ok (VString (Header_Get header pattern)), he)
    | None => (Ok VNil, he)
    end
  else if String.eqb extractType "jsonpath" then extractJSONPath pattern he
  else if String.eqb extractType "xpath" then (extractXPath pattern he, he)
  else if String.eqb extractType "regex" then (Ok (extractRegex pattern he), he)
  else (Ok VNil, he).
End Extract.

(* ===================================================================== *)
(** ** The interpreter facade [HTTPDSLv3] and its grammar actions *)
(* ===================================================================== *)

Record HTTPDSLv3 : Type := mkHTTPDSLv3 {
  engine : HTTPEngine;
  variables : gmap string Value;
  context : gmap string Value
}.

Definition NewHTTPDSLv3 (transport : list RoundTrip) : HTTPDSLv3 :=
  {| engine := NewHTTPEngine transport; variables := ∅; context := ∅ |}.

Definition SetVariable (name : string) (value : Value) (hd : HTTPDSLv3) : HTTPDSLv3 :=
  {| engine := engine hd; variables := <[name := value]> (variables hd);
     context := context hd |}.

Definition GetVariable (name : string) (hd : HTTPDSLv3) : option Value :=
  variables hd !! name.

Definition set_context (key : string) (value : Value) (hd : HTTPDSLv3) : HTTPDSLv3 :=
  {| engine := engine hd; variables := variables hd;
     context := <[key := value]> (context hd) |}.

Definition set_engine (he : HTTPEngine) (hd : HTTPDSLv3) : HTTPDSLv3 :=
  {| engine := he; variables := variables hd; context := context hd |}.

(** Go code that reads and writes the interpreter and may return an error:
    a state and error monad over [HTTPDSLv3].  The state is returned in
    every case: the writes made before an error stay. *)
Definition M (A : Type) : Type := HTTPDSLv3 -> Outcome A * HTTPDSLv3.

Definition ret {A} (a : A) : M A := fun hd => (Ok a, hd).

Definition bind {A B} (m : M A) (k : A -> M B) : M B :=
  fun hd =>
    match m hd with
    | (Ok a, hd') => k a hd'
    | (Err e, hd') => (Err e, hd')
    | (Panic e, hd') => (Panic e, hd')
    | (OutOfFuel, hd') => (OutOfFuel, hd')
    end.

Definition fail {A} (msg : string) : M A := fun hd => (Err msg, hd).
Definition out_of_fuel {A} : M A := fun hd => (OutOfFuel, hd).
Definition get : M HTTPDSLv3 := fun hd => (Ok hd, hd).
Definition modify (f : HTTPDSLv3 -> HTTPDSLv3) : M unit := fun hd => (Ok tt, f hd).

(** [fmt.Errorf(prefix + "%v", err)] around a call. *)
Definition wrap_err {A} (wrap : string -> string) (m : M A) : M A :=
  fun hd =>
    match m hd with
    | (Err e, hd') => (Err (wrap e), hd')
    | other => other
    end.

Declare Scope dsl_scope.
Delimit Scope dsl_scope with dsl.
Notation "x <- m ;; k" := (bind m (fun x => k))
  (at level 100, m at next level, k at level 200, right associativity) : dsl_scope.
Notation "m ;;; k" := (bind m (fun _ => k))
  (at level 100, k at level 200, right associativity) : dsl_scope.
Local Open Scope dsl_scope.

(** [float64(n)] and [int(x)]; the latter truncates, and outside the range
    of [int] gives the smallest [int], as the amd64 conversion does. *)
Definition float64_of_int (n : Z) : float :=
  SF2Prim (binary_normalize FloatOps.prec FloatOps.emax n 0 false).

Definition int_of_float64 (x : float) : Z :=
  let min_int := - 2 ^ 63 in
  match Prim2SF x with
  | S754_zero _ => 0
  | S754_finite s m e =>
      let magnitude := if 0 <=? e then Z.pos m * 2 ^ e else Z.pos m / 2 ^ (- e) in
      let v := if s then - magnitude else magnitude in
      if (v <? min_int) || (2 ^ 63 <=? v) then min_int else v
  | _ => min_int
  end.

Definition backslash : string := String (ascii_of_nat 92) EmptyString.
Definition check_mark : string :=
  String (ascii_of_nat 226) (String (ascii_of_nat 156) (String (ascii_of_nat 147) EmptyString)).

(** [unquoteString]: lines 1101-1112. *)
Definition unquoteString (s : string) : string :=
  if (2 <=? strings.len s)%nat
     && strings.HasPrefix s dquote && strings.HasSuffix s dquote
  then
    let s := strings.take (strings.len s - 2) (strings.drop 1 s) in
    let s := strings.ReplaceAll s (backslash +:+ dquote) dquote in
    let s := strings.ReplaceAll s (backslash +:+ backslash) backslash in
    let s := strings.ReplaceAll s (backslash +:+ "n") (String (ascii_of_nat 10) EmptyString) in
    let s := strings.ReplaceAll s (backslash +:+ "t") (String (ascii_of_nat 9) EmptyString) in
    let s := strings.ReplaceAll s (backslash +:+ "r") (String (ascii_of_nat 13) EmptyString) in
    s
  else s.

(** *** The array functions of the grammar ([length], [split], [$a[i]]) *)

(** [string(v[index])]: the conversion of a byte to a string gives the
    UTF-8 encoding of the code point of that value, two bytes from 128
    on. *)
Definition byte_to_string (c : ascii) : string :=
  let n := nat_of_ascii c in
  if (n <? 128)%nat then String c EmptyString
  else String (ascii_of_nat (192 + n / 64))
              (String (ascii_of_nat (128 + n mod 64)) EmptyString).

Section Arrays.
Context {E : GoEnv}.

(** The action [lengthFunction]: part_010, lines 560-588.  A [Value]
    holds no [[]string]; that case of the switch is the one of
    [[]interface{}]. *)
Definition lengthFunction (variable : string) : M Value :=
  let varName := strings.TrimPrefix variable "$" in
  hd <- get ;;
  match variables hd !! varName with
  | Some (VSlice v) => ret (VInt (Z.of_nat (length v)))
  | Some (VString v) =>
      if strings.HasPrefix v "[" && strings.HasSuffix v "]" then
        let trimmed := strings.Trim v "[]" in
        if String.eqb (strings.TrimSpace trimmed) "" then ret (VInt 0)
        else
          let parts := strings.Split trimmed "," in
          ret (VInt (Z.of_nat (length parts)))
      else ret (VInt (Z.of_nat (strings.len v)))
  | Some _ => ret (VInt 0)
  | None => ret (VInt 0)
  end.

(** The action [splitFunction]: lines 590-616. *)
Definition splitFunction (variable lexeme : string) : M Value :=
  let varName := strings.TrimPrefix variable "$" in
  let delimiter := unquoteString lexeme in
  hd <- get ;;
  match variables hd !! varName with
  | Some val =>
      let strVal := match val with VString v => v | _ => Sprint val end in
      let parts := strings.Split strVal delimiter in
      ret (VSlice (map VString parts))
  | None => fail ("variable $" +:+ varName +:+ " not found")
  end.

(** The switch on the array that [arrayAccess] and [arrayAccessVar] both
    hold (lines 624-660 and 684-720, the same text). *)
Definition array_element (varName : string) (index : Z) : M Value :=
  hd <- get ;;
  match variables hd !! varName with
  | Some (VSlice v) =>
      if (0 <=? index) && (index <? Z.of_nat (length v))
      then ret (nth (Z.to_nat index) v VNil)
      else fail ("array index out of bounds: " +:+ itoa index)
  | Some (VString v) =>
      if strings.HasPrefix v "[" && strings.HasSuffix v "]" then
        let trimmed := strings.Trim v "[]" in
        if String.eqb (strings.TrimSpace trimmed) "" then
          fail ("cannot access index " +:+ itoa index +:+ " of empty array")
        else
          let parts := strings.Split trimmed "," in
          if (0 <=? index) && (index <? Z.of_nat (length parts)) then
            let item := strings.TrimSpace (nth (Z.to_nat index) parts "") in
            let item := strings.Trim item (dquote +:+ "'") in
            ret (VString item)
          else fail ("array index out of bounds: " +:+ itoa index)
      else if (0 <=? index) && (index <? Z.of_nat (strings.len v)) then
        match String.get (Z.to_nat index) v with
        | Some c => ret (VString (byte_to_string c))
        | None => fail ("string index out of bounds: " +:+ itoa index)
        end
      else fail ("string index out of bounds: " +:+ itoa index)
  | Some _ => fail ("variable $" +:+ varName +:+ " is not an array")
  | None => fail ("variable $" +:+ varName +:+ " not found")
  end.

(** The action [arrayAccess]: lines 618-661; the index is a [NUMBER]
    token, and a failed [Atoi] leaves it at the number returned. *)
Definition arrayAccess (variable indexStr : string) : M Value :=
  let varName := strings.TrimPrefix variable "$" in
  let index := fst (strconv_Atoi indexStr) in
  array_element varName index.

(** The action [arrayAccessVar]: lines 663-722. *)
Definition arrayAccessVar (variable indexVariable : string) : M Value :=
  let varName := strings.TrimPrefix variable "$" in
  let indexVarName := strings.TrimPrefix indexVariable "$" in
  hd <- get ;;
  match variables hd !! indexVarName with
  | Some (VFloat v) => array_element varName (int_of_float64 v)
  | Some (VInt v) => array_element varName v
  | Some (VString v) => array_element varName (fst (strconv_Atoi v))
  | Some _ => fail ("index variable $" +:+ indexVarName +:+ " is not a number")
  | None => fail ("index variable $" +:+ indexVarName +:+ " not found")
  end.
End Arrays.

Section Actions.
Context {E : GoEnv}.

(** The body of [expandVariables] for one order of visit of the map. *)
Definition expand_in_order (order : list (string * Value)) (s : string) : string :=
  fold_left
    (fun result '(name, value) =>
       let placeholder := "$" +:+ name in
       let replacement := Sprint value in
       strings.ReplaceAll result placeholder replacement)
    order s.

(** [expandVariables]: lines 1123-1132; the [range] over [hd.variables]
    visits the entries in the order the runtime picks. *)
Definition expandVariables (s : string) (hd : HTTPDSLv3) : string :=
  expand_in_order (map_range (variables hd)) s.

(** [toBool]: lines 1137-1148.  In the case [int, int64, float64] the
    variable [val] keeps the static type [interface{}], so [val != 0]
    compares the interface value with [int(0)]. *)
Definition toBool (v : Value) : bool :=
  match v with
  | VBool val => val
  | VString val =>
      negb (String.eqb val "") && negb (String.eqb val "false") && negb (String.eqb val "0")
  | VInt val => negb (val =? 0)
  | VInt64 _ => true
  | VFloat _ => true
  | VNil => false
  | VSlice _ | VMap _ => true
  end.

(** [toNumber]: lines 1153-1167. *)
Definition toNumber (v : Value) : float :=
  match v with
  | VFloat val => val
  | VInt val => float64_of_int val
  | VInt64 val => float64_of_int val
  | VString val =>
      match strconv_ParseFloat val with
      | Some num => num
      | None => 0%float
      end
  | _ => 0%float
  end.

(** The actions [valueString], [valueNumber], [valueVariable]. *)
Definition eval_value (t : ValueTok) : M Value :=
  match t with
  | TokString lexeme =>
      hd <- get ;; ret (VString (expandVariables (unquoteString lexeme) hd))
  | TokNumber lexeme =>
      ret (VFloat (match strconv_ParseFloat lexeme with
                   | Some num => num
                   | None => strconv_ParseFloat_err lexeme
                   end))
  | TokVariable lexeme =>
      let varName := strings.TrimPrefix lexeme "$" in
      hd <- get ;;
      match variables hd !! varName with
      | Some val => ret val
      | None => fail ("variable $" +:+ varName +:+ " not found")
      end
  end.

(** The rules of [expression]: the action [arithmeticOp] over the reduced
    operands, and the actions of [array_access] and [function_call]. *)
Fixpoint eval_expr (e : Expr) : M Value :=
  match e with
  | ETerm t => eval_value t
  | EArrayAccess variable number => arrayAccess variable number
  | EArrayAccessVar variable indexVariable => arrayAccessVar variable indexVariable
  | ELength variable => lengthFunction variable
  | ESplit variable lexeme => splitFunction variable lexeme
  | EArith e' op t =>
      l <- eval_expr e' ;;
      r <- eval_value t ;;
      let left := toNumber l in
      let right := toNumber r in
      if String.eqb op "+" then ret (VFloat (left + right)%float)
      else if String.eqb op "-" then ret (VFloat (left - right)%float)
      else if String.eqb op "*" then ret (VFloat (left * right)%float)
      else if String.eqb op "/" then
        if PrimFloat.eqb right 0%float then fail "division by zero"
        else ret (VFloat (left / right)%float)
      else fail ("unknown operator: " +:+ op)
  end.

(** The actions [urlString], [urlDirect], [urlVariable]. *)
Definition eval_url (u : UrlValue) : M string :=
  match u with
  | UrlString lexeme => hd <- get ;; ret (expandVariables (unquoteString lexeme) hd)
  | UrlDirect lexeme => hd <- get ;; ret (expandVariables lexeme hd)
  | UrlVariable lexeme =>
      let varName := strings.TrimPrefix lexeme "$" in
      hd <- get ;;
      match variables hd !! varName with
      | Some val => ret (Sprint val)
      | None => fail ("variable $" +:+ varName +:+ " not found")
      end
  end.

Definition set_header (key value : string) (headers : list (string * string))
  : list (string * string) :=
  (filter (fun kv => negb (String.eqb (fst kv) key)) headers ++ [(key, value)])%list.

(** The option actions and the loop of [httpWithOptions] (lines 441-473)
    that files them into the request options. *)
Definition add_option (hd : HTTPDSLv3) (o : RequestOptions) (opt : ReqOption) : RequestOptions :=
  let ex s := expandVariables (unquoteString s) hd in
  match opt with
  | OptHeader key value =>
      {| opt_header := set_header (unquoteString key) (ex value) (opt_header o);
         opt_body := opt_body o; opt_json := opt_json o; opt_auth := opt_auth o;
         opt_timeout := opt_timeout o |}
  | OptBody lexeme =>
      {| opt_header := opt_header o; opt_body := Some (ex lexeme); opt_json := opt_json o;
         opt_auth := opt_auth o; opt_timeout := opt_timeout o |}
  | OptJsonString lexeme =>
      {| opt_header := opt_header o; opt_body := opt_body o; opt_json := Some (ex lexeme);
         opt_auth := opt_auth o; opt_timeout := opt_timeout o |}
  | OptJsonInline lexeme =>
      {| opt_header := opt_header o; opt_body := opt_body o;
         opt_json := Some (expandVariables lexeme hd);
         opt_auth := opt_auth o; opt_timeout := opt_timeout o |}
  | OptAuthBasic user pass =>
      {| opt_header := opt_header o; opt_body := opt_body o; opt_json := opt_json o;
         opt_auth := Some [("type", "basic"); ("user", ex user); ("pass", ex pass)];
         opt_timeout := opt_timeout o |}
  | OptAuthBearer token =>
      {| opt_header := opt_header o; opt_body := opt_body o; opt_json := opt_json o;
         opt_auth := Some [("type", "bearer"); ("token", ex token)];
         opt_timeout := opt_timeout o |}
  | OptTimeout number unit =>
      let value := match strconv_ParseFloat number with
                   | Some v => v
                   | None => strconv_ParseFloat_err number
                   end in
      let value := if String.eqb unit "s" then (value * 1000)%float else value in
      {| opt_header := opt_header o; opt_body := opt_body o; opt_json := opt_json o;
         opt_auth := opt_auth o; opt_timeout := Some (int_of_float64 value) |}
  end.

(** A call of a method of [hd.engine]. *)
Definition on_engine {A} (f : HTTPEngine -> Outcome A * HTTPEngine) : M A :=
  fun hd => let '(r, he) := f (engine hd) in (r, set_engine he hd).

(** The actions [extractVariable] and [extractVariableNoPattern]: lines
    762-799 ([pattern] is [""] for the latter, and the message differs). *)
Definition extractVariable (extractType pattern : string) (variable : string)
           (message : string) : M Value :=
  let varName := strings.TrimPrefix variable "$" in
  hd <- get ;;
  if String.eqb (GetLastResponse (engine hd)) "" then
    modify (SetVariable varName (VString "")) ;;;
    ret (VString ("Warning: No response available for extraction. Variable $"
                    +:+ varName +:+ " set to empty."))
  else
    value <- on_engine (Extract extractType pattern) ;;
    let value := if is_nil value then VString "" else value in
    modify (SetVariable varName value) ;;;
    ret (VString message).

(** The action the rule of each statement runs. *)
Definition exec (s : Stmt) : M Value :=
  match s with
  | SHttp method url options =>
      urlStr <- eval_url url ;;
      hd <- get ;;
      match options with
      | [] => on_engine (Request method urlStr None)
      | _ => on_engine (Request method urlStr
                                (Some (fold_left (add_option hd) options no_options)))
      end
  | SSet variable e =>
      value <- eval_expr e ;;
      let varName := strings.TrimPrefix variable "$" in
      modify (SetVariable varName value) ;;;
      ret (VString ("Variable $" +:+ varName +:+ " set to " +:+ Sprint value))
  | SExtract extractType lexeme variable =>
      let pattern := unquoteString lexeme in
      extractVariable extractType pattern variable
        ("Extracted " +:+ pattern +:+ " using " +:+ extractType +:+ " and stored in $"
           +:+ strings.TrimPrefix variable "$")
  | SExtractNoPattern extractType variable =>
      extractVariable extractType "" variable
        ("Extracted " +:+ extractType +:+ " and stored in $"
           +:+ strings.TrimPrefix variable "$")
  | SPrintVariable variable =>
      let varName := strings.TrimPrefix variable "$" in
      hd <- get ;;
      match variables hd !! varName with
      | Some val => ret (VString ("$" +:+ varName +:+ " = " +:+ Sprint val))
      | None => ret (VString ("Variable $" +:+ varName +:+ " not found"))
      end
  | SPrintString lexeme =>
      hd <- get ;; ret (VString (expandVariables (unquoteString lexeme) hd))
  | SBreak => modify (set_context "break" (VBool true)) ;;; ret (VString "break")
  | SContinue => modify (set_context "continue" (VBool true)) ;;; ret (VString "continue")
  | SAssertStatus number =>
      let expectedCode := fst (strconv_Atoi number) in
      hd <- get ;;
      let actualCode := GetLastStatusCode (engine hd) in
      if actualCode =? expectedCode
      then ret (VString (check_mark +:+ " Status code is " +:+ itoa expectedCode))
      else fail ("assertion failed: expected status " +:+ itoa expectedCode
                   +:+ ", got " +:+ itoa actualCode)
  | SAssertContains lexeme =>
      hd <- get ;;
      let expected := expandVariables (unquoteString lexeme) hd in
      if strings.Contains (GetLastResponse (engine hd)) expected
      then ret (VString (check_mark +:+ " Response contains '" +:+ expected +:+ "'"))
      else fail ("assertion failed: response does not contain '" +:+ expected +:+ "'")
  | SLog lexeme =>
      hd <- get ;;
      ret (VString ("Logged: " +:+ expandVariables (unquoteString lexeme) hd))
  | SReset =>
      modify (fun hd => {| engine := Reset (engine hd); variables := ∅; context := ∅ |}) ;;;
      ret (VString "Reset complete")
  | SBaseURL lexeme =>
      hd <- get ;;
      let url := expandVariables (unquoteString lexeme) hd in
      modify (fun hd => set_engine (SetBaseURL url (engine hd)) hd) ;;;
      ret (VString ("Base URL set to " +:+ url))
  end.

(** [ParseWithContext]: lines 1348-1359; a line the grammar rejects
    returns the engine's detailed error. *)
Definition ParseWithContext (input : string) : M Value :=
  match dsl_Parse input with
  | Parsed s => exec s
  | ParseError detail => fail detail
  end.
End Actions.

(* ===================================================================== *)
(** ** The textual condition evaluator of the block preprocessor *)
(* ===================================================================== *)

Section Conditions.
Context {E : GoEnv}.

(** The numeric switch shared by the comparison code below; [None] when
    [operator] is none of the six. *)
Definition numeric_compare (operator : string) (l r : float) : option bool :=
  if String.eqb operator ">" then Some (PrimFloat.ltb r l)
  else if String.eqb operator "<" then Some (PrimFloat.ltb l r)
  else if String.eqb operator ">=" then Some (PrimFloat.leb r l)
  else if String.eqb operator "<=" then Some (PrimFloat.leb l r)
  else if String.eqb operator "==" then Some (PrimFloat.eqb l r)
  else if String.eqb operator "!=" then Some (negb (PrimFloat.eqb l r))
  else None.

(** The conversion at the head of [CompareValues] (lines 1535-1560): the
    number and whether the side counts as one. *)
Definition as_number (v : Value) : option float :=
  match v with
  | VInt n => Some (float64_of_int n)
  | VFloat f => Some f
  | VString s => fmt_Sscanf_f s
  | _ => None
  end.

(** [CompareValues]: lines 1529-1600. *)
Definition CompareValues (left : Value) (operator : string) (right : Value) : bool :=
  let leftStr := Sprint left in
  let rightStr := Sprint right in
  let stringComparison :=
    if String.eqb operator "==" then String.eqb leftStr rightStr
    else if String.eqb operator "!=" then negb (String.eqb leftStr rightStr)
    else if String.eqb operator ">" then String.ltb rightStr leftStr
    else if String.eqb operator "<" then String.ltb leftStr rightStr
    else if String.eqb operator ">=" then String.leb rightStr leftStr
    else if String.eqb operator "<=" then String.leb leftStr rightStr
    else false in
  match as_number left, as_number right with
  | Some leftNum, Some rightNum =>
      match numeric_compare operator leftNum rightNum with
      | Some b => b
      | None => stringComparison
      end
  | _, _ => stringComparison
  end.

(** [EvaluateSimpleCondition]: lines 1464-1526. *)
Definition EvaluateSimpleCondition (conditionStr : string) (hd : HTTPDSLv3) : bool :=
  let side (word : string) : option Value :=
    if strings.HasPrefix word "$"
    then variables hd !! strings.TrimPrefix word "$"
    else Some (VString word) in
  match strings.Fields conditionStr with
  | [word] =>
      match variables hd !! strings.TrimPrefix word "$" with
      | Some (VBool v) => v
      | Some (VInt v) => negb (v =? 0)
      | Some (VFloat v) => negb (PrimFloat.eqb v 0%float)
      | Some (VString v) =>
          negb (String.eqb v "") && negb (String.eqb v "0") && negb (String.eqb v "false")
      | Some val => negb (is_nil val)
      | None => false
      end
  | [leftSide; operator; rightSide] =>
      match side leftSide with
      | None => false
      | Some leftVal =>
          match side rightSide with
          | None => false
          | Some rightVal => CompareValues leftVal operator rightVal
          end
      end
  | _ => false
  end.

(** [EvaluateCondition]: lines 1436-1461.  Each recursive call is on a
    piece of a string that holds the separator, hence on a shorter
    string: [fuel] counts the length still available. *)
Fixpoint EvaluateCondition_rec (fuel : nat) (conditionStr : string) (hd : HTTPDSLv3) : bool :=
  match fuel with
  | O => false
  | S fuel' =>
      if strings.Contains conditionStr " OR " then
        existsb (fun part => EvaluateCondition_rec fuel' (strings.TrimSpace part) hd)
                (strings.Split conditionStr " OR ")
      else if strings.Contains conditionStr " AND " then
        forallb (fun part => EvaluateCondition_rec fuel' (strings.TrimSpace part) hd)
                (strings.Split conditionStr " AND ")
      else EvaluateSimpleCondition conditionStr hd
  end.

Definition EvaluateCondition (conditionStr : string) (hd : HTTPDSLv3) : bool :=
  EvaluateCondition_rec (S (strings.len conditionStr)) conditionStr hd.

(** The condition code written out in [ParseWithBlockSupport] for
    [while] (lines 906-944) and for the single-line [if/then/else]
    (lines 1126-1167): the same text twice.  A failed [Sscanf] leaves
    its target at zero. *)
Definition inline_condition (conditionStr : string) (hd : HTTPDSLv3) : bool :=
  match strings.Fields conditionStr with
  | [word; operator; compareToStr] =>
      let varName := strings.TrimPrefix word "$" in
      match variables hd !! varName with
      | Some val =>
          let numVal :=
            match val with
            | VInt v => float64_of_int v
            | VFloat v => v
            | VString v => match fmt_Sscanf_f v with Some x => x | None => 0%float end
            | _ => 0%float
            end in
          let compareVal :=
            match fmt_Sscanf_f compareToStr with Some x => x | None => 0%float end in
          match numeric_compare operator numVal compareVal with
          | Some b => b
          | None => false
          end
      | None => false
      end
  | _ => false
  end.
End Conditions.

(* ===================================================================== *)
(** ** The block preprocessor ([ParseWithBlockSupport], [loop_processor.go]) *)
(* ===================================================================== *)

Record LoopResult : Type := mkLoopResult {
  Results : list Value;
  ShouldBreak : bool;
  ShouldContinue : bool
}.

Definition newline : string := String (ascii_of_nat 10) EmptyString.

Definition isHTTPMethod (line : string) : bool :=
  existsb (strings.HasPrefix line)
          ["GET "; "POST "; "PUT "; "DELETE "; "PATCH "; "HEAD "; "OPTIONS "; "CONNECT "; "TRACE "].

(** [if res != nil && res != "" { results = append(results, res) }] *)
Definition append_result (results : list Value) (res : Value) : list Value :=
  if negb (is_nil res) && negb (is_empty_string res) then (results ++ [res])%list else results.

Definition is_if_opener (line : string) : bool :=
  strings.HasPrefix line "if " && strings.HasSuffix line " then".

Definition is_comment_or_blank (line : string) : bool :=
  String.eqb line "" || strings.HasPrefix line "#".

(** Lines 664-676 of [ParseWithBlockSupport]: the indented [header] lines
    that follow a request line; [j] is the index of the first line of
    [rest]. *)
Fixpoint collect_headers (rest : list string) (j : nat) (requestParts : list string)
  : list string * nat :=
  match rest with
  | [] => (requestParts, j)
  | nextLine :: rest' =>
      let trimmedNext := strings.TrimSpace nextLine in
      if strings.HasPrefix nextLine "    " && strings.HasPrefix trimmedNext "header "
      then collect_headers rest' (S j) (requestParts ++ [trimmedNext])%list
      else (requestParts, j)
  end.

(** Lines 709-751: the then and else lines of an [if] block, up to the
    [endif] that closes it; [i] ends on that [endif], or past the last
    line when there is none. *)
Fixpoint collect_if (rest : list string) (i : nat) (nestLevel : nat) (inElse : bool)
         (thenBlock elseBlock : list string) : list string * list string * nat :=
  match rest with
  | [] => (thenBlock, elseBlock, i)
  | raw :: rest' =>
      let innerLine := strings.TrimSpace raw in
      let thenBlock' := if inElse then thenBlock else (thenBlock ++ [raw])%list in
      let elseBlock' := if inElse then (elseBlock ++ [raw])%list else elseBlock in
      if String.eqb innerLine "endif" then
        if (nestLevel - 1 =? 0)%nat then (thenBlock, elseBlock, i)
        else collect_if rest' (S i) (nestLevel - 1) inElse thenBlock' elseBlock'
      else if is_if_opener innerLine then
        collect_if rest' (S i) (S nestLevel) inElse thenBlock' elseBlock'
      else if String.eqb innerLine "else" && (nestLevel =? 1)%nat then
        collect_if rest' (S i) nestLevel true thenBlock elseBlock
      else if String.eqb innerLine "else" && (1 <? nestLevel)%nat then
        collect_if rest' (S i) nestLevel inElse thenBlock' elseBlock'
      else if negb (is_comment_or_blank innerLine) then
        collect_if rest' (S i) nestLevel inElse thenBlock' elseBlock'
      else collect_if rest' (S i) nestLevel inElse thenBlock elseBlock
  end.

(** Lines 819-835, 882-898 and 1001-1017 (the same loop three times): the
    trimmed body lines of a loop; no [endloop] line is ever kept. *)
Fixpoint collect_loop (rest : list string) (i : nat) (nestLevel : nat) (loopBody : list string)
  : list string * nat :=
  match rest with
  | [] => (loopBody, i)
  | raw :: rest' =>
      let innerLine := strings.TrimSpace raw in
      if String.eqb innerLine "endloop" then
        if (nestLevel - 1 =? 0)%nat then (loopBody, i)
        else collect_loop rest' (S i) (nestLevel - 1) loopBody
      else
        let nestLevel' := if strings.HasSuffix innerLine " do" then S nestLevel else nestLevel in
        let loopBody' :=
          if negb (is_comment_or_blank innerLine) then (loopBody ++ [innerLine])%list
          else loopBody in
        collect_loop rest' (S i) nestLevel' loopBody'
  end.

(** [ExtractIfBlock] and [ExtractLoopBlock] (loop_processor.go, lines
    118-191) differ in the opener and the terminator only. *)
Fixpoint extract_block (opener terminator : string -> bool) (rest : list string) (i : nat)
         (nestLevel : Z) (block : list string) : option (list string * nat) :=
  match rest with
  | [] => None
  | line :: rest' =>
      let trimmed := strings.TrimSpace line in
      let nestLevel :=
        if opener trimmed then nestLevel + 1
        else if terminator trimmed then nestLevel - 1
        else nestLevel in
      let block := (block ++ [line])%list in
      if nestLevel =? 0 then Some (block, i)
      else extract_block opener terminator rest' (S i) nestLevel block
  end.

Definition ExtractIfBlock (lines : list string) (startIdx : nat) : option (list string * nat) :=
  extract_block is_if_opener (fun t => String.eqb t "endif") (skipn startIdx lines) startIdx 0 [].

Definition ExtractLoopBlock (lines : list string) (startIdx : nat) : option (list string * nat) :=
  extract_block (fun t => strings.HasSuffix t " do") (fun t => String.eqb t "endloop")
                (skipn startIdx lines) startIdx 0 [].

(** Lines 283-324 of [ProcessIfBlockWithControl]: the trimmed then and else
    lines of the block, from its second line on. *)
Fixpoint split_then_else (rest : list string) (nestLevel : nat) (inElse : bool)
         (thenBlock elseBlock : list string) : list string * list string :=
  match rest with
  | [] => (thenBlock, elseBlock)
  | raw :: rest' =>
      let line := strings.TrimSpace raw in
      let thenBlock' := if inElse then thenBlock else (thenBlock ++ [line])%list in
      let elseBlock' := if inElse then (elseBlock ++ [line])%list else elseBlock in
      if is_if_opener line then
        split_then_else rest' (S nestLevel) inElse thenBlock' elseBlock'
      else if String.eqb line "endif" then
        if (nestLevel =? 0)%nat then (thenBlock, elseBlock)
        else split_then_else rest' (nestLevel - 1) inElse thenBlock' elseBlock'
      else if String.eqb line "else" && (nestLevel =? 0)%nat then
        split_then_else rest' nestLevel true thenBlock elseBlock
      else if String.eqb line "else" && (0 <? nestLevel)%nat then
        split_then_else rest' nestLevel inElse thenBlock' elseBlock'
      else if negb (is_comment_or_blank line) then
        split_then_else rest' nestLevel inElse thenBlock' elseBlock'
      else split_then_else rest' nestLevel inElse thenBlock elseBlock
  end.

(** Lines 365-375: the first line of the executed block that is [break] or
    [continue], read off the text of the block. *)
Fixpoint scan_control (block : list string) : option bool :=
  match block with
  | [] => None
  | line :: rest =>
      let trimmed := strings.TrimSpace line in
      if String.eqb trimmed "break" then Some true
      else if String.eqb trimmed "continue" then Some false
      else scan_control rest
  end.

(** Lines 1027-1040 and 1056-1069: the items of a bracketed list. *)
Definition list_items (listStr : string) : list Value :=
  let listStr := strings.Trim listStr "[]" in
  if String.eqb (strings.TrimSpace listStr) "" then []
  else
    flat_map
      (fun part =>
         let item := strings.Trim (strings.TrimSpace part) (dquote +:+ "'") in
         if String.eqb item "" then [] else [VString item])
      (strings.Split listStr ",").

Definition catch {A} (m : M A) : M (A + string) :=
  fun hd =>
    match m hd with
    | (Ok a, hd') => (Ok (inl a), hd')
    | (Err e, hd') => (Ok (inr e), hd')
    | (Panic e, hd') => (Panic e, hd')
    | (OutOfFuel, hd') => (OutOfFuel, hd')
    end.

Section Blocks.
Context {E : GoEnv}.

(** Lines 795-812: the count of a [repeat]. *)
Definition repeat_count (countStr : string) (hd : HTTPDSLv3) : Z :=
  let scan s := match fmt_Sscanf_d s with Some n => n | None => 0 end in
  if strings.HasPrefix countStr "$" then
    match variables hd !! strings.TrimPrefix countStr "$" with
    | Some (VInt v) => v
    | Some (VFloat v) => int_of_float64 v
    | Some (VString v) => scan v
    | _ => 0
    end
  else scan countStr.

(** Lines 1020-1074: the items a [foreach] runs over. *)
Definition foreach_items (listPart : string) (hd : HTTPDSLv3) : list Value :=
  if strings.HasPrefix listPart "[" && strings.HasSuffix listPart "]" then list_items listPart
  else if strings.HasPrefix listPart "$" then
    match variables hd !! strings.TrimPrefix listPart "$" with
    | Some (VSlice v) => v
    | Some (VString v) => if strings.HasPrefix v "[" then list_items v else []
    | _ => []
    end
  else [].

Definition is_loop_opener (trimmed : string) : bool :=
  (strings.HasPrefix trimmed "while " && strings.HasSuffix trimmed " do")
  || (strings.HasPrefix trimmed "foreach " && strings.Contains trimmed " in "
      && strings.HasSuffix trimmed " do")
  || (strings.HasPrefix trimmed "repeat " && strings.Contains trimmed " times do").

(** The block preprocessor.  Each Go function below is written once, over
    the functions it calls ([parse], [next], ...); the fixpoint after
    them ties the calls together.  Every call and every pass of a loop
    takes one unit of fuel there, and [OutOfFuel] says the Go code had
    not returned yet. *)

(** One pass of the main loop of [ParseWithBlockSupport] (part_009, lines
    648-1199) at line [i]; [next] is the rest of the loop. *)
Definition parse_lines_step
           (parse : string -> M (list Value))
           (next : list string -> nat -> list Value -> M (list Value))
           (repeat : list string -> Z -> Z -> Z -> list Value -> M (list Value * Z))
           (while : string -> list string -> Z -> list Value -> M (list Value * Z))
           (foreach : list string -> string -> list Value -> Z -> Z -> list Value
                      -> M (list Value * Z))
           (lines : list string) (i : nat) (results : list Value) : M (list Value) :=
  match nth_error lines i with
  | None => ret results
  | Some raw =>
    let line := strings.TrimSpace raw in
    if String.eqb line "" || strings.HasPrefix line "#" || strings.HasPrefix line "//" then
      next lines (S i) results
    else if isHTTPMethod line then
      let '(requestParts, j) := collect_headers (skipn (S i) lines) (S i) [line] in
      let fullRequest := strings.Join requestParts " " in
      result <- wrap_err (fun e => "error parsing HTTP request: " +:+ e)
                         (ParseWithContext fullRequest) ;;
      next lines j (append_result results result)
    else if strings.HasPrefix line "if " && strings.HasSuffix line " then" then
      let conditionStr := strings.TrimSuffix (strings.TrimPrefix line "if ") " then" in
      hd <- get ;;
      let shouldExecute := EvaluateCondition conditionStr hd in
      let '(thenBlock, elseBlock, i') := collect_if (skipn (S i) lines) (S i) 1 false [] [] in
      let blockToExecute := if shouldExecute then thenBlock else elseBlock in
      results <- match blockToExecute with
                 | [] => ret results
                 | _ =>
                     blockResults <-
                       wrap_err (fun e => "error processing block: " +:+ e)
                                (parse (strings.Join blockToExecute newline)) ;;
                     ret (results ++ blockResults)%list
                 end ;;
      next lines (S i') results
    else if strings.HasPrefix line "repeat " && strings.HasSuffix line " do" then
      let parts := strings.Fields line in
      if (length parts <? 4)%nat then fail ("invalid repeat syntax: " +:+ line)
      else
        hd <- get ;;
        let count := repeat_count (nth 1 parts "") hd in
        let '(loopBody, i') := collect_loop (skipn (S i) lines) (S i) 1 [] in
        r <- repeat loopBody count 0 0 results ;;
        let '(results, actualIterations) := r in
        next lines (S i')
          (results ++ [VString ("Repeated " +:+ itoa actualIterations +:+ " times")])%list
    else if strings.HasPrefix line "while " && strings.HasSuffix line " do" then
      let conditionStr := strings.TrimSuffix (strings.TrimPrefix line "while ") " do" in
      let '(loopBody, i') := collect_loop (skipn (S i) lines) (S i) 1 [] in
      r <- while conditionStr loopBody 0 results ;;
      let '(results, iterations) := r in
      if 1000 <=? iterations
      then fail "while loop exceeded maximum iterations (1000)"
      else
        next lines (S i')
          (results ++ [VString ("While loop executed " +:+ itoa iterations +:+ " times")])%list
    else if strings.HasPrefix line "foreach " && strings.Contains line " in "
            && strings.HasSuffix line " do" then
      match strings.Split line " in " with
      | [head; tail] =>
          let itemVar := strings.TrimPrefix (strings.TrimPrefix head "foreach ") "$" in
          let listPart := strings.TrimSuffix tail " do" in
          let '(loopBody, i') := collect_loop (skipn (S i) lines) (S i) 1 [] in
          hd <- get ;;
          let items := foreach_items listPart hd in
          r <- foreach loopBody itemVar items 0 0 results ;;
          let '(results, actualIterations) := r in
          next lines (S i')
            (results ++ [VString ("Foreach executed for " +:+ itoa actualIterations
                                    +:+ " items")])%list
      | _ => fail ("invalid foreach syntax: " +:+ line)
      end
    else
      let regular :=
        result <- wrap_err (fun e => "error at line " +:+ itoa (Z.of_nat i + 1) +:+ ": " +:+ e)
                           (ParseWithContext line) ;;
        next lines (S i) (results ++ [result])%list in
      if strings.HasPrefix line "if " && strings.Contains line " then "
         && strings.Contains line " else " && negb (strings.Contains line "endif") then
        match strings.SplitN line " then " 2 with
        | [ifPart; rest] =>
            let conditionPart := strings.TrimPrefix ifPart "if " in
            match strings.SplitN rest " else " 2 with
            | [thenStatement; elseStatement] =>
                hd <- get ;;
                let shouldExecuteThen := inline_condition conditionPart hd in
                if shouldExecuteThen then
                  result <- wrap_err (fun e => "error in then statement: " +:+ e)
                                     (ParseWithContext thenStatement) ;;
                  next lines (S i) (results ++ [result])%list
                else
                  result <- wrap_err (fun e => "error in else statement: " +:+ e)
                                     (ParseWithContext elseStatement) ;;
                  next lines (S i) (results ++ [result])%list
            | _ => regular
            end
        | _ => regular
        end
      else regular
  end.

(** One pass of the [repeat] loop (lines 839-867). *)
Definition repeat_loop_step
           (processLoopBody : list string -> M LoopResult)
           (next : list string -> Z -> Z -> Z -> list Value -> M (list Value * Z))
           (loopBody : list string) (count iteration actualIterations : Z)
           (results : list Value) : M (list Value * Z) :=
  if iteration <? count then
    modify (SetVariable "_index" (VInt iteration)) ;;;
    modify (SetVariable "_iteration" (VInt (iteration + 1))) ;;;
    loopResult <- wrap_err (fun e => "error in loop iteration " +:+ itoa (iteration + 1)
                                       +:+ ": " +:+ e)
                           (processLoopBody loopBody) ;;
    let results := fold_left append_result (Results loopResult) results in
    let actualIterations := actualIterations + 1 in
    if ShouldContinue loopResult then
      next loopBody count (iteration + 1) actualIterations results
    else if ShouldBreak loopResult then ret (results, actualIterations)
    else next loopBody count (iteration + 1) actualIterations results
  else ret (results, actualIterations).

(** One pass of the [while] loop (lines 904-976): [continue] goes back
    to the test of the loop, past [iterations++]. *)
Definition while_loop_step
           (processLoopBody : list string -> M LoopResult)
           (next : string -> list string -> Z -> list Value -> M (list Value * Z))
           (conditionStr : string) (loopBody : list string) (iterations : Z)
           (results : list Value) : M (list Value * Z) :=
  if iterations <? 1000 then
    hd <- get ;;
    let shouldContinue := inline_condition conditionStr hd in
    if negb shouldContinue then ret (results, iterations)
    else
      modify (SetVariable "_iteration" (VInt (iterations + 1))) ;;;
      loopResult <- wrap_err (fun e => "error in while loop iteration "
                                         +:+ itoa (iterations + 1) +:+ ": " +:+ e)
                             (processLoopBody loopBody) ;;
      let results := fold_left append_result (Results loopResult) results in
      if ShouldContinue loopResult then next conditionStr loopBody iterations results
      else if ShouldBreak loopResult then ret (results, iterations)
      else next conditionStr loopBody (iterations + 1) results
  else ret (results, iterations).

(** One pass of the [foreach] loop (lines 1078-1107). *)
Definition foreach_loop_step
           (processLoopBody : list string -> M LoopResult)
           (next : list string -> string -> list Value -> Z -> Z -> list Value
                   -> M (list Value * Z))
           (loopBody : list string) (itemVar : string) (items : list Value)
           (idx actualIterations : Z) (results : list Value) : M (list Value * Z) :=
  match items with
  | [] => ret (results, actualIterations)
  | item :: items' =>
    modify (SetVariable itemVar item) ;;;
    modify (SetVariable "_index" (VInt idx)) ;;;
    modify (SetVariable "_iteration" (VInt (idx + 1))) ;;;
    loopResult <- wrap_err (fun e => "error in foreach iteration " +:+ itoa (idx + 1)
                                       +:+ ": " +:+ e)
                           (processLoopBody loopBody) ;;
    let results := fold_left append_result (Results loopResult) results in
    let actualIterations := actualIterations + 1 in
    if ShouldContinue loopResult then
      next loopBody itemVar items' (idx + 1) actualIterations results
    else if ShouldBreak loopResult then ret (results, actualIterations)
    else next loopBody itemVar items' (idx + 1) actualIterations results
  end.

(** Lines 89-97 of [ProcessLoopBody]: every line of a nested loop block
    goes through [ParseWithBlockSupport] on its own. *)
Fixpoint each_loop_line (parse : string -> M (list Value)) (loopBlock : list string)
         (loopResults : list Value) : M (list Value) :=
  match loopBlock with
  | [] => ret loopResults
  | loopLine :: rest =>
      res <- parse loopLine ;;
      each_loop_line parse rest (loopResults ++ [VSlice res])%list
  end.

(** One pass of the loop of [ProcessLoopBody] (loop_processor.go, lines
    24-112) at line [i]. *)
Definition loop_body_step
           (parse : string -> M (list Value))
           (processIfBlockWithControl : list string -> M LoopResult)
           (next : list string -> nat -> list Value -> M LoopResult)
           (body : list string) (i : nat) (results : list Value) : M LoopResult :=
  match nth_error body i with
  | None => ret (mkLoopResult results false false)
  | Some line =>
    let trimmed := strings.TrimSpace line in
    if is_comment_or_blank trimmed then next body (S i) results
    else if String.eqb trimmed "break" then ret (mkLoopResult results true false)
    else if String.eqb trimmed "continue" then ret (mkLoopResult results false true)
    else if is_if_opener trimmed then
      match ExtractIfBlock body i with
      | None => fail ("malformed if block at line " +:+ itoa (Z.of_nat i + 1))
      | Some (ifBlock, endIdx) =>
          ifResult <- processIfBlockWithControl ifBlock ;;
          let results := (results ++ Results ifResult)%list in
          if ShouldBreak ifResult then ret (mkLoopResult results true false)
          else if ShouldContinue ifResult then ret (mkLoopResult results false true)
          else next body (S endIdx) results
      end
    else if is_loop_opener trimmed then
      match ExtractLoopBlock body i with
      | None => fail ("malformed loop block at line " +:+ itoa (Z.of_nat i + 1))
      | Some (loopBlock, endIdx) =>
          loopResults <- each_loop_line parse loopBlock [] ;;
          next body (S endIdx) (results ++ loopResults)%list
      end
    else
      lineResult <- wrap_err (fun e => "error processing line " +:+ itoa (Z.of_nat i + 1)
                                         +:+ ": " +:+ e)
                             (ParseWithContext trimmed) ;;
      next body (S i) (append_result results lineResult)
  end.

(** [ProcessIfBlockWithControl] (loop_processor.go, lines 254-379). *)
Definition ProcessIfBlockWithControl_step
           (parse : string -> M (list Value)) (block : list string) : M LoopResult :=
  match block with
  | first :: ((_ :: _) as rest) =>
    let firstLine := strings.TrimSpace first in
    if negb (strings.HasPrefix firstLine "if ") || negb (strings.HasSuffix firstLine " then")
    then fail "invalid if block: missing if/then"
    else
      let conditionStr := strings.TrimSuffix (strings.TrimPrefix firstLine "if ") " then" in
      hd <- get ;;
      let shouldExecute := EvaluateCondition conditionStr hd in
      let '(thenBlock, elseBlock) := split_then_else rest 0 false [] [] in
      let blockToExecute := if shouldExecute then thenBlock else elseBlock in
      match blockToExecute with
      | [] => ret (mkLoopResult [] false false)
      | _ =>
          r <- catch (parse (strings.Join blockToExecute newline)) ;;
          match r with
          | inr errMsg =>
              if strings.Contains errMsg "break" then ret (mkLoopResult [] true false)
              else if strings.Contains errMsg "continue" then ret (mkLoopResult [] false true)
              else fail errMsg
          | inl blockResults =>
              match scan_control blockToExecute with
              | Some true => ret (mkLoopResult blockResults true false)
              | Some false => ret (mkLoopResult blockResults false true)
              | None => ret (mkLoopResult blockResults false false)
              end
          end
      end
  | _ => fail "invalid if block: too short"
  end.

Fixpoint ParseWithBlockSupport (fuel : nat) (code : string) {struct fuel} : M (list Value) :=
  match fuel with
  | O => out_of_fuel
  | S fuel' => parse_lines fuel' (strings.Split code newline) 0 []
  end

with parse_lines (fuel : nat) (lines : list string) (i : nat) (results : list Value)
     {struct fuel} : M (list Value) :=
  match fuel with
  | O => out_of_fuel
  | S fuel' =>
      parse_lines_step (ParseWithBlockSupport fuel') (parse_lines fuel') (repeat_loop fuel')
                       (while_loop fuel') (foreach_loop fuel') lines i results
  end

with repeat_loop (fuel : nat) (loopBody : list string) (count iteration actualIterations : Z)
     (results : list Value) {struct fuel} : M (list Value * Z) :=
  match fuel with
  | O => out_of_fuel
  | S fuel' =>
      repeat_loop_step (ProcessLoopBody fuel') (repeat_loop fuel')
                       loopBody count iteration actualIterations results
  end

with while_loop (fuel : nat) (conditionStr : string) (loopBody : list string) (iterations : Z)
     (results : list Value) {struct fuel} : M (list Value * Z) :=
  match fuel with
  | O => out_of_fuel
  | S fuel' =>
      while_loop_step (ProcessLoopBody fuel') (while_loop fuel')
                      conditionStr loopBody iterations results
  end

with foreach_loop (fuel : nat) (loopBody : list string) (itemVar : string) (items : list Value)
     (idx actualIterations : Z) (results : list Value) {struct fuel} : M (list Value * Z) :=
  match fuel with
  | O => out_of_fuel
  | S fuel' =>
      foreach_loop_step (ProcessLoopBody fuel') (foreach_loop fuel')
                        loopBody itemVar items idx actualIterations results
  end

with ProcessLoopBody (fuel : nat) (body : list string) {struct fuel} : M LoopResult :=
  match fuel with
  | O => out_of_fuel
  | S fuel' => loop_body fuel' body 0 []
  end

with loop_body (fuel : nat) (body : list string) (i : nat) (results : list Value)
     {struct fuel} : M LoopResult :=
  match fuel with
  | O => out_of_fuel
  | S fuel' =>
      loop_body_step (ParseWithBlockSupport fuel') (ProcessIfBlockWithControl fuel')
                     (loop_body fuel') body i results
  end

with ProcessIfBlockWithControl (fuel : nat) (block : list string) {struct fuel} : M LoopResult :=
  match fuel with
  | O => out_of_fuel
  | S fuel' => ProcessIfBlockWithControl_step (ParseWithBlockSupport fuel') block
  end.
End Blocks.

(* ===================================================================== *)
(** ** A reference runtime *)
(* ===================================================================== *)

(** An instance of [GoEnv] to run scripts on.  It follows Go on what the
    scripts evaluated below use and is narrower elsewhere:
    - numbers are decimal literals, [[+-]digits[.digits][(e|E)[+-]digits]],
      of at most 15 digits and a decimal exponent within 22, where one
      correctly rounded float operation gives the correctly rounded value;
    - [%v] prints an integral [float64] below [10^6] with its digits;
    - a regular expression is a literal text; no body is JSON; every URL
      parses;
    - a line is tokenized with the token patterns of [setupGrammar] and
      reduced by its rules for requests, [set]/[var], [extract], [print],
      [break], [continue], [assert status], [assert response contains],
      [log], [reset] and [base url]. *)
Module Ref.

Definition is_digit (c : ascii) : bool :=
  let n := nat_of_ascii c in ((48 <=? n) && (n <=? 57))%nat.

Definition is_letter (c : ascii) : bool :=
  let n := nat_of_ascii c in
  (((65 <=? n) && (n <=? 90)) || ((97 <=? n) && (n <=? 122)) || (n =? 95))%nat.

Fixpoint span (f : ascii -> bool) (s : string) : string * string :=
  match s with
  | EmptyString => (EmptyString, EmptyString)
  | String c s' =>
      if f c then let '(p, r) := span f s' in (String c p, r) else (EmptyString, s)
  end.

Definition digits_value (s : string) : Z :=
  fold_left (fun acc c => acc * 10 + (Z.of_nat (nat_of_ascii c) - 48))
            (list_ascii_of_string s) 0.

Definition sign_of (s : string) : bool * string :=
  match s with
  | String c r =>
      if Ascii.eqb c "-"%char then (true, r)
      else if Ascii.eqb c "+"%char then (false, r)
      else (false, s)
  | _ => (false, s)
  end.

Definition is_exp (c : ascii) : bool := Ascii.eqb c "e"%char || Ascii.eqb c "E"%char.

Definition ParseFloat (s : string) : option float :=
  let '(neg, s1) := sign_of s in
  let '(ip, s2) := span is_digit s1 in
  let '(fp, s3) :=
    match s2 with
    | String c r => if Ascii.eqb c "."%char then span is_digit r else (EmptyString, s2)
    | _ => (EmptyString, s2)
    end in
  let exponent : option Z :=
    match s3 with
    | EmptyString => Some 0
    | String c r =>
        if is_exp c then
          let '(eneg, r1) := sign_of r in
          let '(ed, r2) := span is_digit r1 in
          if String.eqb ed "" || negb (String.eqb r2 "") then None
          else Some (if eneg then - digits_value ed else digits_value ed)
        else None
    end in
  let mantissa := (ip +:+ fp)%string in
  match exponent with
  | None => None
  | Some e =>
      let exp10 := e - Z.of_nat (strings.len fp) in
      if String.eqb mantissa "" || (15 <? strings.len mantissa)%nat
         || (exp10 <? -22) || (22 <? exp10)
      then None
      else
        let m := float64_of_int (digits_value mantissa) in
        let v := if 0 <=? exp10 then (m * float64_of_int (10 ^ exp10))%float
                 else (m / float64_of_int (10 ^ (- exp10)))%float in
        Some (if neg then (- v)%float else v)
  end.

Definition max_int : Z := 2 ^ 63 - 1.
Definition min_int : Z := - 2 ^ 63.

Definition Atoi (s : string) : Z * bool :=
  let '(neg, s1) := sign_of s in
  if String.eqb s1 "" || negb (forallb is_digit (list_ascii_of_string s1)) then (0, false)
  else
    let v := if neg then - digits_value s1 else digits_value s1 in
    if v <? min_int then (min_int, false)
    else if max_int <? v then (max_int, false)
    else (v, true).

Definition is_blank (c : ascii) : bool :=
  let n := nat_of_ascii c in ((n =? 32) || (n =? 9) || (n =? 13))%nat.

(** The text [fmt]'s scanner hands to [ParseFloat] for [%f]: white space
    is skipped, then the longest text of the shape of a number is taken
    and the rest of the input is left unread. *)
Definition floatToken (s : string) : string :=
  let '(neg, s1) := sign_of s in
  let sign := strings.take (strings.len s - strings.len s1) s in
  let '(ip, s2) := span is_digit s1 in
  let '(fp, s3) :=
    match s2 with
    | String c r =>
        if Ascii.eqb c "."%char then let '(d, r') := span is_digit r in ("." +:+ d, r')
        else (EmptyString, s2)
    | _ => (EmptyString, s2)
    end in
  let ep :=
    match s3 with
    | String c r =>
        if is_exp c then
          let '(_, r1) := sign_of r in
          let esign := strings.take (strings.len r - strings.len r1) r in
          let '(ed, _) := span is_digit r1 in
          String c esign +:+ ed
        else EmptyString
    | _ => EmptyString
    end in
  sign +:+ ip +:+ fp +:+ ep.

Definition Sscanf_f (s : string) : option float :=
  ParseFloat (floatToken (strings.trimLeftFunc is_blank s)).

Definition Sscanf_d (s : string) : option Z :=
  let s0 := strings.trimLeftFunc is_blank s in
  let '(neg, s1) := sign_of s0 in
  let '(ds, _) := span (fun c => is_digit c || Ascii.eqb c "_"%char) s1 in
  if String.eqb ds "" || negb (forallb is_digit (list_ascii_of_string ds)) then None
  else
    let v := if neg then - digits_value ds else digits_value ds in
    if (v <? min_int) || (max_int <? v) then None else Some v.

(** Outside the integral values below [10^6] the text is a marker that
    is not a number. *)
Definition FormatFloat (x : float) : string :=
  let n := int_of_float64 x in
  if PrimFloat.eqb (float64_of_int n) x && (Z.abs n <? 10 ^ 6)
  then match Prim2SF x with
       | S754_zero true => "-0"
       | _ => itoa n
       end
  else "float64(?)".

Definition FindStringSubmatch (pattern s : string) : list string :=
  if strings.Contains s pattern then [pattern] else [].

(** *** The tokenizer: the value patterns of [setupGrammar] *)

Inductive Token : Type :=
| TString (lexeme : string)
| TNumber (lexeme : string)
| TVariable (lexeme : string)
| TURL (lexeme : string)
| TWord (lexeme : string)
| TSymbol (lexeme : string).

Definition is_ident (c : ascii) : bool := is_letter c || is_digit c.

(** The rest of a STRING after its opening quote: the text up to the
    closing quote, a backslash taking the next byte with it. *)
Fixpoint scan_string (escaped : bool) (s : string) : option (string * string) :=
  match s with
  | EmptyString => None
  | String c r =>
      let keep escaped' :=
        match scan_string escaped' r with
        | Some (body, rest) => Some (String c body, rest)
        | None => None
        end in
      if escaped then keep false
      else if Ascii.eqb c (ascii_of_nat 34) then Some (EmptyString, r)
      else if Ascii.eqb c (ascii_of_nat 92) then keep true
      else keep false
  end.

Fixpoint lex (fuel : nat) (s : string) : option (list Token) :=
  match fuel with
  | O => None
  | S fuel' =>
      let push (t : Token) (rest : string) :=
        match lex fuel' rest with
        | Some ts => Some (t :: ts)
        | None => None
        end in
      match strings.trimLeftFunc strings.isSpace s with
      | EmptyString => Some []
      | String c r as s0 =>
          if Ascii.eqb c (ascii_of_nat 34) then
            match scan_string false r with
            | Some (body, rest) => push (TString (quoted body)) rest
            | None => None
            end
          else if Ascii.eqb c "$"%char then
            let '(name, rest) := span is_ident r in
            match name with
            | String c0 _ => if is_letter c0 then push (TVariable ("$" +:+ name)) rest else None
            | EmptyString => None
            end
          else if is_digit c then
            let '(ip, r1) := span is_digit s0 in
            match r1 with
            | String d r2 =>
                let '(fp, r3) := span is_digit r2 in
                if Ascii.eqb d "."%char && negb (String.eqb fp "")
                then push (TNumber (ip +:+ "." +:+ fp)) r3
                else push (TNumber ip) r1
            | EmptyString => push (TNumber ip) r1
            end
          else if is_letter c then
            let '(w, rest) := span is_ident s0 in
            if (String.eqb w "http" || String.eqb w "https") && strings.HasPrefix rest "://"
            then let '(u, rest') := span (fun c => negb (strings.isSpace c)) s0 in
                 push (TURL u) rest'
            else push (TWord w) rest
          else if strings.inCutset "+-*/" c then push (TSymbol (String c EmptyString)) r
          else None
      end
  end.

(** *** The reductions: the rules of [setupGrammar] *)

Definition parse_value (t : Token) : option ValueTok :=
  match t with
  | TString l => Some (TokString l)
  | TNumber l => Some (TokNumber l)
  | TVariable l => Some (TokVariable l)
  | _ => None
  end.

(** [expression := expression ARITHMETIC term | term], left recursive. *)
Fixpoint parse_arith (e : Expr) (ts : list Token) : option Expr :=
  match ts with
  | [] => Some e
  | TSymbol op :: t :: rest =>
      match parse_value t with
      | Some v => parse_arith (EArith e op v) rest
      | None => None
      end
  | _ => None
  end.

Definition parse_url (t : Token) : option UrlValue :=
  match t with
  | TString l => Some (UrlString l)
  | TURL l => Some (UrlDirect l)
  | TVariable l => Some (UrlVariable l)
  | _ => None
  end.

(** [option_list := option | option_list option] *)
Fixpoint parse_options (fuel : nat) (ts : list Token) : option (list ReqOption) :=
  match fuel with
  | O => None
  | S fuel' =>
      let more (o : ReqOption) (rest : list Token) :=
        match parse_options fuel' rest with
        | Some os => Some (o :: os)
        | None => None
        end in
      match ts with
      | [] => Some []
      | TWord w :: TString a :: rest =>
          if String.eqb w "header" then
            match rest with
            | TString b :: rest' => more (OptHeader a b) rest'
            | _ => None
            end
          else if String.eqb w "body" then more (OptBody a) rest
          else if String.eqb w "json" then more (OptJsonString a) rest
          else None
      | TWord w :: TWord k :: TString a :: rest =>
          if String.eqb w "auth" && String.eqb k "bearer" then more (OptAuthBearer a) rest
          else if String.eqb w "auth" && String.eqb k "basic" then
            match rest with
            | TString b :: rest' => more (OptAuthBasic a b) rest'
            | _ => None
            end
          else None
      | TWord w :: TNumber n :: TWord u :: rest =>
          if String.eqb w "timeout" && (String.eqb u "ms" || String.eqb u "s")
          then more (OptTimeout n u) rest
          else None
      | _ => None
      end
  end.

Definition is_method (w : string) : bool :=
  existsb (String.eqb w)
          ["GET"; "POST"; "PUT"; "DELETE"; "PATCH"; "HEAD"; "OPTIONS"; "CONNECT"; "TRACE"].

Definition is_extract_type (w : string) : bool :=
  existsb (String.eqb w) ["jsonpath"; "xpath"; "regex"; "header"; "status"].

Definition parse_statement (ts : list Token) : option Stmt :=
  match ts with
  | [TWord w] =>
      if String.eqb w "break" then Some SBreak
      else if String.eqb w "continue" then Some SContinue
      else if String.eqb w "reset" then Some SReset
      else None
  | TWord w :: t :: rest =>
      if is_method w then
        match parse_url t, parse_options (S (length rest)) rest with
        | Some u, Some os => Some (SHttp w u os)
        | _, _ => None
        end
      else if String.eqb w "set" || String.eqb w "var" then
        match t, rest with
        | TVariable v, t1 :: more =>
            match parse_value t1 with
            | Some v1 =>
                match parse_arith (ETerm v1) more with
                | Some e => Some (SSet v e)
                | None => None
                end
            | None => None
            end
        | _, _ => None
        end
      else if String.eqb w "print" then
        match t, rest with
        | TVariable v, [] => Some (SPrintVariable v)
        | TString l, [] => Some (SPrintString l)
        | _, _ => None
        end
      else if String.eqb w "extract" then
        match t, rest with
        | TWord k, [TString p; TWord a; TVariable v] =>
            if is_extract_type k && String.eqb a "as" then Some (SExtract k p v) else None
        | TWord k, [TWord a; TVariable v] =>
            if is_extract_type k && String.eqb a "as" then Some (SExtractNoPattern k v) else None
        | _, _ => None
        end
      else if String.eqb w "assert" || String.eqb w "expect" then
        match t, rest with
        | TWord k, [TNumber n] => if String.eqb k "status" then Some (SAssertStatus n) else None
        | TWord k, [TWord c; TString l] =>
            if String.eqb k "response" && String.eqb c "contains"
            then Some (SAssertContains l) else None
        | _, _ => None
        end
      else if String.eqb w "log" then
        match t, rest with
        | TString l, [] => Some (SLog l)
        | _, _ => None
        end
      else if String.eqb w "base" then
        match t, rest with
        | TWord k, [TString l] => if String.eqb k "url" then Some (SBaseURL l) else None
        | _, _ => None
        end
      else None
  | _ => None
  end.

Definition Parse (input : string) : ParseResult :=
  match lex (S (strings.len input)) input with
  | Some ts =>
      match parse_statement ts with
      | Some s => Parsed s
      | None => ParseError "no rule matches the input"
      end
  | None => ParseError "unexpected character"
  end.

Definition range (reversed : bool) (m : gmap string Value) : list (string * Value) :=
  if reversed then rev (map_to_list m) else map_to_list m.

Lemma range_perm (reversed : bool) (m : gmap string Value) :
  Permutation (range reversed m) (map_to_list m).
Proof.
  destruct reversed; simpl.
  - symmetry. apply Permutation_rev.
  - reflexivity.
Qed.

(** The runtime; [reversed] picks one of two orders of visit for maps. *)
Definition env (reversed : bool) : GoEnv :=
  {| strconv_ParseFloat := ParseFloat;
     strconv_ParseFloat_err := fun _ => 0%float;
     strconv_Atoi := Atoi;
     fmt_Sscanf_f := Sscanf_f;
     fmt_Sscanf_d := Sscanf_d;
     fmt_FormatFloat := FormatFloat;
     json_Unmarshal := fun _ => None;
     json_Marshal := fun _ => None;
     regexp_Compile := fun _ => true;
     regexp_FindStringSubmatch := FindStringSubmatch;
     url_Parse := fun u => Some u;
     url_Parse_err := fun _ => "";
     map_range := range reversed;
     map_range_perm := range_perm reversed;
     dsl_Parse := Parse |}.

(** The same runtime with one JSON document: the text [doc] unmarshals to
    [data], and no other body is JSON. *)
Definition env_json (doc : string) (data : Value) : GoEnv :=
  {| strconv_ParseFloat := ParseFloat;
     strconv_ParseFloat_err := fun _ => 0%float;
     strconv_Atoi := Atoi;
     fmt_Sscanf_f := Sscanf_f;
     fmt_Sscanf_d := Sscanf_d;
     fmt_FormatFloat := FormatFloat;
     json_Unmarshal := fun body => if String.eqb body doc then Some data else None;
     json_Marshal := fun _ => None;
     regexp_Compile := fun _ => true;
     regexp_FindStringSubmatch := FindStringSubmatch;
     url_Parse := fun u => Some u;
     url_Parse_err := fun _ => "";
     map_range := range false;
     map_range_perm := range_perm false;
     dsl_Parse := Parse |}.
End Ref.

Definition run (reversed : bool) (fuel : nat) (code : list string) (hd : HTTPDSLv3)
  : Outcome (list Value) * HTTPDSLv3 :=
  ParseWithBlockSupport (E := Ref.env reversed) fuel (strings.Join code newline) hd.


(* ===================================================================== *)
(** ** The engine's history and its retry policy *)
(* ===================================================================== *)

(** [RequestHistory] (http_engine.go, lines 41-48), with the request and
    the response by what identifies them here; durations and times are
    nanoseconds. *)
Record RequestHistory : Type := mkRequestHistory {
  h_Request : string * string;
  h_Response : Z;
  h_RequestBody : string;
  h_ResponseBody : string;
  h_Duration : Z;
  h_Timestamp : Z
}.

(** The two fields of [HTTPEngine] that the history functions read and
    write. *)
Record HistoryState : Type := mkHistoryState {
  history : list RequestHistory;
  maxHistory : Z
}.

(** As [NewHTTPEngine] sets them (lines 127-128). *)
Definition new_history : HistoryState := {| history := []; maxHistory := 100 |}.

(** [addToHistory]: lines 1139-1159; [h[len(h)-max:]] keeps the last
    [max] entries. *)
Definition addToHistory (req : string * string) (resp : Z) (reqBody respBody : string)
           (duration now : Z) (st : HistoryState) : HistoryState :=
  if maxHistory st <=? 0 then st
  else
    let entry := {| h_Request := req; h_Response := resp; h_RequestBody := reqBody;
                    h_ResponseBody := respBody; h_Duration := duration;
                    h_Timestamp := now |} in
    let h := (history st ++ [entry])%list in
    let h := if maxHistory st <? Z.of_nat (length h)
             then skipn (Z.to_nat (Z.of_nat (length h) - maxHistory st)) h
             else h in
    {| history := h; maxHistory := maxHistory st |}.

(** [SetMaxHistory], [ClearHistory], [GetHistory]: lines 1124-1137. *)
Definition SetMaxHistory (max : Z) (st : HistoryState) : HistoryState :=
  {| history := history st; maxHistory := max |}.

Definition ClearHistory (st : HistoryState) : HistoryState :=
  {| history := []; maxHistory := maxHistory st |}.

Definition GetHistory (st : HistoryState) : list RequestHistory := history st.

(** [RetryPolicy] (lines 50-57); the backoffs are nanoseconds. *)
Record RetryPolicy : Type := mkRetryPolicy {
  MaxRetries : Z;
  InitialBackoff : Z;
  MaxBackoff : Z;
  Multiplier : float;
  RetryOn : list Z
}.

Section Retry.
Context {E : GoEnv}.

(** The loop of [RequestWithRetry] (lines 1061-1095) from [attempt] on,
    with [left] passes to go ([MaxRetries - attempt + 1] of them: the
    counter of the Go loop does not wrap for a [MaxRetries] below the
    largest [int]); [slept] lists the pauses made so far.  The result is
    the call's result, the engine and the pauses. *)
Fixpoint retry_loop (policy : RetryPolicy) (method urlStr : string)
         (options : option RequestOptions) (left : nat) (attempt backoff : Z)
         (lastErr : option string) (slept : list Z) (he : HTTPEngine)
  : Outcome Value * HTTPEngine * list Z :=
  match left with
  | O =>
      (Err ("max retries exceeded: "
              +:+ match lastErr with Some e => e | None => "<nil>" end), he, slept)
  | S left' =>
      let slept := if 0 <? attempt then (slept ++ [backoff])%list else slept in
      let backoff :=
        if 0 <? attempt then
          let next := int_of_float64 (float64_of_int backoff * Multiplier policy)%float in
          if MaxBackoff policy <? next then MaxBackoff policy else next
        else backoff in
      match Request method urlStr options he with
      | (Ok result, he') =>
          let shouldRetry :=
            match result with
            | VMap response =>
                match map_index response "status" with
                | Some (VInt status) => Some (existsb (Z.eqb status) (RetryOn policy))
                | _ => None
                end
            | _ => None
            end in
          match shouldRetry with
          | Some false => (Ok result, he', slept)
          | _ => retry_loop policy method urlStr options left' (attempt + 1) backoff None
                            slept he'
          end
      | (Err e, he') =>
          retry_loop policy method urlStr options left' (attempt + 1) backoff (Some e)
                     slept he'
      | (other, he') => (other, he', slept)
      end
  end.

(** [RequestWithRetry]: lines 1053-1098; [policy] is [he.retryPolicy]. *)
Definition RequestWithRetry (policy : option RetryPolicy) (method urlStr : string)
           (options : option RequestOptions) (he : HTTPEngine)
  : Outcome Value * HTTPEngine * list Z :=
  match policy with
  | None => let '(r, he') := Request method urlStr options he in (r, he', [])
  | Some p =>
      retry_loop p method urlStr options (Z.to_nat (MaxRetries p + 1)) 0
                 (InitialBackoff p) None [] he
  end.
End Retry.

(* ===================================================================== *)
(** ** Unfolding equations and general facts *)
(* ===================================================================== *)

Section Equations.
Context {E : GoEnv}.

Lemma ParseWithBlockSupport_S (fuel : nat) (code : string) :
  ParseWithBlockSupport (S fuel) code = parse_lines fuel (strings.Split code newline) 0 [].
Proof. reflexivity. Qed.

(** A body that starts with [continue] ends at once, with the signal set
    and the interpreter untouched. *)
Lemma ProcessLoopBody_continue (fuel : nat) (rest : list string) (hd : HTTPDSLv3) :
  ProcessLoopBody (S (S fuel)) ("continue" :: rest) hd
  = (Ok (mkLoopResult [] false true), hd).
Proof. reflexivity. Qed.

Lemma parse_lines_S (fuel : nat) :
  parse_lines (S fuel)
  = parse_lines_step (ParseWithBlockSupport fuel) (parse_lines fuel) (repeat_loop fuel)
                     (while_loop fuel) (foreach_loop fuel).
Proof. reflexivity. Qed.

Lemma while_loop_S (fuel : nat) :
  while_loop (S fuel) = while_loop_step (ProcessLoopBody fuel) (while_loop fuel).
Proof. reflexivity. Qed.

(** A map with no entry is walked in no step, whatever the runtime. *)
Lemma map_range_empty : map_range (∅ : gmap string Value) = [].
Proof.
  apply Permutation_nil. symmetry.
  rewrite <- (map_to_list_empty (M := gmap string) (A := Value)).
  apply map_range_perm.
Qed.
End Equations.


(* ===================================================================== *)
(** ** Truthiness: [toBool], a lone variable as a condition *)
(* ===================================================================== *)

Section Truthiness.
Context {E : GoEnv}.

(** [toBool] is what the grammar's [if], [and], [or], [not] and [while]
    apply to the result of a condition action, which is a [bool]: it
    returns that [bool].  On the other values the claim lists it answers
    false; a [float64] or an [int64] is true whatever its value. *)
Lemma toBool_false_cases :
  toBool VNil = false /\ toBool (VBool false) = false /\ toBool (VInt 0) = false
  /\ toBool (VString "") = false /\ toBool (VString "false") = false
  /\ toBool (VString "0") = false.
Proof. repeat split. Qed.

Lemma toBool_of_a_condition (b : bool) : toBool (VBool b) = b.
Proof. reflexivity. Qed.

Lemma toBool_of_a_float (f : float) (n : Z) :
  toBool (VFloat f) = true /\ toBool (VInt64 n) = true.
Proof. split; reflexivity. Qed.

(** The condition code written out for the single-line [if] and for
    [while] has no case for a condition of one word: it answers false,
    whatever the variable holds. *)
Lemma inline_condition_lone_word (conditionStr word : string) (hd : HTTPDSLv3) :
  strings.Fields conditionStr = [word] -> inline_condition conditionStr hd = false.
Proof. intros Hf. unfold inline_condition. rewrite Hf. reflexivity. Qed.

(** The block [if] on a lone variable, through [EvaluateSimpleCondition]:
    false exactly when the variable is not defined or holds [nil], [false],
    an [int] or [float64] zero, [""], ["0"] or ["false"]. *)
Lemma block_condition_lone_variable (conditionStr word : string) (hd : HTTPDSLv3) :
  strings.Fields conditionStr = [word] ->
  EvaluateSimpleCondition conditionStr hd = false
  <-> match variables hd !! strings.TrimPrefix word "$" with
      | None => True
      | Some value =>
          value = VNil \/ value = VBool false \/ value = VInt 0
          \/ (exists f, value = VFloat f /\ PrimFloat.eqb f 0%float = true)
          \/ value = VString "" \/ value = VString "0" \/ value = VString "false"
      end.
Proof.
  intros Hf. unfold EvaluateSimpleCondition. rewrite Hf. cbv zeta.
  destruct (variables hd !! strings.TrimPrefix word "$") as [[| b | i | i | f | v | v | m] |];
    cbn [is_nil negb].
  - tauto.
  - destruct b; split; try tauto; try discriminate.
    intros H. repeat (destruct H as [H | H]; try discriminate). destruct H as (f & H & _). discriminate.
  - destruct (Z.eqb_spec i 0) as [-> | Hne]; cbn [negb]; split; try tauto; try discriminate.
    intros H. repeat (destruct H as [H | H]; try discriminate); [congruence |].
    destruct H as (f & H & _). discriminate.
  - split; [discriminate |].
    intros H. repeat (destruct H as [H | H]; try discriminate). destruct H as (f & H & _). discriminate.
  - destruct (PrimFloat.eqb f 0) eqn:Hz; cbn [negb]; split; try discriminate.
    + intros _. right. right. right. left. eauto.
    + tauto.
    + intros H. repeat (destruct H as [H | H]; try discriminate).
      destruct H as (f' & H & Hz'). inversion H; subst. congruence.
  - destruct (String.eqb_spec v "") as [-> | H1]; [cbn; tauto |].
    destruct (String.eqb_spec v "0") as [-> | H2]; [cbn; tauto |].
    destruct (String.eqb_spec v "false") as [-> | H3]; [cbn; tauto |].
    cbn [negb andb]. split; [discriminate |].
    intros H. repeat (destruct H as [H | H]; try discriminate); try congruence.
    destruct H as (f & H & _). discriminate.
  - split; [discriminate |].
    intros H. repeat (destruct H as [H | H]; try discriminate). destruct H as (f & H & _). discriminate.
  - split; [discriminate |].
    intros H. repeat (destruct H as [H | H]; try discriminate). destruct H as (f & H & _). discriminate.
  - tauto.
Qed.
End Truthiness.

(** A variable that holds the text [yes], used alone as the condition of a
    single-line [if] and then of a block [if]. *)
Definition lone_variable_script : list string :=
  ["set $x " +:+ quoted "yes";
   "if $x then set $a " +:+ quoted "Y" +:+ " else set $a " +:+ quoted "N";
   "if $x then";
   "set $b " +:+ quoted "Y";
   "else";
   "set $b " +:+ quoted "N";
   "endif"].

(** C8 (as the code has it): the text [yes] is none of the values the
    claim lists as false, and the block [if] reads it as true and runs its
    then-branch ([$b] is ["Y"]); the single-line [if] on the same variable
    reads it as false and runs its else-branch ([$a] is ["N"]), since its
    condition code has no case for a lone value. *)
Theorem lone_variable_takes_else (reversed : bool) :
  let r := run reversed 12 lone_variable_script (NewHTTPDSLv3 []) in
  (exists results, fst r = Ok results)
  /\ variables (snd r) !! "x" = Some (VString "yes")
  /\ variables (snd r) !! "a" = Some (VString "N")
  /\ variables (snd r) !! "b" = Some (VString "Y")
  /\ inline_condition (E := Ref.env reversed) "$x" (snd r) = false
  /\ EvaluateCondition (E := Ref.env reversed) "$x" (snd r) = true
  /\ toBool (VString "yes") = true.
Proof.
  destruct reversed; vm_compute; (split; [eexists; reflexivity |]); repeat split.
Qed.

(* ===================================================================== *)
(** ** Variable expansion ([expandVariables]) *)
(* ===================================================================== *)

Section Expansion.
Context {E : GoEnv}.

(** A text that does not hold [old] is left as it is by [ReplaceAll]. *)
Lemma ReplaceAll_absent (s old new : string) :
  strings.Contains s old = false -> strings.ReplaceAll s old new = s.
Proof.
  unfold strings.Contains, strings.ReplaceAll. intros Hc.
  destruct old as [| c old'].
  - destruct s; discriminate.
  - cbn [String.eqb]. destruct (strings.len s) as [| k]; [reflexivity |].
    cbn [strings.cut].
    destruct (strings.index_from s (String c old') 0); [discriminate | reflexivity].
Qed.

Lemma expand_in_order_absent (order : list (string * Value)) (s : string) :
  Forall (fun kv => strings.Contains s ("$" +:+ fst kv) = false) order ->
  expand_in_order order s = s.
Proof.
  unfold expand_in_order. induction 1 as [| [name value] order Hx _ IH]; [reflexivity |].
  cbn [fold_left fst] in *. rewrite (ReplaceAll_absent _ _ _ Hx). exact IH.
Qed.

(** C6 (as the code has it): [expandVariables] replaces the placeholders
    of the variables that are defined and nothing else.  A text in which
    no defined variable occurs is returned as it is, whatever [$name] it
    holds: the [$name] of a variable that is not defined is left in the
    text, it is not replaced by the empty string, and [print] returns it. *)
Theorem expandVariables_keeps_undefined (s lexeme : string) (hd : HTTPDSLv3) :
  (forall name value,
      variables hd !! name = Some value -> strings.Contains s ("$" +:+ name) = false) ->
  unquoteString lexeme = s ->
  expandVariables s hd = s
  /\ exec (SPrintString lexeme) hd = (Ok (VString s), hd).
Proof.
  intros Hv Hq.
  assert (Hx : expandVariables s hd = s).
  { unfold expandVariables. apply expand_in_order_absent.
    apply Forall_forall. intros [name value] Hin. cbn [fst].
    apply (Hv name value).
    apply elem_of_map_to_list. rewrite <- (map_range_perm (variables hd)). exact Hin. }
  split; [exact Hx |].
  unfold exec, bind, get, ret. rewrite Hq, Hx. reflexivity.
Qed.
End Expansion.

Lemma expandVariables_keeps_undefined_witness :
  let hd := SetVariable "x" (VString "1") (NewHTTPDSLv3 []) in
  expandVariables (E := Ref.env false) "Value: $undefined" hd = "Value: $undefined"
  /\ exec (E := Ref.env false) (SPrintString (quoted "Value: $undefined")) hd
     = (Ok (VString "Value: $undefined"), hd).
Proof.
  apply (expandVariables_keeps_undefined (E := Ref.env false));
    [| vm_compute; reflexivity].
  intros name value Hl. destruct (String.eqb name "x") eqn:Hn.
  - apply String.eqb_eq in Hn. subst name. vm_compute. reflexivity.
  - apply String.eqb_neq in Hn. unfold SetVariable, NewHTTPDSLv3 in Hl. cbn [variables] in Hl.
    rewrite lookup_insert_ne in Hl by congruence. rewrite lookup_empty in Hl. discriminate.
Defined.

(** The same through the block-aware entry point, on the reference runtime:
    the script of the test case [Undefined variable]. *)
Example print_undefined_run :
  fst (run false 3 ["print " +:+ quoted "Value: $undefined"] (NewHTTPDSLv3 []))
  = Ok [VString "Value: $undefined"].
Proof. vm_compute. reflexivity. Qed.

Definition prefix_script : list string :=
  ["set $a " +:+ quoted "1"; "set $ab " +:+ quoted "2"; "set $r " +:+ quoted "$ab"].

(** C9 (as the code has it): the same script, run twice from the same new
    interpreter with no HTTP traffic, binds [r] to ["2"] when the runtime
    walks the variables in one order and to ["1b"] when it walks them in
    the other: [$a] is a prefix of [$ab]. *)
Theorem expansion_depends_on_map_order :
  variables (snd (run false 5 prefix_script (NewHTTPDSLv3 []))) !! "r" = Some (VString "2")
  /\ variables (snd (run true 5 prefix_script (NewHTTPDSLv3 []))) !! "r" = Some (VString "1b")
  /\ fst (run false 5 prefix_script (NewHTTPDSLv3 []))
     <> fst (run true 5 prefix_script (NewHTTPDSLv3 [])).
Proof.
  repeat split; try (vm_compute; reflexivity).
  vm_compute. discriminate.
Qed.

(** A value that holds a [$name] is expanded again or not, by the order. *)
Example expansion_of_values_depends_on_map_order :
  let hd := SetVariable "a" (VString "$b") (SetVariable "b" (VString "x") (NewHTTPDSLv3 [])) in
  expandVariables (E := Ref.env false) "$a" hd <> expandVariables (E := Ref.env true) "$a" hd.
Proof. vm_compute. discriminate. Qed.

(* ===================================================================== *)
(** ** Comparisons ([Compare], [CompareValues]) *)
(* ===================================================================== *)

Definition is_comparison (op : string) : bool :=
  existsb (String.eqb op) ["=="; "!="; ">"; ">="; "<"; "<="].

Section Comparisons.
Context {E : GoEnv}.

(** The rule of the specification, in its words: numeric when both
    stringified sides parse as floating-point numbers, lexicographic on the
    stringified forms otherwise. *)
Definition compare_rule (left : Value) (op : string) (right : Value) : bool :=
  match strconv_ParseFloat (Sprint left), strconv_ParseFloat (Sprint right) with
  | Some l, Some r =>
      if String.eqb op "==" then PrimFloat.eqb l r
      else if String.eqb op "!=" then negb (PrimFloat.eqb l r)
      else if String.eqb op ">" then PrimFloat.ltb r l
      else if String.eqb op ">=" then PrimFloat.leb r l
      else if String.eqb op "<" then PrimFloat.ltb l r
      else PrimFloat.leb l r
  | _, _ =>
      if String.eqb op "==" then String.eqb (Sprint left) (Sprint right)
      else if String.eqb op "!=" then negb (String.eqb (Sprint left) (Sprint right))
      else if String.eqb op ">" then String.ltb (Sprint right) (Sprint left)
      else if String.eqb op ">=" then String.leb (Sprint right) (Sprint left)
      else if String.eqb op "<" then String.ltb (Sprint left) (Sprint right)
      else String.leb (Sprint left) (Sprint right)
  end.

(** The engine's [Compare], used by the grammar's [comparison] action,
    follows the rule on every pair of values. *)
Lemma Compare_follows_rule (left right : Value) (op : string) :
  is_comparison op = true -> Compare left op right = compare_rule left op right.
Proof.
  unfold is_comparison, Compare, compare_rule. cbn [existsb]. intros Hop.
  destruct (strconv_ParseFloat (Sprint left)) as [l |],
           (strconv_ParseFloat (Sprint right)) as [r |];
    destruct (String.eqb op "=="), (String.eqb op "!="), (String.eqb op ">"),
             (String.eqb op ">="), (String.eqb op "<"), (String.eqb op "<=");
    try reflexivity; discriminate.
Qed.

(** C7 (as the code has it): [CompareValues], the comparison of the block
    preprocessor, takes a string for a number as soon as [fmt.Sscanf] reads
    a number at its head.  ["3abc"] does not parse as a number, yet
    [$x == 3] holds for it in a block [if], and fails for it in the
    grammar. *)
Theorem CompareValues_reads_numeric_prefix (three : float) :
  fmt_Sscanf_f "3abc" = Some three ->
  fmt_Sscanf_f "3" = Some three ->
  PrimFloat.eqb three three = true ->
  strconv_ParseFloat "3abc" = None ->
  CompareValues (VString "3abc") "==" (VString "3") = true
  /\ compare_rule (VString "3abc") "==" (VString "3") = false
  /\ Compare (VString "3abc") "==" (VString "3") = false.
Proof.
  intros Hl Hr Heq Hp. repeat split.
  - unfold CompareValues, as_number. rewrite Hl, Hr. unfold numeric_compare.
    change (String.eqb "==" ">") with false. change (String.eqb "==" "<") with false.
    change (String.eqb "==" ">=") with false. change (String.eqb "==" "<=") with false.
    change (String.eqb "==" "==") with true. cbv iota. exact Heq.
  - unfold compare_rule. cbn [Sprint]. rewrite Hp. reflexivity.
  - unfold Compare. cbn [Sprint]. rewrite Hp. reflexivity.
Qed.
End Comparisons.

Lemma CompareValues_reads_numeric_prefix_witness :
  CompareValues (E := Ref.env false) (VString "3abc") "==" (VString "3") = true
  /\ compare_rule (E := Ref.env false) (VString "3abc") "==" (VString "3") = false
  /\ Compare (E := Ref.env false) (VString "3abc") "==" (VString "3") = false.
Proof.
  apply (CompareValues_reads_numeric_prefix (E := Ref.env false) 3%float);
    vm_compute; reflexivity.
Defined.

Definition numeric_prefix_script : list string :=
  ["set $x " +:+ quoted "3abc";
   "if $x == 3 then";
   "set $r " +:+ quoted "numeric";
   "else";
   "set $r " +:+ quoted "text";
   "endif"].

(** The same through a script: the block [if] takes the then-branch. *)
Example numeric_prefix_run :
  variables (snd (run false 10 numeric_prefix_script (NewHTTPDSLv3 []))) !! "r"
  = Some (VString "numeric").
Proof. vm_compute. reflexivity. Qed.

(* ===================================================================== *)
(** ** Extraction ([extract ... as $var]) *)
(* ===================================================================== *)

Section Extraction.
Context {E : GoEnv}.

Definition no_response_warning (variable : string) : Value :=
  VString ("Warning: No response available for extraction. Variable $"
             +:+ strings.TrimPrefix variable "$" +:+ " set to empty.").

Lemma extractVariable_no_response (extractType pattern variable message : string)
      (hd : HTTPDSLv3) :
  GetLastResponse (engine hd) = "" ->
  extractVariable extractType pattern variable message hd
  = (Ok (no_response_warning variable),
     SetVariable (strings.TrimPrefix variable "$") (VString "") hd).
Proof.
  intros Hb. unfold extractVariable, bind, get, modify, ret.
  rewrite Hb. reflexivity.
Qed.

(** A new interpreter holds no response, and it takes a request that was
    answered and read to store one: the body is empty as long as nothing
    went to the transport. *)
Definition nothing_sent_nothing_stored (hd : HTTPDSLv3) : Prop :=
  sent (engine hd) = [] -> GetLastResponse (engine hd) = "".

Lemma new_interpreter_nothing_stored (transport : list RoundTrip) :
  nothing_sent_nothing_stored (NewHTTPDSLv3 transport).
Proof. intros _. reflexivity. Qed.

Lemma Request_nothing_stored (method urlStr : string) (options : option RequestOptions)
      (he : HTTPEngine) :
  (sent he = [] -> lastResponseBody he = "") ->
  sent (snd (Request method urlStr options he)) = [] ->
  lastResponseBody (snd (Request method urlStr options he)) = "".
Proof.
  unfold Request. intros Hinv.
  destruct (url_Parse _) as [parsedURL |]; [| exact Hinv].
  destruct (match client he with [] => _ | a :: _ => a end) as [err el | st h [b |] re el];
    cbn [snd sent]; intros Hs; destruct (sent he); discriminate.
Qed.

Lemma Extract_keeps_sent (extractType pattern : string) (he : HTTPEngine) :
  sent (snd (Extract extractType pattern he)) = sent he.
Proof.
  unfold Extract.
  repeat match goal with |- context [if ?b then _ else _] => destruct b end;
    try reflexivity.
  - destruct (lastResponse he); reflexivity.
  - unfold extractJSONPath.
    repeat match goal with
           | |- context [match ?x with _ => _ end] => destruct x
           end; reflexivity.
Qed.

(** [m] keeps the invariant, whatever it returns. *)
Definition keeps {A} (m : M A) : Prop :=
  forall hd, nothing_sent_nothing_stored hd -> nothing_sent_nothing_stored (snd (m hd)).

Lemma keeps_ret {A} (a : A) : keeps (ret a).
Proof. intros hd H. exact H. Qed.

Lemma keeps_fail {A} (msg : string) : keeps (fail (A := A) msg).
Proof. intros hd H. exact H. Qed.

Lemma keeps_out_of_fuel {A} : keeps (out_of_fuel (A := A)).
Proof. intros hd H. exact H. Qed.

Lemma keeps_get : keeps get.
Proof. intros hd H. exact H. Qed.

Lemma keeps_bind {A B} (m : M A) (k : A -> M B) :
  keeps m -> (forall a, keeps (k a)) -> keeps (bind m k).
Proof.
  intros Hm Hk hd H. unfold bind. specialize (Hm hd H).
  destruct (m hd) as [[a | e | e |] hd']; cbn [snd] in *; try exact Hm.
  apply Hk. exact Hm.
Qed.

Lemma keeps_wrap_err {A} (w : string -> string) (m : M A) : keeps m -> keeps (wrap_err w m).
Proof.
  intros Hm hd H. unfold wrap_err. specialize (Hm hd H).
  destruct (m hd) as [[a | e | e |] hd']; exact Hm.
Qed.

Lemma keeps_catch {A} (m : M A) : keeps m -> keeps (catch m).
Proof.
  intros Hm hd H. unfold catch. specialize (Hm hd H).
  destruct (m hd) as [[a | e | e |] hd']; exact Hm.
Qed.

Lemma keeps_modify (f : HTTPDSLv3 -> HTTPDSLv3) :
  (forall hd, engine (f hd) = engine hd) -> keeps (modify f).
Proof.
  intros Hf hd H. unfold modify, nothing_sent_nothing_stored. cbn [snd]. rewrite Hf. exact H.
Qed.

Ltac keeps_step :=
  cbv zeta;
  match goal with
  | |- keeps (bind _ _) => apply keeps_bind; [| intros ?]
  | |- keeps (ret _) => apply keeps_ret
  | |- keeps (fail _) => apply keeps_fail
  | |- keeps out_of_fuel => apply keeps_out_of_fuel
  | |- keeps get => apply keeps_get
  | |- keeps (wrap_err _ _) => apply keeps_wrap_err
  | |- keeps (catch _) => apply keeps_catch
  | |- keeps (modify (SetVariable _ _)) => apply keeps_modify; reflexivity
  | |- keeps (modify (set_context _ _)) => apply keeps_modify; reflexivity
  | H : forall _, keeps _ |- keeps _ => apply H
  | H : forall _ _, keeps _ |- keeps _ => apply H
  | H : forall _ _ _, keeps _ |- keeps _ => apply H
  | H : forall _ _ _ _, keeps _ |- keeps _ => apply H
  | H : forall _ _ _ _ _, keeps _ |- keeps _ => apply H
  | H : forall _ _ _ _ _ _, keeps _ |- keeps _ => apply H
  | |- keeps (if ?b then _ else _) => destruct b
  | |- keeps (match ?x with _ => _ end) => destruct x
  end.

Lemma keeps_eval_value (t : ValueTok) : keeps (eval_value t).
Proof. destruct t; unfold eval_value; repeat keeps_step. Qed.

Lemma keeps_array_element (varName : string) (index : Z) : keeps (array_element varName index).
Proof. unfold array_element. repeat keeps_step. Qed.

Lemma keeps_eval_expr (e : Expr) : keeps (eval_expr e).
Proof.
  induction e as [t | e IH op t | variable number | variable indexVariable | variable
                  | variable lexeme]; cbn [eval_expr].
  - apply keeps_eval_value.
  - apply keeps_bind; [exact IH | intros l].
    apply keeps_bind; [apply keeps_eval_value | intros r].
    repeat keeps_step.
  - apply keeps_array_element.
  - unfold arrayAccessVar.
    repeat first [ apply keeps_array_element | keeps_step ].
  - unfold lengthFunction. repeat keeps_step.
  - unfold splitFunction. repeat keeps_step.
Qed.

Lemma keeps_eval_url (u : UrlValue) : keeps (eval_url u).
Proof. destruct u; unfold eval_url; repeat keeps_step. Qed.

Lemma keeps_Request (method urlStr : string) (options : option RequestOptions) :
  keeps (on_engine (Request method urlStr options)).
Proof.
  intros hd H. unfold on_engine.
  destruct (Request method urlStr options (engine hd)) as [r he] eqn:Hr.
  unfold nothing_sent_nothing_stored, GetLastResponse. cbn [snd set_engine engine].
  pose proof (Request_nothing_stored method urlStr options (engine hd) H) as Hn.
  rewrite Hr in Hn. exact Hn.
Qed.

Lemma keeps_extractVariable (extractType pattern variable message : string) :
  keeps (extractVariable extractType pattern variable message).
Proof.
  intros hd H. unfold extractVariable, bind, get, modify, ret.
  destruct (String.eqb (GetLastResponse (engine hd)) "") eqn:Hb; [exact H |].
  unfold on_engine.
  pose proof (Extract_keeps_sent extractType pattern (engine hd)) as Hs.
  destruct (Extract extractType pattern (engine hd)) as [[v | e | e |] he'];
    cbn [snd] in *; unfold nothing_sent_nothing_stored; cbn [engine set_engine SetVariable];
    rewrite Hs; intros Hn; specialize (H Hn); rewrite H in Hb; discriminate.
Qed.

Lemma keeps_exec (s : Stmt) : keeps (exec s).
Proof.
  destruct s as [method url options | variable e | extractType lexeme variable
                 | extractType variable | variable | lexeme | | | number | lexeme | lexeme
                 | | lexeme]; cbn [exec];
    try apply keeps_extractVariable;
    try (repeat keeps_step; fail).
  - apply keeps_bind; [apply keeps_eval_url | intros urlStr].
    apply keeps_bind; [apply keeps_get | intros hd].
    destruct options; apply keeps_Request.
  - apply keeps_bind; [apply keeps_eval_expr | intros value]. repeat keeps_step.
  - apply keeps_bind; [| intros; apply keeps_ret].
    intros hd _ _. reflexivity.
  - repeat keeps_step. intros hd' H. exact H.
Qed.

Lemma keeps_ParseWithContext (input : string) : keeps (ParseWithContext input).
Proof.
  unfold ParseWithContext. destruct (dsl_Parse input); [apply keeps_exec | apply keeps_fail].
Qed.


Ltac keeps_block :=
  repeat first [ apply keeps_ParseWithContext | keeps_step ].

Lemma keeps_parse_lines_step parse next repeat while foreach lines i results :
  (forall code, keeps (parse code)) ->
  (forall lines i results, keeps (next lines i results)) ->
  (forall b c it a rs, keeps (repeat b c it a rs)) ->
  (forall c b it rs, keeps (while c b it rs)) ->
  (forall b v items idx a rs, keeps (foreach b v items idx a rs)) ->
  keeps (parse_lines_step parse next repeat while foreach lines i results).
Proof. intros Hp Hn Hr Hw Hf. unfold parse_lines_step. keeps_block. Qed.

Lemma keeps_repeat_loop_step body next loopBody count iteration actualIterations results :
  (forall b, keeps (body b)) ->
  (forall b c it a rs, keeps (next b c it a rs)) ->
  keeps (repeat_loop_step body next loopBody count iteration actualIterations results).
Proof. intros Hb Hn. unfold repeat_loop_step. keeps_block. Qed.

Lemma keeps_while_loop_step body next conditionStr loopBody iterations results :
  (forall b, keeps (body b)) ->
  (forall c b it rs, keeps (next c b it rs)) ->
  keeps (while_loop_step body next conditionStr loopBody iterations results).
Proof. intros Hb Hn. unfold while_loop_step. keeps_block. Qed.

Lemma keeps_foreach_loop_step body next loopBody itemVar items idx actualIterations results :
  (forall b, keeps (body b)) ->
  (forall b v items idx a rs, keeps (next b v items idx a rs)) ->
  keeps (foreach_loop_step body next loopBody itemVar items idx actualIterations results).
Proof. intros Hb Hn. unfold foreach_loop_step. keeps_block. Qed.

Lemma keeps_each_loop_line parse loopBlock loopResults :
  (forall code, keeps (parse code)) -> keeps (each_loop_line parse loopBlock loopResults).
Proof.
  intros Hp. revert loopResults.
  induction loopBlock as [| loopLine rest IH]; intros loopResults; cbn [each_loop_line].
  - apply keeps_ret.
  - apply keeps_bind; [apply Hp | intros res; apply IH].
Qed.

Lemma keeps_loop_body_step parse ifBlock next body i results :
  (forall code, keeps (parse code)) ->
  (forall block, keeps (ifBlock block)) ->
  (forall body i results, keeps (next body i results)) ->
  keeps (loop_body_step parse ifBlock next body i results).
Proof.
  intros Hp Hi Hn. unfold loop_body_step.
  repeat first [ apply keeps_ParseWithContext | apply keeps_each_loop_line; exact Hp
               | keeps_step ].
Qed.

Lemma keeps_ProcessIfBlockWithControl_step parse block :
  (forall code, keeps (parse code)) -> keeps (ProcessIfBlockWithControl_step parse block).
Proof. intros Hp. unfold ProcessIfBlockWithControl_step. keeps_block. Qed.

(** Every function of the block preprocessor keeps the invariant, at every
    fuel. *)
Lemma keeps_blocks (fuel : nat) :
  (forall code, keeps (ParseWithBlockSupport fuel code))
  /\ (forall lines i results, keeps (parse_lines fuel lines i results))
  /\ (forall b c it a rs, keeps (repeat_loop fuel b c it a rs))
  /\ (forall c b it rs, keeps (while_loop fuel c b it rs))
  /\ (forall b v items idx a rs, keeps (foreach_loop fuel b v items idx a rs))
  /\ (forall body, keeps (ProcessLoopBody fuel body))
  /\ (forall body i results, keeps (loop_body fuel body i results))
  /\ (forall block, keeps (ProcessIfBlockWithControl fuel block)).
Proof.
  induction fuel as [| fuel (Hp & Hl & Hr & Hw & Hf & Hb & Hlb & Hif)].
  - repeat split; intros; apply keeps_out_of_fuel.
  - repeat split; intros.
    + apply Hl.
    + apply keeps_parse_lines_step; assumption.
    + apply keeps_repeat_loop_step; assumption.
    + apply keeps_while_loop_step; assumption.
    + apply keeps_foreach_loop_step; assumption.
    + apply Hlb.
    + apply keeps_loop_body_step; assumption.
    + apply keeps_ProcessIfBlockWithControl_step; assumption.
Qed.

(** What [extract] leaves behind when no response is stored, read back
    from the interpreter: the variable holds the empty string, and the
    engine, the context and every other variable are as they were. *)
Lemma extractVariable_no_response_state (extractType pattern variable message : string)
      (hd : HTTPDSLv3) :
  GetLastResponse (engine hd) = "" ->
  let name := strings.TrimPrefix variable "$" in
  let r := extractVariable extractType pattern variable message hd in
  fst r = Ok (VString ("Warning: No response available for extraction. Variable $"
                         +:+ name +:+ " set to empty."))
  /\ variables (snd r) !! name = Some (VString "")
  /\ (forall other, other <> name -> variables (snd r) !! other = variables hd !! other)
  /\ engine (snd r) = engine hd
  /\ context (snd r) = context hd.
Proof.
  intros Hb name r. subst r name.
  rewrite (extractVariable_no_response _ _ _ _ _ Hb). cbn [fst snd SetVariable variables].
  split; [reflexivity |]. split; [apply lookup_insert_eq |].
  split; [| split; reflexivity].
  intros other Hne. apply lookup_insert_ne. intros Heq. apply Hne. symmetry. exact Heq.
Qed.

(** C4: in the state any script leaves a new interpreter in, whatever the
    transport and whether the script returned or failed, if no request has
    gone to the transport then [extract] of every kind, with or without a
    pattern, returns the warning (a value, not an error and not a panic),
    and the interpreter it leaves answers the empty string for the
    variable: the variable is bound to [""], and every other variable, the
    engine and the context are as they were. *)
Theorem extract_without_response
        (fuel : nat) (code : string) (transport : list RoundTrip)
        (extractType lexeme variable : string) :
  let hd := snd (ParseWithBlockSupport fuel code (NewHTTPDSLv3 transport)) in
  sent (engine hd) = [] ->
  let name := strings.TrimPrefix variable "$" in
  let warning :=
    VString ("Warning: No response available for extraction. Variable $"
               +:+ name +:+ " set to empty.") in
  forall s,
    s = SExtract extractType lexeme variable \/ s = SExtractNoPattern extractType variable ->
    exec s hd = (Ok warning, SetVariable name (VString "") hd)
    /\ fst (exec s hd) = Ok warning
    /\ variables (snd (exec s hd)) !! name = Some (VString "")
    /\ GetVariable name (snd (exec s hd)) = Some (VString "")
    /\ (forall other, other <> name ->
                      variables (snd (exec s hd)) !! other = variables hd !! other)
    /\ engine (snd (exec s hd)) = engine hd
    /\ context (snd (exec s hd)) = context hd
    /\ exec (SPrintVariable variable) (snd (exec s hd))
       = (Ok (VString ("$" +:+ name +:+ " = ")), snd (exec s hd)).
Proof.
  intros hd Hs name warning s Hcase.
  assert (Hb : GetLastResponse (engine hd) = "").
  { destruct (keeps_blocks fuel) as (Hp & _).
    exact (Hp code (NewHTTPDSLv3 transport) (new_interpreter_nothing_stored transport) Hs). }
  assert (He : exists pattern message,
             exec s hd = extractVariable extractType pattern variable message hd).
  { destruct Hcase as [-> | ->]; cbn [exec]; eauto. }
  destruct He as (pattern & message & He). rewrite He.
  destruct (extractVariable_no_response_state extractType pattern variable message hd Hb)
    as (Hr & Hv & Ho & Hen & Hc).
  split; [apply extractVariable_no_response; exact Hb |].
  split; [exact Hr |]. split; [exact Hv |]. split; [exact Hv |].
  split; [exact Ho |]. split; [exact Hen |]. split; [exact Hc |].
  set (hd' := snd (extractVariable extractType pattern variable message hd)) in *.
  change (exec (SPrintVariable variable) hd')
    with ((match variables hd' !! strings.TrimPrefix variable "$" with
           | Some val =>
               ret (VString ("$" +:+ strings.TrimPrefix variable "$" +:+ " = " +:+ Sprint val))
           | None =>
               ret (VString ("Variable $" +:+ strings.TrimPrefix variable "$" +:+ " not found"))
           end) hd').
  rewrite Hv. reflexivity.
Qed.
End Extraction.

Lemma HasPrefix_append (p s : string) : strings.HasPrefix (p +:+ s) p = true.
Proof.
  unfold strings.HasPrefix. induction p as [| c p IH].
  - destruct s; reflexivity.
  - change (String.prefix (String c p) (String c (p +:+ s)) = true).
    cbn [String.prefix]. destruct (ascii_dec c c); [exact IH | contradiction].
Qed.

Lemma drop_append (p s : string) : strings.drop (strings.len p) (p +:+ s) = s.
Proof. induction p as [| c p IH]; [reflexivity | exact IH]. Qed.

Lemma TrimPrefix_append (p s : string) : strings.TrimPrefix (p +:+ s) p = s.
Proof. unfold strings.TrimPrefix. rewrite HasPrefix_append. apply drop_append. Qed.

Section ExtractionResults.
Context {E : GoEnv}.

(** What [extract] finds nothing in: an absent header is the empty string
    already; a pattern without a match, an absent tag and a missing field
    are [nil]. *)
Lemma Header_Get_absent (h : list (string * list string)) (key : string) :
  find (fun kv => String.eqb (fst kv) (textproto.CanonicalMIMEHeaderKey key)) h = None ->
  Header_Get h key = "".
Proof. intros Hf. unfold Header_Get. rewrite Hf. reflexivity. Qed.

Lemma extractRegex_no_match (pattern : string) (he : HTTPEngine) :
  regexp_FindStringSubmatch pattern (lastResponseBody he) = [] ->
  extractRegex pattern he = VNil.
Proof.
  intros Hm. unfold extractRegex. rewrite Hm. destruct (regexp_Compile pattern); reflexivity.
Qed.

Lemma extractXPath_no_match (tag : string) (he : HTTPEngine) :
  strings.Contains tag "/" = false ->
  let pattern := "<" +:+ tag +:+ "[^>]*>(.*?)</" +:+ tag +:+ ">" in
  regexp_Compile pattern = true ->
  regexp_FindStringSubmatch pattern (lastResponseBody he) = [] ->
  extractXPath ("//" +:+ tag) he = Ok VNil.
Proof.
  intros Hs pattern Hc Hm. unfold extractXPath.
  rewrite HasPrefix_append, TrimPrefix_append, Hs. fold pattern. rewrite Hc, Hm. reflexivity.
Qed.

Lemma simple_path_missing_field (field : string) (m : list (string * Value)) :
  strings.Contains field "[" = false ->
  strings.Contains field "." = false ->
  strings.len field <> O ->
  map_index m field = None ->
  simple_path ("$." +:+ field) (VMap m) = Ok VNil.
Proof.
  intros Hb Hd Hl Hm. unfold simple_path.
  rewrite TrimPrefix_append.
  assert (Hs : strings.Split field "." = [field]).
  { unfold strings.Split. change (String.eqb "." "") with false. cbv iota.
    unfold strings.Contains in Hd.
    destruct field as [| c rest]; [contradiction |].
    cbn [strings.len String.length strings.cut].
    destruct (strings.index_from (String c rest) "." 0); [discriminate | reflexivity]. }
  rewrite Hs. cbn [walk_parts]. rewrite Hb. cbn [andb]. rewrite Hm. reflexivity.
Qed.

Lemma extractVariable_with_response (extractType pattern variable message : string)
      (hd : HTTPDSLv3) :
  String.eqb (GetLastResponse (engine hd)) "" = false ->
  extractVariable extractType pattern variable message hd
  = match Extract extractType pattern (engine hd) with
    | (Ok value, he') =>
        (Ok (VString message),
         SetVariable (strings.TrimPrefix variable "$")
                     (if is_nil value then VString "" else value) (set_engine he' hd))
    | (Err e, he') => (Err e, set_engine he' hd)
    | (Panic e, he') => (Panic e, set_engine he' hd)
    | (OutOfFuel, he') => (OutOfFuel, set_engine he' hd)
    end.
Proof.
  intros Hb. unfold extractVariable, bind, get, modify, ret, on_engine.
  rewrite Hb. destruct (Extract extractType pattern (engine hd)) as [[v | e | e |] he'];
    reflexivity.
Qed.

(** The four queries that find nothing, at [Extract]: a pattern without a
    match, an absent tag and a missing field give [nil]; an absent header
    gives the empty string. *)
Lemma Extract_finds_nothing (he : HTTPEngine) :
  (forall pattern,
      regexp_FindStringSubmatch pattern (lastResponseBody he) = [] ->
      Extract "regex" pattern he = (Ok VNil, he))
  /\ (forall tag,
         strings.Contains tag "/" = false ->
         regexp_Compile ("<" +:+ tag +:+ "[^>]*>(.*?)</" +:+ tag +:+ ">") = true ->
         regexp_FindStringSubmatch ("<" +:+ tag +:+ "[^>]*>(.*?)</" +:+ tag +:+ ">")
                                   (lastResponseBody he) = [] ->
         Extract "xpath" ("//" +:+ tag) he = (Ok VNil, he))
  /\ (forall field m,
         json_Unmarshal (lastResponseBody he) = Some (VMap m) ->
         strings.Contains field "[" = false ->
         strings.Contains field "." = false ->
         strings.len field <> O ->
         map_index m field = None ->
         Extract "jsonpath" ("$." +:+ field) he = (Ok VNil, he))
  /\ (forall key header,
         lastResponse he = Some header ->
         find (fun kv => String.eqb (fst kv) (textproto.CanonicalMIMEHeaderKey key)) header
         = None ->
         Extract "header" key he = (Ok (VString ""), he)).
Proof.
  repeat split.
  - intros pattern Hm. unfold Extract. cbn [String.eqb Ascii.eqb Bool.eqb].
    rewrite (extractRegex_no_match _ _ Hm). reflexivity.
  - intros tag Hs Hc Hm. unfold Extract. cbn [String.eqb Ascii.eqb Bool.eqb].
    rewrite (extractXPath_no_match tag he Hs Hc Hm). reflexivity.
  - intros field m Hj Hb Hd Hl Hm. unfold Extract. cbn [String.eqb Ascii.eqb Bool.eqb].
    unfold extractJSONPath. rewrite Hj.
    change (strings.HasPrefix ("$." +:+ field) "$[?(@.") with false.
    change (strings.HasPrefix ("$." +:+ field) "$[") with false.
    cbv iota. rewrite (simple_path_missing_field field m Hb Hd Hl Hm). reflexivity.
  - intros key header Hr Hf. unfold Extract. cbn [String.eqb Ascii.eqb Bool.eqb].
    rewrite Hr, (Header_Get_absent _ _ Hf). reflexivity.
Qed.

(** What holds of [extract] whenever [Extract] returns: with a last
    response in the engine, an [extract] whose query finds nothing
    ([Extract] returns [nil]) binds the variable to the empty string; and
    in every state an [extract] that returns has bound its variable to a
    value that is not [nil]. *)
Lemma extract_stores_no_nil (extractType pattern variable message : string)
        (hd : HTTPDSLv3) :
  (forall he',
      String.eqb (GetLastResponse (engine hd)) "" = false ->
      Extract extractType pattern (engine hd) = (Ok VNil, he') ->
      extractVariable extractType pattern variable message hd
      = (Ok (VString message),
         SetVariable (strings.TrimPrefix variable "$") (VString "") (set_engine he' hd)))
  /\ (forall result hd',
         extractVariable extractType pattern variable message hd = (Ok result, hd') ->
         exists value,
           variables hd' !! strings.TrimPrefix variable "$" = Some value
           /\ is_nil value = false).
Proof.
  split.
  - intros he' Hb Hx. rewrite (extractVariable_with_response _ _ _ _ _ Hb), Hx. reflexivity.
  - intros result hd'.
    destruct (String.eqb (GetLastResponse (engine hd)) "") eqn:Hb.
    + apply String.eqb_eq in Hb.
      rewrite (extractVariable_no_response (E := E) _ _ _ message _ Hb).
      intros Hr; inversion Hr; subst; clear Hr.
      exists (VString ""). split; [| reflexivity].
      unfold SetVariable. cbn [variables]. apply lookup_insert_eq.
    + rewrite (extractVariable_with_response _ _ _ _ _ Hb).
      destruct (Extract extractType pattern (engine hd)) as [[v | e | e |] he'];
        intros Hr; inversion Hr; subst; clear Hr.
      exists (if is_nil v then VString "" else v). split.
      * unfold SetVariable. cbn [variables]. apply lookup_insert_eq.
      * destruct v; reflexivity.
Qed.

(** [set_engine] with the engine the interpreter has. *)
Lemma set_engine_same (hd : HTTPDSLv3) : set_engine (engine hd) hd = hd.
Proof. destruct hd; reflexivity. Qed.

(** An index below zero passes the one test made on it, [index < len(arr)],
    and [arr[index]] panics: at the root ([$[-1]], lines 421-428) and on a
    field ([$.items[-1]], lines 454-459). *)
Lemma Extract_negative_index (he : HTTPEngine) :
  strconv_Atoi "-1" = (-1, true) ->
  (forall arr,
      json_Unmarshal (lastResponseBody he) = Some (VSlice arr) ->
      Extract "jsonpath" "$[-1]" he = (Panic "runtime error: index out of range [-1]", he))
  /\ (forall m arr,
         json_Unmarshal (lastResponseBody he) = Some (VMap m) ->
         map_index m "items" = Some (VSlice arr) ->
         Extract "jsonpath" "$.items[-1]" he = (Panic "runtime error: index out of range [-1]", he)).
Proof.
  intros Ha. split.
  - intros arr Hj. unfold Extract. cbn [String.eqb Ascii.eqb Bool.eqb].
    unfold extractJSONPath. rewrite Hj.
    change (strings.HasPrefix "$[-1]" "$[?(@.") with false.
    change (strings.HasPrefix "$[-1]" "$[") with true.
    change (strings.Index "$[-1]" "]") with 4. cbv beta iota zeta.
    change (2 <? 4) with true. cbv iota.
    change (strings.take (Z.to_nat (4 - 2)) (strings.drop 2 "$[-1]")) with "-1".
    rewrite Ha.
    assert (Hlt : (-1 <? Z.of_nat (length arr)) = true) by (apply Z.ltb_lt; lia).
    rewrite Hlt. reflexivity.
  - intros m arr Hj Hm. unfold Extract. cbn [String.eqb Ascii.eqb Bool.eqb].
    unfold extractJSONPath. rewrite Hj.
    change (strings.HasPrefix "$.items[-1]" "$[?(@.") with false.
    change (strings.HasPrefix "$.items[-1]" "$[") with false.
    cbv iota. unfold simple_path.
    change (strings.Split (strings.TrimPrefix "$.items[-1]" "$.") ".") with ["items[-1]"].
    cbn [walk_parts].
    change (strings.Contains "items[-1]" "[" && strings.Contains "items[-1]" "]") with true.
    cbv iota.
    change (slice_string "items[-1]" 0 (strings.Index "items[-1]" "[")) with (Ok "items").
    change (slice_string "items[-1]" (strings.Index "items[-1]" "[" + 1)
                         (strings.Index "items[-1]" "]")) with (Ok "-1").
    cbv beta iota zeta. rewrite Ha, Hm. cbn [fst].
    assert (Hlt : (-1 <? Z.of_nat (length arr)) = true) by (apply Z.ltb_lt; lia).
    rewrite Hlt. reflexivity.
Qed.

(** A tag that gives no regular expression: [extractXPath] compiles its
    pattern with [regexp.MustCompile], which panics, where [extractRegex]
    uses [regexp.Compile] and answers [nil]. *)
Lemma Extract_xpath_bad_tag (tag : string) (he : HTTPEngine) :
  strings.Contains tag "/" = false ->
  regexp_Compile ("<" +:+ tag +:+ "[^>]*>(.*?)</" +:+ tag +:+ ">") = false ->
  (exists msg, Extract "xpath" ("//" +:+ tag) he = (Panic msg, he))
  /\ (forall pattern, regexp_Compile pattern = false ->
                      Extract "regex" pattern he = (Ok VNil, he)).
Proof.
  intros Hs Hc. split.
  - unfold Extract. cbn [String.eqb Ascii.eqb Bool.eqb].
    unfold extractXPath. rewrite HasPrefix_append, TrimPrefix_append, Hs, Hc. eauto.
  - intros pattern Hp. unfold Extract. cbn [String.eqb Ascii.eqb Bool.eqb].
    unfold extractRegex. rewrite Hp. reflexivity.
Qed.

(** C10 (as the code has it): with a last response that is a JSON array,
    [extract jsonpath "$[-1]" as $v], a query that resolves to nothing,
    does not succeed: the statement panics, no value is returned and the
    variable is not written (it is not bound to the empty string). *)
Theorem extract_negative_index_panics (variable : string) (arr : list Value)
        (hd : HTTPDSLv3) :
  String.eqb (GetLastResponse (engine hd)) "" = false ->
  json_Unmarshal (GetLastResponse (engine hd)) = Some (VSlice arr) ->
  strconv_Atoi "-1" = (-1, true) ->
  let r := exec (SExtract "jsonpath" (quoted "$[-1]") variable) hd in
  fst r = Panic "runtime error: index out of range [-1]"
  /\ snd r = hd
  /\ variables (snd r) !! strings.TrimPrefix variable "$"
     = variables hd !! strings.TrimPrefix variable "$".
Proof.
  intros Hb Hj Ha r.
  assert (Hr : r = (Panic "runtime error: index out of range [-1]", hd)).
  { subst r. cbn [exec].
    change (unquoteString (quoted "$[-1]")) with "$[-1]".
    rewrite (extractVariable_with_response _ _ _ _ _ Hb).
    destruct (Extract_negative_index (engine hd) Ha) as (Hroot & _).
    rewrite (Hroot arr Hj), set_engine_same. reflexivity. }
  rewrite Hr. repeat split.
Qed.
End ExtractionResults.

Definition answered : HTTPDSLv3 :=
  snd (run false 3 ["GET " +:+ quoted "http://host/x"]
           (NewHTTPDSLv3 [RTResponse 200 [("Content-Type", ["text/plain"])]
                                     (Some "hello") "" 5%float])).

Example extract_stores_no_nil_run :
  extractVariable (E := Ref.env false) "regex" "zzz" "$v" "done" answered
  = (Ok (VString "done"), SetVariable "v" (VString "") answered).
Proof.
  apply (extract_stores_no_nil (E := Ref.env false) "regex" "zzz" "$v" "done" answered);
    vm_compute; reflexivity.
Qed.

(** A runtime on which the body [[1,2]] is the JSON array of 1 and 2, and
    the interpreter after a request answered with that body. *)
Definition array_env : GoEnv :=
  Ref.env_json "[1,2]" (VSlice [VFloat 1%float; VFloat 2%float]).

Definition answered_array : HTTPDSLv3 :=
  snd (ParseWithBlockSupport (E := array_env) 3 ("GET " +:+ quoted "http://host/items")
         (NewHTTPDSLv3 [RTResponse 200 [("Content-Type", ["application/json"])]
                                   (Some "[1,2]") "" 5%float])).

Lemma extract_negative_index_panics_witness :
  let r := exec (E := array_env) (SExtract "jsonpath" (quoted "$[-1]") "$v") answered_array in
  GetLastResponse (engine answered_array) = "[1,2]"
  /\ fst r = Panic "runtime error: index out of range [-1]"
  /\ variables (snd r) !! "v" = None.
Proof.
  intros r. split; [vm_compute; reflexivity |].
  destruct (extract_negative_index_panics (E := array_env) "$v"
              [VFloat 1%float; VFloat 2%float] answered_array)
    as (Hp & _ & Hv); try (vm_compute; reflexivity).
  split; [exact Hp |].
  refine (eq_trans Hv _). vm_compute. reflexivity.
Defined.

(** The same as a script: the run ends in the panic at the [extract], the
    statement after it is not run, and [extract "$[5]"], an index above
    the length, gives the empty string as the claim says. *)
Example extract_negative_index_run :
  let transport := [RTResponse 200 [] (Some "[1,2]") "" 5%float] in
  let r := ParseWithBlockSupport (E := array_env) 6
             (strings.Join ["GET " +:+ quoted "http://host/items";
                            "extract jsonpath " +:+ quoted "$[-1]" +:+ " as $v";
                            "set $after 1"] newline)
             (NewHTTPDSLv3 transport) in
  let r' := ParseWithBlockSupport (E := array_env) 6
              (strings.Join ["GET " +:+ quoted "http://host/items";
                             "extract jsonpath " +:+ quoted "$[5]" +:+ " as $v";
                             "extract jsonpath " +:+ quoted "$[1]" +:+ " as $w"] newline)
              (NewHTTPDSLv3 transport) in
  fst r = Panic "runtime error: index out of range [-1]"
  /\ variables (snd r) !! "v" = None
  /\ variables (snd r) !! "after" = None
  /\ variables (snd r') !! "v" = Some (VString "")
  /\ variables (snd r') !! "w" = Some (VFloat 2%float).
Proof. vm_compute. repeat split. Qed.

(** After a response, on the reference runtime: a pattern without a match,
    an absent header and the status. *)
Example extract_nothing_run :
  let hd := snd (run false 6
                     ["GET " +:+ quoted "http://host/x";
                      "extract regex " +:+ quoted "zzz" +:+ " as $v";
                      "extract header " +:+ quoted "X-Absent" +:+ " as $h";
                      "extract status as $s"]
                     (NewHTTPDSLv3 [RTResponse 200 [("Content-Type", ["text/plain"])]
                                               (Some "hello") "" 5%float])) in
  variables hd !! "v" = Some (VString "")
  /\ variables hd !! "h" = Some (VString "")
  /\ variables hd !! "s" = Some (VInt 200).
Proof. vm_compute. repeat split. Qed.

Lemma extract_without_response_witness :
  let hd := snd (run false 3 ["set $x 1"] (NewHTTPDSLv3 [])) in
  let hd' := snd (exec (E := Ref.env false) (SExtract "jsonpath" (quoted "$.a") "$v") hd) in
  sent (engine hd) = []
  /\ variables hd' !! "v" = Some (VString "")
  /\ variables hd' !! "x" = Some (VFloat 1%float)
  /\ exec (E := Ref.env false) (SPrintVariable "$v") hd' = (Ok (VString "$v = "), hd').
Proof.
  intros hd hd'.
  assert (Hs : sent (engine hd) = []) by (vm_compute; reflexivity).
  split; [exact Hs |].
  destruct (extract_without_response (E := Ref.env false) 3 "set $x 1" []
              "jsonpath" (quoted "$.a") "$v" Hs
              (SExtract "jsonpath" (quoted "$.a") "$v") (or_introl eq_refl))
    as (_ & _ & Hv & _ & Ho & _ & _ & Hp).
  split; [exact Hv |]. split; [| exact Hp].
  refine (eq_trans (Ho "x" _) _); [vm_compute; discriminate | vm_compute; reflexivity].
Defined.

(** Scenario 6 of the specification on the reference runtime: the warning
    is a result, the script returns and [$v] is the empty string. *)
Example extract_before_any_request_run :
  run false 4 ["extract jsonpath " +:+ quoted "$.a" +:+ " as $v"; "print $v"] (NewHTTPDSLv3 [])
  = (Ok [no_response_warning "$v"; VString "$v = "],
     SetVariable "v" (VString "") (NewHTTPDSLv3 [])).
Proof. vm_compute. reflexivity. Qed.

(* ===================================================================== *)
(** ** I/O errors of HTTP requests *)
(* ===================================================================== *)

Lemma isHTTPMethod_not_blank (line : string) :
  isHTTPMethod line = true ->
  String.eqb line "" || strings.HasPrefix line "#" || strings.HasPrefix line "//" = false.
Proof.
  destruct line as [| c rest]; [discriminate |].
  unfold isHTTPMethod, strings.HasPrefix. cbn [existsb String.prefix String.eqb orb].
  destruct (ascii_dec "#" c) as [<- | _]; [vm_compute; discriminate |].
  destruct (ascii_dec "/" c) as [<- | _]; [vm_compute; discriminate |].
  reflexivity.
Qed.

Section RequestErrors.
Context {E : GoEnv}.

(** [Request] when the transport fails: the error is returned and the last
    response is left as it was; only the elapsed time is written. *)
Lemma Request_io_error (method urlStr parsedURL err : string) (elapsed : float)
      (options : option RequestOptions) (more : list RoundTrip) (he : HTTPEngine) :
  url_Parse (if negb (String.eqb (baseURL he) "") && negb (strings.HasPrefix urlStr "http")
             then baseURL he +:+ urlStr else urlStr) = Some parsedURL ->
  client he = RTError err elapsed :: more ->
  exists he',
    Request method urlStr options he = (Err ("request failed: " +:+ err), he')
    /\ lastStatusCode he' = lastStatusCode he
    /\ lastResponseBody he' = lastResponseBody he
    /\ lastResponse he' = lastResponse he
    /\ lastResponseTime he' = elapsed
    /\ client he' = more.
Proof.
  intros Hu Hc. unfold Request. rewrite Hu, Hc. cbn [tl].
  eexists. split; [reflexivity |]. repeat split.
Qed.

(** C5 (amended): when the main loop of [ParseWithBlockSupport] reaches a
    request line and the transport fails with an I/O error, the loop stops
    there and returns the error to the caller; no later line is run, the
    variables are untouched and the last-response snapshot keeps the
    status, body and headers it had (only the elapsed time is written). *)
Theorem io_error_stops_script
        (fuel : nat) (lines : list string) (i : nat) (results : list Value) (hd : HTTPDSLv3)
        (raw method : string) (url : UrlValue) (options : list ReqOption)
        (urlStr parsedURL err : string) (elapsed : float) (more : list RoundTrip) :
  nth_error lines i = Some raw ->
  isHTTPMethod (strings.TrimSpace raw) = true ->
  dsl_Parse (strings.Join
               (fst (collect_headers (skipn (S i) lines) (S i) [strings.TrimSpace raw])) " ")
  = Parsed (SHttp method url options) ->
  eval_url url hd = (Ok urlStr, hd) ->
  url_Parse (if negb (String.eqb (baseURL (engine hd)) "")
                && negb (strings.HasPrefix urlStr "http")
             then baseURL (engine hd) +:+ urlStr else urlStr) = Some parsedURL ->
  client (engine hd) = RTError err elapsed :: more ->
  exists hd',
    parse_lines (S fuel) lines i results hd
    = (Err ("error parsing HTTP request: request failed: " +:+ err), hd')
    /\ variables hd' = variables hd
    /\ context hd' = context hd
    /\ lastStatusCode (engine hd') = lastStatusCode (engine hd)
    /\ lastResponseBody (engine hd') = lastResponseBody (engine hd)
    /\ lastResponse (engine hd') = lastResponse (engine hd)
    /\ lastResponseTime (engine hd') = elapsed.
Proof.
  intros Hnth Hm Hp He Hu Hc.
  rewrite parse_lines_S. unfold parse_lines_step. rewrite Hnth. cbv zeta.
  rewrite (isHTTPMethod_not_blank _ Hm), Hm.
  destruct (collect_headers _ _ _) as [requestParts j]. cbn [fst] in Hp.
  unfold bind at 1, wrap_err, ParseWithContext. rewrite Hp. cbn [exec].
  unfold bind at 1. rewrite He. unfold bind at 1, get.
  assert (Hreq : forall o, exists hd',
             on_engine (Request method urlStr o) hd
             = (Err ("request failed: " +:+ err), hd')
             /\ variables hd' = variables hd /\ context hd' = context hd
             /\ lastStatusCode (engine hd') = lastStatusCode (engine hd)
             /\ lastResponseBody (engine hd') = lastResponseBody (engine hd)
             /\ lastResponse (engine hd') = lastResponse (engine hd)
             /\ lastResponseTime (engine hd') = elapsed).
  { intros o. unfold on_engine.
    destruct (Request_io_error method urlStr parsedURL err elapsed o more (engine hd) Hu Hc)
      as (he' & -> & Hs & Hb & Hr & Ht & _).
    eexists. split; [reflexivity |]. cbn. repeat split; assumption. }
  destruct options as [| o os].
  - destruct (Hreq None) as (hd' & -> & Hrest). exists hd'. split; [reflexivity | exact Hrest].
  - destruct (Hreq (Some (fold_left (add_option hd) (o :: os) no_options)))
      as (hd' & -> & Hrest).
    exists hd'. split; [reflexivity | exact Hrest].
Qed.
End RequestErrors.

Definition timeout_script : list string :=
  ["GET " +:+ quoted "http://host/ok";
   "GET " +:+ quoted "http://host/slow";
   "set $after " +:+ quoted "ran"].

Definition timeout_transport : list RoundTrip :=
  [RTResponse 200 [] (Some "ok") "" 3%float;
   RTError "context deadline exceeded" 50%float].

(** What the claim promises of a run: it returns results (the error is not
    handed to the caller), the last status is the zero sentinel, and the
    statement after the request has run. *)
Definition io_error_is_captured (r : Outcome (list Value) * HTTPDSLv3) : Prop :=
  (exists results, fst r = Ok results)
  /\ lastStatusCode (engine (snd r)) = 0
  /\ variables (snd r) !! "after" = Some (VString "ran").

(** C5 (counterexample): a request that times out after one that was
    answered with 200.  The run returns the error, the last status is
    still 200 and [set $after] has not run. *)
Lemma io_error_is_not_captured :
  let r := run false 10 timeout_script (NewHTTPDSLv3 timeout_transport) in
  fst r = Err "error parsing HTTP request: request failed: context deadline exceeded"
  /\ lastStatusCode (engine (snd r)) = 200
  /\ variables (snd r) !! "after" = None
  /\ ~ io_error_is_captured r.
Proof.
  repeat split; try (vm_compute; reflexivity).
  intros [[results Hr] _]. vm_compute in Hr. discriminate.
Qed.

Lemma io_error_stops_script_witness :
  exists hd',
    parse_lines (E := Ref.env false) 1
                ["GET " +:+ quoted "http://host/slow"; "set $after " +:+ quoted "ran"] 0 []
                (NewHTTPDSLv3 [RTError "context deadline exceeded" 50%float])
    = (Err "error parsing HTTP request: request failed: context deadline exceeded", hd')
    /\ variables hd' = ∅
    /\ context hd' = ∅
    /\ lastStatusCode (engine hd') = 0
    /\ lastResponseBody (engine hd') = ""
    /\ lastResponse (engine hd') = None
    /\ lastResponseTime (engine hd') = 50%float.
Proof.
  apply (io_error_stops_script (E := Ref.env false) 0
           ["GET " +:+ quoted "http://host/slow"; "set $after " +:+ quoted "ran"] 0 []
           (NewHTTPDSLv3 [RTError "context deadline exceeded" 50%float])
           ("GET " +:+ quoted "http://host/slow") "GET" (UrlString (quoted "http://host/slow")) []
           "http://host/slow" "http://host/slow" "context deadline exceeded" 50%float []);
    vm_compute; reflexivity.
Defined.

(* ===================================================================== *)
(** ** The single-line [if ... then X else Y] *)
(* ===================================================================== *)

(** The tests of the main loop that a line passes to reach the single-line
    case (lines 1113-1114), in their order. *)
Definition is_single_line_if (line : string) : bool :=
  negb (String.eqb line "" || strings.HasPrefix line "#" || strings.HasPrefix line "//")
  && negb (isHTTPMethod line)
  && negb (strings.HasPrefix line "if " && strings.HasSuffix line " then")
  && negb (strings.HasPrefix line "repeat " && strings.HasSuffix line " do")
  && negb (strings.HasPrefix line "while " && strings.HasSuffix line " do")
  && negb (strings.HasPrefix line "foreach " && strings.Contains line " in "
           && strings.HasSuffix line " do")
  && (strings.HasPrefix line "if " && strings.Contains line " then "
      && strings.Contains line " else " && negb (strings.Contains line "endif")).

Section SingleLineIf.
Context {E : GoEnv}.

(** On a single-line [if], the main loop runs one statement and goes on:
    [X] when the condition code written in the loop answers true, [Y]
    when it answers false. *)
Lemma single_line_if_runs_one_branch
      (fuel : nat) (lines : list string) (i : nat) (results : list Value) (hd : HTTPDSLv3)
      (raw ifPart rest thenStatement elseStatement : string) :
  nth_error lines i = Some raw ->
  is_single_line_if (strings.TrimSpace raw) = true ->
  strings.SplitN (strings.TrimSpace raw) " then " 2 = [ifPart; rest] ->
  strings.SplitN rest " else " 2 = [thenStatement; elseStatement] ->
  parse_lines (S fuel) lines i results hd
  = if inline_condition (strings.TrimPrefix ifPart "if ") hd
    then (result <- wrap_err (fun e => "error in then statement: " +:+ e)
                             (ParseWithContext thenStatement) ;;
          parse_lines fuel lines (S i) (results ++ [result])%list) hd
    else (result <- wrap_err (fun e => "error in else statement: " +:+ e)
                             (ParseWithContext elseStatement) ;;
          parse_lines fuel lines (S i) (results ++ [result])%list) hd.
Proof.
  intros Hnth Hc Hs1 Hs2. unfold is_single_line_if in Hc.
  repeat match type of Hc with
         | (_ && _) = true => apply andb_prop in Hc; destruct Hc as [Hc ?]
         end.
  repeat match goal with
         | H : negb _ = true |- _ => apply negb_true_iff in H
         end.
  rewrite parse_lines_S. unfold parse_lines_step. rewrite Hnth. cbv zeta.
  repeat match goal with
         | H : ?b = false |- context [if ?b then _ else _] => rewrite H
         end.
  match goal with
  | H : ?b = true |- context [if ?b then _ else _] => rewrite H
  end.
  rewrite Hs1, Hs2. unfold bind at 1, get.
  destruct (inline_condition (strings.TrimPrefix ifPart "if ") hd); reflexivity.
Qed.

(** The condition code of the single-line [if] looks its left operand up
    as a variable name: a literal on the left makes the condition false. *)
Lemma inline_condition_literal_left (hd : HTTPDSLv3) :
  variables hd !! "5" = None -> inline_condition "5 > 3" hd = false.
Proof.
  intros Hv. unfold inline_condition.
  change (strings.Fields "5 > 3") with ["5"; ">"; "3"]. cbv beta iota zeta.
  change (strings.TrimPrefix "5" "$") with "5". rewrite Hv. reflexivity.
Qed.
End SingleLineIf.

Definition single_line_if : string :=
  "if 5 > 3 then set $a " +:+ quoted "Y" +:+ " else set $a " +:+ quoted "N".

(** C1 (as the code has it): the script of the specification,
    [if 5 > 3 then set $a "Y" else set $a "N"], on a new interpreter runs
    the else-branch alone and leaves [$a] equal to ["N"]; the same
    condition in a block [if] is true. *)
Theorem single_line_if_literal_takes_else :
  run false 3 [single_line_if] (NewHTTPDSLv3 [])
  = (Ok [VString "Variable $a set to N"], SetVariable "a" (VString "N") (NewHTTPDSLv3 []))
  /\ variables (snd (run false 3 [single_line_if] (NewHTTPDSLv3 []))) !! "a"
     = Some (VString "N")
  /\ EvaluateCondition (E := Ref.env false) "5 > 3" (NewHTTPDSLv3 []) = true.
Proof. repeat split; vm_compute; reflexivity. Qed.

(** The same line with a variable on the left runs the then-branch. *)
Example single_line_if_variable_takes_then :
  variables
    (snd (run false 4
              ["set $x 5";
               "if $x > 3 then set $a " +:+ quoted "Y" +:+ " else set $a " +:+ quoted "N"]
              (NewHTTPDSLv3 []))) !! "a"
  = Some (VString "Y").
Proof. vm_compute. reflexivity. Qed.

(* ===================================================================== *)
(** ** [break] and [continue] *)
(* ===================================================================== *)

Definition nested_break_script (inner_break : bool) : list string :=
  ["set $n 0";
   "repeat 3 times do";
   "    set $n $n + 1";
   "    if $n > 0 then";
   "        repeat 2 times do";
   "            set $m " +:+ quoted "inner"]
  ++ (if inner_break then ["            break"] else [])
  ++ ["        endloop";
      "    endif";
      "endloop"].

(** C2 (as the code has it): a [break] run in the body of an inner loop,
    inside an [if] of an outer loop, ends both loops.  The inner [repeat]
    stops after one pass, and then the outer [repeat 3 times] stops after
    its first pass too, with [$n] at 1; without the [break] line the outer
    loop makes its three passes. *)
Theorem inner_break_ends_outer_loop :
  fst (run false 40 (nested_break_script true) (NewHTTPDSLv3 []))
  = Ok [VString "Variable $n set to 0"; VString "Variable $n set to 1";
        VString "Variable $m set to inner"; VString "Repeated 1 times";
        VString "Repeated 1 times"]
  /\ variables (snd (run false 40 (nested_break_script true) (NewHTTPDSLv3 []))) !! "n"
     = Some (VFloat 1%float)
  /\ variables (snd (run false 40 (nested_break_script false) (NewHTTPDSLv3 []))) !! "n"
     = Some (VFloat 3%float).
Proof. repeat split; vm_compute; reflexivity. Qed.

Definition loop_with_break : list string :=
  ["set $c 0";
   "while $c < 10 do";
   "    set $c $c + 1";
   "    if $c == 3 then";
   "        break";
   "    endif";
   "endloop";
   "print $c"].

(** Scenario 3 of the specification: the loop stops at 3, and the [break]
    flag set by the statement is still set in the context when the script
    has returned. *)
Example break_flag_survives_loop :
  let r := run false 40 loop_with_break (NewHTTPDSLv3 []) in
  variables (snd r) !! "c" = Some (VFloat 3%float)
  /\ context (snd r) !! "break" = Some (VBool true).
Proof. vm_compute. split; reflexivity. Qed.

(** A [break] that is not run, because the nested [if] around it is false,
    still ends the loop: the signal is read off the text of the executed
    block. *)
Example unexecuted_break_ends_loop :
  fst (run false 40
           ["set $n 0";
            "repeat 3 times do";
            "    set $n $n + 1";
            "    if $n > 0 then";
            "        if $n > 100 then";
            "            break";
            "        endif";
            "    endif";
            "endloop"]
           (NewHTTPDSLv3 []))
  = Ok [VString "Variable $n set to 0"; VString "Variable $n set to 1";
        VString "Repeated 1 times"].
Proof. vm_compute. reflexivity. Qed.

(** Statements that follow a [break] in its [if] block still run. *)
Example statements_after_break_run :
  variables
    (snd (run false 40
              ["repeat 2 times do";
               "    if $_index == 0 then";
               "        break";
               "        set $after " +:+ quoted "ran";
               "    endif";
               "endloop"]
              (NewHTTPDSLv3 []))) !! "after"
  = Some (VString "ran").
Proof. vm_compute. reflexivity. Qed.

(* ===================================================================== *)
(** ** The safety cap of [while] *)
(* ===================================================================== *)

Section WhileContinue.
Context {E : GoEnv}.

Definition counter_is_zero (hd : HTTPDSLv3) : Prop :=
  variables hd !! "c" = Some (VFloat 0%float).

Lemma condition_holds (hd : HTTPDSLv3) (ten : float) :
  fmt_Sscanf_f "10" = Some ten -> PrimFloat.ltb 0%float ten = true ->
  counter_is_zero hd -> inline_condition "$c < 10" hd = true.
Proof.
  intros Hten Hlt Hc. unfold inline_condition.
  change (strings.Fields "$c < 10") with ["$c"; "<"; "10"].
  cbv beta iota zeta.
  change (strings.TrimPrefix "$c" "$") with "c".
  rewrite Hc, Hten. unfold numeric_compare.
  change (String.eqb "<" ">") with false. change (String.eqb "<" "<") with true.
  cbv iota. exact Hlt.
Qed.

(** A [while] whose body is [continue] and whose condition holds never
    leaves its loop: every pass goes back to the test with [iterations]
    still at 0, so the cap of 1000 is never reached. *)
Lemma while_continue_diverges (ten : float) (fuel : nat) (rs : list Value) (hd : HTTPDSLv3) :
  fmt_Sscanf_f "10" = Some ten -> PrimFloat.ltb 0%float ten = true ->
  counter_is_zero hd ->
  fst (while_loop fuel "$c < 10" ["continue"] 0 rs hd) = OutOfFuel.
Proof.
  intros Hten Hlt. revert rs hd.
  induction fuel as [| fuel IH]; intros rs hd Hc; [reflexivity |].
  rewrite while_loop_S. unfold while_loop_step.
  change (0 <? 1000) with true. cbv iota.
  unfold bind at 1, get at 1. cbv beta iota zeta.
  rewrite (condition_holds hd ten Hten Hlt Hc). cbv beta iota zeta delta [negb].
  unfold bind at 1, modify at 1. cbv beta iota zeta.
  destruct fuel as [| [| fuel']].
  - reflexivity.
  - reflexivity.
  - unfold bind at 1, wrap_err at 1. rewrite ProcessLoopBody_continue.
    cbv beta iota zeta. cbn [Results ShouldContinue fold_left].
    apply IH. unfold counter_is_zero, SetVariable. cbn [variables].
    rewrite lookup_insert_ne; [assumption | discriminate].
Qed.
End WhileContinue.

Definition while_continue_script : list string :=
  ["set $c 0"; "while $c < 10 do"; "continue"; "endloop"].

(** The two passes of the main loop that lead into the [while]: over any
    functions for the calls, and any [while] that does not return. *)
Lemma main_loop_enters_while
      (parse parse' : string -> M (list Value))
      (next : list string -> nat -> list Value -> M (list Value))
      (repeat repeat' : list string -> Z -> Z -> Z -> list Value -> M (list Value * Z))
      (while while' : string -> list string -> Z -> list Value -> M (list Value * Z))
      (foreach foreach' : list string -> string -> list Value -> Z -> Z -> list Value
                          -> M (list Value * Z)) :
  (forall rs hd, counter_is_zero hd ->
                 fst (while' "$c < 10" ["continue"] 0 rs hd) = OutOfFuel) ->
  fst (parse_lines_step (E := Ref.env false) parse
         (parse_lines_step (E := Ref.env false) parse' next repeat' while' foreach')
         repeat while foreach
         (strings.Split (strings.Join while_continue_script newline) newline) 0 []
         (NewHTTPDSLv3 []))
  = OutOfFuel.
Proof.
  intros Hw. vm_compute.
  match goal with
  | |- context [while' ?c ?b ?i ?rs ?hd] =>
      pose proof (Hw rs hd) as Hd; destruct (while' c b i rs hd) as [o hd']
  end.
  cbn [fst] in Hd. rewrite Hd; [reflexivity |]. vm_compute. reflexivity.
Qed.

(** C3 (as the code has it): a [while] loop whose body runs [continue] on
    every pass, under a condition that stays true, never returns: whatever
    the number of steps it is given, the run is still inside the loop, and
    the diagnostic of the cap is never returned. *)
Theorem while_continue_never_returns (fuel : nat) :
  fst (run false fuel while_continue_script (NewHTTPDSLv3 [])) = OutOfFuel.
Proof.
  destruct fuel as [| [| [| n]]]; [vm_compute; reflexivity ..|].
  unfold run. rewrite ParseWithBlockSupport_S, !parse_lines_S.
  apply main_loop_enters_while. intros rs hd Hc.
  apply (while_continue_diverges (E := Ref.env false) 10%float);
    [vm_compute; reflexivity | vm_compute; reflexivity | exact Hc].
Qed.

Definition counting_script : list string :=
  ["set $c 0"; "set $n 0"; "while $c < 10 do"; "set $n $n + 1"; "continue"; "endloop"].

(** The body has run 1001 times here, and the loop is still running. *)
Example body_runs_past_the_cap :
  let r := run false 1007 counting_script (NewHTTPDSLv3 []) in
  fst r = OutOfFuel /\ variables (snd r) !! "n" = Some (VFloat 1001%float).
Proof. vm_compute. split; reflexivity. Qed.

(** Without [continue] the cap holds: the loop is cut after 1000 passes
    with the diagnostic. *)
Example cap_without_continue :
  let r := run false 1010 ["set $c 0"; "set $n 0"; "while $c < 10 do"; "set $n $n + 1"; "endloop"]
               (NewHTTPDSLv3 []) in
  fst r = Err "while loop exceeded maximum iterations (1000)"
  /\ variables (snd r) !! "n" = Some (VFloat 1000%float).
Proof. vm_compute. split; reflexivity. Qed.

(* ===================================================================== *)
(** * Further properties of the code *)
(* ===================================================================== *)

(* ===================================================================== *)
(** ** Byte strings: what the proofs below use of [strings] *)
(* ===================================================================== *)

Lemma len_append (a b : string) : strings.len (a +:+ b) = (strings.len a + strings.len b)%nat.
Proof.
  unfold strings.len. induction a as [| c a IH]; [reflexivity |].
  change (S (String.length (a +:+ b)) = S (String.length a + String.length b)).
  now rewrite IH.
Qed.

Lemma take_append (a b : string) : strings.take (strings.len a) (a +:+ b) = a.
Proof.
  induction a as [| c a IH]; [destruct b; reflexivity |].
  change (String c (strings.take (strings.len a) (a +:+ b)) = String c a).
  now rewrite IH.
Qed.

Lemma HasSuffix_append (a b : string) : strings.HasSuffix (a +:+ b) b = true.
Proof.
  unfold strings.HasSuffix. rewrite len_append.
  replace (strings.len a + strings.len b - strings.len b)%nat with (strings.len a) by lia.
  rewrite drop_append, String.eqb_refl, andb_true_r. apply Nat.leb_le. lia.
Qed.

(** A text that does not hold the byte [c] holds no text that starts with [c]. *)
Lemma index_from_head_absent (c : ascii) (rest s : string) (i : nat) :
  strings.index_from s (String c EmptyString) i = None ->
  strings.index_from s (String c rest) i = None.
Proof.
  revert i. induction s as [| d s IH]; intros i; cbn [strings.index_from String.prefix].
  - intros _. reflexivity.
  - destruct (ascii_dec c d) as [-> | Hne].
    + destruct s; discriminate.
    + intros H. apply IH. exact H.
Qed.

Lemma Contains_head_absent (c : ascii) (rest s : string) :
  strings.Contains s (String c EmptyString) = false ->
  strings.Contains s (String c rest) = false.
Proof.
  unfold strings.Contains. intros H.
  rewrite index_from_head_absent; [reflexivity |].
  destruct (strings.index_from s (String c EmptyString) 0); [discriminate | reflexivity].
Qed.

(* ===================================================================== *)
(** ** [unquoteString] and [expandVariables] on whole texts *)
(* ===================================================================== *)

(** X1: [unquoteString] undoes the quoting of every text that holds no
    backslash: the two quotes are removed and no escape is rewritten. *)
Theorem unquoteString_quoted (s : string) :
  strings.Contains s backslash = false -> unquoteString (quoted s) = s.
Proof.
  intros Hb. unfold unquoteString, quoted.
  assert (Hlen : (2 <=? strings.len (dquote +:+ s +:+ dquote))%nat = true).
  { apply Nat.leb_le. rewrite !len_append. cbn. lia. }
  rewrite Hlen, HasPrefix_append.
  change (dquote +:+ s +:+ dquote) with (String (ascii_of_nat 34) (s +:+ dquote)) at 1.
  replace (strings.HasSuffix (String (ascii_of_nat 34) (s +:+ dquote)) dquote) with true.
  2:{ symmetry. change (String (ascii_of_nat 34) (s +:+ dquote))
                 with ((dquote +:+ s) +:+ dquote). apply HasSuffix_append. }
  cbv beta iota zeta. cbn [andb].
  replace (strings.take (strings.len (dquote +:+ s +:+ dquote) - 2)
                        (strings.drop 1 (dquote +:+ s +:+ dquote))) with s.
  2:{ change (strings.drop 1 (dquote +:+ s +:+ dquote)) with (s +:+ dquote).
      rewrite !len_append.
      replace (strings.len dquote + (strings.len s + strings.len dquote) - 2)%nat
        with (strings.len s) by (cbn; lia).
      symmetry. apply take_append. }
  repeat rewrite (ReplaceAll_absent s) by (apply Contains_head_absent; exact Hb).
  reflexivity.
Qed.

Lemma unquoteString_quoted_witness :
  strings.Contains "say: hi" backslash = false
  /\ unquoteString (quoted "say: hi") = "say: hi".
Proof.
  split; [vm_compute; reflexivity |].
  apply unquoteString_quoted. vm_compute. reflexivity.
Defined.

Section ExpansionOfTexts.
Context {E : GoEnv}.

(** X2: a text without a dollar sign is returned by [expandVariables] as
    it is, whatever the variables and whatever the order in which the
    runtime walks them. *)
Theorem expandVariables_without_dollar (s : string) (hd : HTTPDSLv3) :
  strings.Contains s "$" = false -> expandVariables s hd = s.
Proof.
  intros Hd. unfold expandVariables. apply expand_in_order_absent.
  apply Forall_forall. intros [name value] _. cbn [fst].
  apply (Contains_head_absent "$" name s Hd).
Qed.

(** X3: with one variable defined, [expandVariables] is [ReplaceAll] of
    its placeholder by its printed value. *)
Theorem expandVariables_one_variable
        (s name : string) (value : Value) (transport : list RoundTrip) :
  expandVariables s (SetVariable name value (NewHTTPDSLv3 transport))
  = strings.ReplaceAll s ("$" +:+ name) (Sprint value).
Proof.
  unfold expandVariables, SetVariable, NewHTTPDSLv3. cbn [variables].
  assert (Hr : map_range (<[name := value]> (∅ : gmap string Value)) = [(name, value)]).
  { apply Permutation_singleton_r.
    rewrite (map_range_perm (<[name := value]> ∅)).
    rewrite insert_empty, map_to_list_singleton. reflexivity. }
  rewrite Hr. reflexivity.
Qed.
End ExpansionOfTexts.

Lemma expandVariables_without_dollar_witness :
  let hd := SetVariable "x" (VString "1") (NewHTTPDSLv3 []) in
  strings.Contains "plain text" "$" = false
  /\ expandVariables (E := Ref.env true) "plain text" hd = "plain text".
Proof.
  split; [vm_compute; reflexivity |].
  apply (expandVariables_without_dollar (E := Ref.env true)). vm_compute. reflexivity.
Defined.

(* ===================================================================== *)
(** ** Statements: what [set], [print], [assert] and [reset] change *)
(* ===================================================================== *)

Section Statements.
Context {E : GoEnv}.

Lemma eval_value_pure (t : ValueTok) (hd : HTTPDSLv3) : snd (eval_value t hd) = hd.
Proof.
  destruct t; unfold eval_value, bind, get, ret, fail; cbn; try reflexivity.
  destruct (variables hd !! _); reflexivity.
Qed.

Ltac pure_cases :=
  unfold bind, get, ret, fail; cbn [fst snd];
  repeat match goal with
         | |- context [match ?x with _ => _ end] => destruct x
         end; reflexivity.

Lemma array_element_pure (varName : string) (index : Z) (hd : HTTPDSLv3) :
  snd (array_element varName index hd) = hd.
Proof. unfold array_element. pure_cases. Qed.

(** Evaluating an expression reads the interpreter and never writes it. *)
Lemma eval_expr_pure (e : Expr) (hd : HTTPDSLv3) : snd (eval_expr e hd) = hd.
Proof.
  induction e as [t | e IH op t | variable number | variable indexVariable | variable
                  | variable lexeme]; cbn [eval_expr].
  - apply eval_value_pure.
  - unfold bind at 1. destruct (eval_expr e hd) as [[l | m | m |] hd1] eqn:He;
      cbn [snd] in IH; subst hd1; try reflexivity.
    unfold bind at 1. pose proof (eval_value_pure t hd) as Hv.
    destruct (eval_value t hd) as [[r | m | m |] hd2]; cbn [snd] in Hv; subst hd2;
      try reflexivity.
    cbv zeta. repeat match goal with |- context [if ?b then _ else _] => destruct b end;
      reflexivity.
  - apply array_element_pure.
  - unfold arrayAccessVar, bind at 1, get. cbn [fst snd].
    destruct (variables hd !! _) as [[| b | i | i | f | v | v | m] |];
      try apply array_element_pure; reflexivity.
  - unfold lengthFunction. pure_cases.
  - unfold splitFunction. pure_cases.
Qed.

(** X4: [set $v <expression>] writes one variable or nothing, whatever
    the expression (a value, an arithmetic expression, an array access,
    [length] or [split]).  When it fails (a variable that is not defined,
    a division by zero, an index out of bounds) the interpreter is as it
    was; when it succeeds the engine, the context and every other variable
    are as they were. *)
Theorem set_writes_one_variable (variable : string) (e : Expr) (hd hd' : HTTPDSLv3)
        (r : Outcome Value) :
  exec (SSet variable e) hd = (r, hd') ->
  match r with
  | Ok _ =>
      engine hd' = engine hd /\ context hd' = context hd
      /\ forall other, other <> strings.TrimPrefix variable "$" ->
                       variables hd' !! other = variables hd !! other
  | _ => hd' = hd
  end.
Proof.
  cbn [exec]. unfold bind at 1. pose proof (eval_expr_pure e hd) as Hp.
  destruct (eval_expr e hd) as [[value | m | m |] hd1]; cbn [snd] in Hp; subst hd1;
    intros H; inversion H; subst; clear H; try reflexivity.
  unfold bind, modify, ret. cbn. repeat split.
  intros other Hne. apply lookup_insert_ne. congruence.
Qed.

(** X5: [set] and [print] round trip: the value that [set] reports is the
    value [print] shows for the same variable right after. *)
Theorem set_then_print (variable : string) (e : Expr) (hd hd' : HTTPDSLv3) (r : Value) :
  exec (SSet variable e) hd = (Ok r, hd') ->
  exists value,
    eval_expr e hd = (Ok value, hd)
    /\ r = VString ("Variable $" +:+ strings.TrimPrefix variable "$" +:+ " set to "
                      +:+ Sprint value)
    /\ exec (SPrintVariable variable) hd'
       = (Ok (VString ("$" +:+ strings.TrimPrefix variable "$" +:+ " = " +:+ Sprint value)),
          hd').
Proof.
  cbn [exec]. unfold bind at 1. pose proof (eval_expr_pure e hd) as Hp.
  destruct (eval_expr e hd) as [[value | m | m |] hd1]; cbn [snd] in Hp; subst hd1;
    intros H; inversion H; subst; clear H.
  exists value. repeat split.
  unfold bind, get, ret, SetVariable. cbn [variables]. rewrite lookup_insert_eq. reflexivity.
Qed.

(** X6: arithmetic is on numbers only.  An arithmetic expression that
    evaluates gives a [float64], whatever its operands were; and a division
    whose right operand counts as zero (the number zero, or a text that is
    no number) fails with [division by zero]. *)
Theorem arithmetic_is_numeric (e : Expr) (op : string) (t : ValueTok) (hd : HTTPDSLv3) :
  (forall v hd', eval_expr (EArith e op t) hd = (Ok v, hd') -> exists f, v = VFloat f)
  /\ (forall l r,
         eval_expr e hd = (Ok l, hd) -> eval_value t hd = (Ok r, hd) ->
         PrimFloat.eqb (toNumber r) 0%float = true ->
         eval_expr (EArith e "/" t) hd = (Err "division by zero", hd)).
Proof.
  split.
  - intros v hd'. cbn [eval_expr]. unfold bind at 1.
    destruct (eval_expr e hd) as [[l | m | m |] hd1]; try discriminate.
    unfold bind at 1. destruct (eval_value t hd1) as [[r | m | m |] hd2]; try discriminate.
    cbv zeta. unfold ret, fail.
    repeat match goal with |- context [if ?b then _ else _] => destruct b end;
      intros H; inversion H; eauto.
  - intros l r Hl Hr Hz. cbn [eval_expr]. unfold bind at 1. rewrite Hl.
    unfold bind at 1. rewrite Hr. cbv zeta.
    change (String.eqb "/" "+") with false. change (String.eqb "/" "-") with false.
    change (String.eqb "/" "*") with false. change (String.eqb "/" "/") with true.
    cbv iota. rewrite Hz. reflexivity.
Qed.

(** [print] and [assert] read the interpreter and never write it, whether
    they succeed or fail. *)
Lemma print_and_assert_write_nothing (word : string) (hd : HTTPDSLv3) :
  snd (exec (SPrintVariable word) hd) = hd
  /\ snd (exec (SPrintString word) hd) = hd
  /\ snd (exec (SAssertStatus word) hd) = hd
  /\ snd (exec (SAssertContains word) hd) = hd.
Proof.
  repeat split; cbn [exec]; unfold bind, get, ret, fail; cbn.
  - destruct (variables hd !! _); reflexivity.
  - destruct (_ =? _); reflexivity.
  - destruct (strings.Contains _ _); reflexivity.
Qed.

End Statements.

Lemma set_writes_one_variable_witness :
  let hd := SetVariable "a" (VFloat 2%float) (NewHTTPDSLv3 []) in
  variables (SetVariable "b" (VFloat 3%float) hd) !! "a" = variables hd !! "a".
Proof.
  intros hd.
  destruct (set_writes_one_variable (E := Ref.env false) "$b"
              (EArith (ETerm (TokVariable "$a")) "+" (TokNumber "1")) hd
              (SetVariable "b" (VFloat 3%float) hd) (Ok (VString "Variable $b set to 3")))
    as (_ & _ & Ho).
  - vm_compute. reflexivity.
  - apply Ho. vm_compute. discriminate.
Defined.

Lemma set_then_print_witness :
  let hd := SetVariable "a" (VFloat 2%float) (NewHTTPDSLv3 []) in
  exists value,
    eval_expr (E := Ref.env false)
              (EArith (ETerm (TokVariable "$a")) "+" (TokNumber "1")) hd
    = (Ok value, hd)
    /\ VString "Variable $b set to 3"
       = VString ("Variable $" +:+ "b" +:+ " set to " +:+ Sprint (E := Ref.env false) value)
    /\ exec (E := Ref.env false) (SPrintVariable "$b") (SetVariable "b" (VFloat 3%float) hd)
       = (Ok (VString ("$" +:+ "b" +:+ " = " +:+ Sprint (E := Ref.env false) value)),
          SetVariable "b" (VFloat 3%float) hd).
Proof.
  intros hd.
  apply (set_then_print (E := Ref.env false) "$b"
           (EArith (ETerm (TokVariable "$a")) "+" (TokNumber "1")) hd
           (SetVariable "b" (VFloat 3%float) hd) (VString "Variable $b set to 3")).
  vm_compute. reflexivity.
Defined.

Lemma arithmetic_is_numeric_witness :
  let hd := SetVariable "a" (VFloat 2%float) (NewHTTPDSLv3 []) in
  eval_expr (E := Ref.env false)
            (EArith (ETerm (TokVariable "$a")) "/" (TokString (quoted "abc"))) hd
  = (Err "division by zero", hd).
Proof.
  intros hd.
  apply (arithmetic_is_numeric (E := Ref.env false) (ETerm (TokVariable "$a")) "/"
           (TokString (quoted "abc")) hd) with (l := VFloat 2%float) (r := VString "abc");
    vm_compute; reflexivity.
Defined.

(* ===================================================================== *)
(** ** The engine: [Request], [Extract], [SetBaseURL], [Reset] *)
(* ===================================================================== *)

Section EngineFacts.
Context {E : GoEnv}.

(** The URL [Request] parses: the base URL is put in front of a URL that
    does not start with [http]. *)
Definition request_url (urlStr : string) (he : HTTPEngine) : string :=
  if negb (String.eqb (baseURL he) "") && negb (strings.HasPrefix urlStr "http")
  then baseURL he +:+ urlStr else urlStr.

(** X8: a request with a method that [http.NewRequest] accepts, on an
    engine without hooks, that is answered and read stores the answer, and
    the engine gives it back: [extract status] returns the status of the
    response, [GetLastResponse] its body, [extract header] its headers, and
    the value returned to the script carries the same status and body. *)
Theorem Request_stores_the_answer
        (method urlStr parsedURL body readErr : string) (options : option RequestOptions)
        (status : Z) (header : list (string * list string)) (elapsed : float)
        (more : list RoundTrip) (he : HTTPEngine) :
  validMethod method = true ->
  url_Parse (request_url urlStr he) = Some parsedURL ->
  client he = RTResponse status header (Some body) readErr elapsed :: more ->
  let he' := snd (Request method urlStr options he) in
  (exists m, fst (Request method urlStr options he) = Ok (VMap m)
             /\ map_index m "status" = Some (VInt status)
             /\ map_index m "body" = Some (VString body))
  /\ GetLastStatusCode he' = status
  /\ GetLastResponse he' = body
  /\ Extract "status" "" he' = (Ok (VInt status), he')
  /\ (forall key, Extract "header" key he' = (Ok (VString (Header_Get header key)), he'))
  /\ client he' = more.
Proof.
  unfold request_url. intros _ Hu Hc. unfold Request. rewrite Hu, Hc. cbn [tl snd fst].
  split; [eexists; split; [reflexivity | split; reflexivity] |].
  repeat split.
Qed.



(** X10: [Extract] reads the stored response.  For [status], [header],
    [xpath], [regex] and every unknown kind the engine is left as it was;
    [jsonpath] may rewrite the stored body and nothing else. *)
Theorem Extract_writes_at_most_the_body (extractType pattern : string) (he : HTTPEngine) :
  let he' := snd (Extract extractType pattern he) in
  (String.eqb extractType "jsonpath" = false -> he' = he)
  /\ client he' = client he /\ clientTimeout he' = clientTimeout he
  /\ baseURL he' = baseURL he /\ lastResponse he' = lastResponse he
  /\ lastStatusCode he' = lastStatusCode he /\ lastResponseTime he' = lastResponseTime he.
Proof.
  cbv zeta. split.
  - intros Hj. unfold Extract. rewrite Hj.
    repeat match goal with |- context [if ?b then _ else _] => destruct b end;
      try reflexivity.
    destruct (lastResponse he); reflexivity.
  - unfold Extract.
    repeat match goal with |- context [if ?b then _ else _] => destruct b end;
      try (repeat split; fail).
    + destruct (lastResponse he) eqn:Hl; cbn [snd]; rewrite ?Hl; repeat split.
    + unfold extractJSONPath.
      repeat match goal with
             | |- context [match ?x with _ => _ end] => destruct x
             end; repeat split.
Qed.

(** X11: the base URL set by [SetBaseURL] ends with a slash and is never
    empty, so [SetBaseURL] with the empty text does not clear it (the base
    becomes ["/"]); setting the stored base URL again changes nothing. *)
Theorem SetBaseURL_ends_with_slash (url : string) (he : HTTPEngine) :
  strings.HasSuffix (baseURL (SetBaseURL url he)) "/" = true
  /\ baseURL (SetBaseURL url he) <> ""
  /\ baseURL (SetBaseURL "" he) = "/"
  /\ SetBaseURL (baseURL (SetBaseURL url he)) (SetBaseURL url he) = SetBaseURL url he.
Proof.
  assert (Hs : strings.HasSuffix (baseURL (SetBaseURL url he)) "/" = true).
  { unfold SetBaseURL. cbn [baseURL].
    destruct (strings.HasSuffix url "/") eqn:H; [exact H | apply HasSuffix_append]. }
  split; [exact Hs |]. split; [| split; [reflexivity |]].
  - intros He. rewrite He in Hs. discriminate.
  - unfold SetBaseURL at 1. rewrite Hs. reflexivity.
Qed.
End EngineFacts.

Lemma Request_stores_the_answer_witness :
  let he := NewHTTPEngine [RTResponse 201 [("Location", ["/items/7"])] (Some "made") "" 4%float] in
  let he' := snd (Request (E := Ref.env false) "POST" "http://host/items" None he) in
  GetLastStatusCode he' = 201 /\ GetLastResponse he' = "made"
  /\ Extract (E := Ref.env false) "status" "" he' = (Ok (VInt 201), he').
Proof.
  intros he he'.
  destruct (Request_stores_the_answer (E := Ref.env false) "POST" "http://host/items"
              "http://host/items" "made" "" None 201 [("Location", ["/items/7"])] 4%float []
              he) as (_ & Hs & Hb & Hx & _).
  - reflexivity.
  - vm_compute. reflexivity.
  - vm_compute. reflexivity.
  - split; [exact Hs | split; [exact Hb | exact Hx]].
Defined.


Lemma Extract_writes_at_most_the_body_witness :
  let he := NewHTTPEngine [] in
  snd (Extract (E := Ref.env false) "regex" "a+" he) = he.
Proof.
  intros he.
  apply (Extract_writes_at_most_the_body (E := Ref.env false) "regex" "a+" he). reflexivity.
Defined.

(* ===================================================================== *)
(** ** Blocks: [ExtractIfBlock], [ExtractLoopBlock] and the loop bodies *)
(* ===================================================================== *)

(** White space: what the block functions use of [TrimSpace]. *)

Lemma append_empty_r (s : string) : s +:+ "" = s.
Proof.
  induction s as [| c s IH]; [reflexivity |].
  change (String c (s +:+ "") = String c s). now rewrite IH.
Qed.

Lemma append_assoc (a b c : string) : (a +:+ b) +:+ c = a +:+ (b +:+ c).
Proof.
  induction a as [| x a IH]; [reflexivity |].
  change (String x ((a +:+ b) +:+ c) = String x (a +:+ (b +:+ c))). now rewrite IH.
Qed.

Lemma reverse_onto_append (s acc : string) :
  strings.reverse_onto s acc = strings.reverse s +:+ acc.
Proof.
  unfold strings.reverse. revert acc.
  induction s as [| c s IH]; intros acc; [reflexivity |].
  cbn [strings.reverse_onto]. rewrite (IH (String c acc)), (IH (String c "")).
  rewrite append_assoc. reflexivity.
Qed.

Lemma reverse_append (a b : string) :
  strings.reverse (a +:+ b) = strings.reverse b +:+ strings.reverse a.
Proof.
  induction a as [| c a IH].
  - change ("" +:+ b) with b. now rewrite append_empty_r.
  - change (String c a +:+ b) with (String c (a +:+ b)).
    unfold strings.reverse at 1 3. cbn [strings.reverse_onto].
    rewrite !(reverse_onto_append _ (String c "")), IH. apply append_assoc.
Qed.

Lemma reverse_involutive (s : string) : strings.reverse (strings.reverse s) = s.
Proof.
  induction s as [| c s IH]; [reflexivity |].
  unfold strings.reverse at 2. cbn [strings.reverse_onto].
  rewrite reverse_onto_append, reverse_append, IH. reflexivity.
Qed.

Lemma len_reverse (s : string) : strings.len (strings.reverse s) = strings.len s.
Proof.
  induction s as [| c s IH]; [reflexivity |].
  unfold strings.reverse. cbn [strings.reverse_onto].
  rewrite reverse_onto_append, len_append, IH. unfold strings.len. cbn [String.length]. lia.
Qed.

Lemma take_drop (k : nat) (s : string) : strings.take k s +:+ strings.drop k s = s.
Proof.
  revert s. induction k as [| k IH]; intros [| c s]; try reflexivity.
  cbn [strings.take strings.drop].
  change (String c (strings.take k s +:+ strings.drop k s) = String c s). now rewrite IH.
Qed.

Lemma len_drop (k : nat) (s : string) :
  strings.len (strings.drop k s) = (strings.len s - k)%nat.
Proof. revert s. induction k as [| k IH]; intros [| c s]; cbn; try lia. apply IH. Qed.

Section Runes.
Variable one : ascii -> bool.
Variable two : ascii -> ascii -> bool.
Variable three : ascii -> ascii -> ascii -> bool.

Lemma space_width_le (s : string) :
  (strings.space_width one two three s <= strings.len s)%nat.
Proof.
  destruct s as [| c1 [| c2 [| c3 r]]]; cbn;
    repeat match goal with |- context [if ?b then _ else _] => destruct b end; lia.
Qed.

(** A text that starts with no white space rune has no prefix that starts
    with one. *)
Lemma space_width_prefix (t v : string) :
  strings.space_width one two three (t +:+ v) = O ->
  strings.space_width one two three t = O.
Proof.
  destruct t as [| c1 [| c2 [| c3 r]]]; try reflexivity.
  - change (String c1 "" +:+ v) with (String c1 v). cbn [strings.space_width].
    destruct (one c1); [discriminate | reflexivity].
  - change (String c1 (String c2 "") +:+ v) with (String c1 (String c2 v)).
    cbn [strings.space_width].
    destruct (one c1); [discriminate |]. destruct (two c1 c2); [discriminate | reflexivity].
  - change (String c1 (String c2 (String c3 r)) +:+ v)
      with (String c1 (String c2 (String c3 (r +:+ v)))).
    cbn [strings.space_width]. intros H. exact H.
Qed.

Lemma trimLeftRunes_none (left : nat) (s : string) :
  strings.space_width one two three s = O ->
  strings.trimLeftRunes one two three left s = s.
Proof. intros H. destruct left; [reflexivity |]. cbn [strings.trimLeftRunes]. now rewrite H. Qed.

Lemma trimLeftRunes_width (left : nat) (s : string) :
  (strings.len s <= left)%nat ->
  strings.space_width one two three (strings.trimLeftRunes one two three left s) = O.
Proof.
  revert s. induction left as [| left IH]; intros s Hl.
  - destruct s; [reflexivity | cbn in Hl; lia].
  - cbn [strings.trimLeftRunes].
    destruct (strings.space_width one two three s) as [| w] eqn:Hw; [exact Hw |].
    apply IH. rewrite len_drop. lia.
Qed.

Lemma trimLeftRunes_suffix (left : nat) (s : string) :
  exists p, s = p +:+ strings.trimLeftRunes one two three left s.
Proof.
  revert s. induction left as [| left IH]; intros s.
  - exists "". reflexivity.
  - cbn [strings.trimLeftRunes].
    destruct (strings.space_width one two three s) as [| w]; [exists ""; reflexivity |].
    destruct (IH (strings.drop (S w) s)) as [p Hp].
    exists (strings.take (S w) s +:+ p).
    rewrite append_assoc, <- Hp. symmetry. apply take_drop.
Qed.

Lemma len_trimLeftRunes_le (left : nat) (s : string) :
  (strings.len (strings.trimLeftRunes one two three left s) <= strings.len s)%nat.
Proof.
  destruct (trimLeftRunes_suffix left s) as [p Hp].
  rewrite Hp at 2. rewrite len_append. lia.
Qed.
End Runes.

Lemma trimRightSpace_prefix (s : string) : exists v, s = strings.trimRightSpace s +:+ v.
Proof.
  unfold strings.trimRightSpace.
  destruct (trimLeftRunes_suffix strings.isSpace (fun c2 c1 => strings.isSpace2 c1 c2)
              (fun c3 c2 c1 => strings.isSpace3 c1 c2 c3) (strings.len s) (strings.reverse s))
    as [p Hp].
  exists (strings.reverse p).
  rewrite <- reverse_append, <- Hp. symmetry. apply reverse_involutive.
Qed.

Lemma trimRightSpace_idempotent (s : string) :
  strings.trimRightSpace (strings.trimRightSpace s) = strings.trimRightSpace s.
Proof.
  unfold strings.trimRightSpace at 1. unfold strings.trimRightSpace at 2.
  rewrite reverse_involutive. rewrite trimLeftRunes_none; [reflexivity |].
  apply trimLeftRunes_width. rewrite len_reverse. lia.
Qed.

(** [TrimSpace] leaves nothing to trim. *)
Lemma TrimSpace_idempotent (s : string) :
  strings.TrimSpace (strings.TrimSpace s) = strings.TrimSpace s.
Proof.
  unfold strings.TrimSpace.
  assert (Hl : strings.trimLeftSpace (strings.trimRightSpace (strings.trimLeftSpace s))
               = strings.trimRightSpace (strings.trimLeftSpace s)).
  { destruct (trimRightSpace_prefix (strings.trimLeftSpace s)) as [v Hv].
    unfold strings.trimLeftSpace at 1. apply trimLeftRunes_none.
    apply space_width_prefix with (v := v). rewrite <- Hv.
    apply trimLeftRunes_width. lia. }
  rewrite Hl. apply trimRightSpace_idempotent.
Qed.


Section ExtractBlock.
Variables opener terminator : string -> bool.



(** Without a terminator among the lines the level never comes back to
    zero. *)
Lemma extract_block_without_terminator (rest : list string) :
  forall (i : nat) (nestLevel : Z) (block : list string),
    0 < nestLevel ->
    Forall (fun line => terminator (strings.TrimSpace line) = false) rest ->
    extract_block opener terminator rest i nestLevel block = None.
Proof.
  induction rest as [| line rest IH]; intros i n block Hn Hf; cbn [extract_block];
    [reflexivity |].
  cbv zeta. inversion Hf as [| ? ? Hl Hr]; subst. rewrite Hl.
  destruct (opener (strings.TrimSpace line)).
  - destruct (n + 1 =? 0) eqn:Hz; [lia |]. apply IH; [lia | exact Hr].
  - destruct (n =? 0) eqn:Hz; [lia |]. apply IH; [exact Hn | exact Hr].
Qed.
End ExtractBlock.

Lemma skipn_cons_nth {A} (l : list A) (i : nat) (x : A) :
  nth_error l i = Some x -> skipn i l = x :: skipn (S i) l.
Proof.
  revert i. induction l as [| y l IH]; intros [| i]; cbn; try discriminate.
  - now intros [= ->].
  - apply IH.
Qed.


(** A loop body collected by [ParseWithBlockSupport] holds no [endloop]
    line: the one that ends the loop is not kept, and the ones of nested
    loops are dropped with it. *)
Lemma collect_loop_drops_endloop (rest : list string) :
  forall (i nestLevel : nat) (loopBody : list string),
    Forall (fun line => String.eqb (strings.TrimSpace line) "endloop" = false) loopBody ->
    Forall (fun line => String.eqb (strings.TrimSpace line) "endloop" = false)
           (fst (collect_loop rest i nestLevel loopBody)).
Proof.
  induction rest as [| raw rest IH]; intros i n body Hb; cbn [collect_loop]; [exact Hb |].
  cbv zeta. destruct (String.eqb (strings.TrimSpace raw) "endloop") eqn:He.
  - destruct (n - 1 =? 0)%nat; [exact Hb | apply IH; exact Hb].
  - apply IH. destruct (negb _); [| exact Hb].
    apply Forall_app. split; [exact Hb |]. constructor; [| constructor].
    rewrite TrimSpace_idempotent. exact He.
Qed.

Section NestedLoops.
Context {E : GoEnv}.

Lemma loop_opener_is_no_other_line (t : string) :
  is_loop_opener t = true ->
  is_comment_or_blank t = false /\ String.eqb t "break" = false
  /\ String.eqb t "continue" = false /\ is_if_opener t = false.
Proof.
  unfold is_loop_opener, is_comment_or_blank, is_if_opener, strings.HasPrefix.
  destruct t as [| c t]; [discriminate |].
  cbn [String.prefix String.eqb orb].
  destruct (ascii_dec "w" c) as [<- | Hw]; [repeat split; reflexivity |].
  destruct (ascii_dec "f" c) as [<- | Hf]; [repeat split; reflexivity |].
  destruct (ascii_dec "r" c) as [<- | Hr]; [repeat split; reflexivity |].
  cbn. discriminate.
Qed.

(** X13: a loop written directly in the body of a loop never runs.  The
    body that [ParseWithBlockSupport] collects has lost the [endloop] of
    the nested loop, so [ExtractLoopBlock] finds no complete block there
    and [ProcessLoopBody] stops on the nested loop's line with
    [malformed loop block], whatever the loops are. *)
Theorem nested_loop_is_malformed
        (rest : list string) (i k : nat) (line : string)
        (fuel : nat) (results : list Value) (hd : HTTPDSLv3) :
  let body := fst (collect_loop rest i 1 []) in
  nth_error body k = Some line ->
  is_loop_opener (strings.TrimSpace line) = true ->
  strings.HasSuffix (strings.TrimSpace line) " do" = true ->
  ExtractLoopBlock body k = None
  /\ loop_body (S fuel) body k results hd
     = (Err ("malformed loop block at line " +:+ itoa (Z.of_nat k + 1)), hd).
Proof.
  intros body Hn Ho Hs.
  assert (Hx : ExtractLoopBlock body k = None).
  { unfold ExtractLoopBlock. rewrite (skipn_cons_nth _ _ _ Hn).
    cbn [extract_block]. cbv zeta. rewrite Hs. change (0 + 1 =? 0) with false. cbv iota.
    apply extract_block_without_terminator; [lia |].
    apply Forall_drop. apply collect_loop_drops_endloop. constructor. }
  split; [exact Hx |].
  destruct (loop_opener_is_no_other_line _ Ho) as (Hc & Hb & Hcn & Hi).
  cbn [loop_body]. unfold loop_body_step. rewrite Hn. cbv zeta.
  rewrite Hc, Hb, Hcn, Hi, Ho, Hx. reflexivity.
Qed.
End NestedLoops.


Lemma nested_loop_is_malformed_witness :
  let rest := ["  repeat 3 times do"; "    set $n $n + 1"; "  endloop"; "endloop"] in
  let body := fst (collect_loop rest 2 1 []) in
  ExtractLoopBlock body 0 = None
  /\ loop_body (E := Ref.env false) 1 body 0 [] (NewHTTPDSLv3 [])
     = (Err "malformed loop block at line 1", NewHTTPDSLv3 []).
Proof.
  intros rest body.
  apply (nested_loop_is_malformed (E := Ref.env false) rest 2 0 "repeat 3 times do" 0 []
           (NewHTTPDSLv3 [])); reflexivity.
Defined.

(** The same through the entry point: the inner loop never runs. *)
Example nested_repeat_run :
  fst (run false 30
           ["set $n 0"; "repeat 2 times do"; "  repeat 3 times do"; "    set $n $n + 1";
            "  endloop"; "endloop"]
           (NewHTTPDSLv3 []))
  = Err "error in loop iteration 1: malformed loop block at line 1".
Proof. vm_compute. reflexivity. Qed.

Section Loops.
Context {E : GoEnv}.

Lemma fold_append_result_extends (more results : list Value) :
  exists added, fold_left append_result more results = (results ++ added)%list.
Proof.
  revert results. induction more as [| r more IH]; intros results; cbn [fold_left].
  - exists []. now rewrite app_nil_r.
  - destruct (IH (append_result results r)) as [added Ha]. rewrite Ha.
    unfold append_result. destruct (negb _ && negb _).
    + exists (r :: added). now rewrite <- app_assoc.
    + exists added. reflexivity.
Qed.

(** The count and the results of the [while] loop, from any pass on. *)
Lemma while_loop_counts (fuel : nat) :
  forall (conditionStr : string) (loopBody : list string) (iterations : Z)
         (results results' : list Value) (n : Z) (hd hd' : HTTPDSLv3),
    while_loop fuel conditionStr loopBody iterations results hd = (Ok (results', n), hd') ->
    iterations <= n /\ n <= Z.max iterations 1000
    /\ exists added, results' = (results ++ added)%list.
Proof.
  induction fuel as [| fuel IH]; intros c body it rs rs' n hd hd'; [discriminate |].
  rewrite while_loop_S. unfold while_loop_step.
  destruct (it <? 1000) eqn:Hlt.
  2:{ intros H. inversion H; subst. repeat split; try lia. exists []. now rewrite app_nil_r. }
  apply Z.ltb_lt in Hlt.
  unfold bind at 1, get at 1. cbv beta iota zeta.
  destruct (negb (inline_condition c hd)).
  { intros H. inversion H; subst. repeat split; try lia. exists []. now rewrite app_nil_r. }
  unfold bind at 1, modify at 1. cbv beta iota zeta.
  unfold bind at 1, wrap_err at 1.
  destruct (ProcessLoopBody fuel body _) as [[loopResult | m | m |] hd1]; try discriminate.
  destruct (fold_append_result_extends (Results loopResult) rs) as [added Ha].
  rewrite Ha.
  destruct (ShouldContinue loopResult); [| destruct (ShouldBreak loopResult)].
  - intros H. apply IH in H. destruct H as (H1 & H2 & more & ->).
    repeat split; try lia. exists (added ++ more)%list. now rewrite app_assoc.
  - intros H. inversion H; subst. repeat split; try lia. eauto.
  - intros H. apply IH in H. destruct H as (H1 & H2 & more & ->).
    repeat split; try lia. exists (added ++ more)%list. now rewrite app_assoc.
Qed.

(** X14: a [while] loop that returns reports between 0 and 1000 passes,
    and the results it returns are the ones it was given followed by the
    ones of its passes: no earlier result is dropped or reordered. *)
Theorem while_loop_reports_at_most_1000
        (fuel : nat) (conditionStr : string) (loopBody : list string)
        (results results' : list Value) (n : Z) (hd hd' : HTTPDSLv3) :
  while_loop fuel conditionStr loopBody 0 results hd = (Ok (results', n), hd') ->
  0 <= n <= 1000 /\ exists added, results' = (results ++ added)%list.
Proof.
  intros H. apply while_loop_counts in H. destruct H as (H1 & H2 & H3).
  split; [lia | exact H3].
Qed.

(** X15: the [while] of the block preprocessor understands one shape of
    condition, [<variable> <operator> <number>].  With a condition of any
    other number of words ([AND]/[OR], a lone variable), or whose first
    word names no variable, the loop runs no pass: it writes nothing (not
    even [_iteration]) and reports 0. *)
Theorem while_runs_no_pass
        (fuel : nat) (conditionStr : string) (loopBody : list string)
        (results : list Value) (hd : HTTPDSLv3) :
  length (strings.Fields conditionStr) <> 3%nat
  \/ variables hd !! strings.TrimPrefix (nth 0 (strings.Fields conditionStr) "") "$" = None ->
  inline_condition conditionStr hd = false
  /\ while_loop (S fuel) conditionStr loopBody 0 results hd = (Ok (results, 0), hd).
Proof.
  intros Hc.
  assert (Hi : inline_condition conditionStr hd = false).
  { unfold inline_condition.
    destruct (strings.Fields conditionStr) as [| w [| o [| r [| x l]]]]; try reflexivity.
    destruct Hc as [Hc | Hc]; [cbn in Hc; lia |]. cbn [nth] in Hc. cbv zeta. now rewrite Hc. }
  split; [exact Hi |].
  rewrite while_loop_S. unfold while_loop_step. change (0 <? 1000) with true. cbv iota.
  unfold bind, get. cbv beta iota zeta. rewrite Hi. reflexivity.
Qed.

Definition is_skipped (line : string) : bool :=
  let t := strings.TrimSpace line in
  String.eqb t "" || strings.HasPrefix t "#" || strings.HasPrefix t "//".

Lemma parse_lines_skips (lines : list string) :
  forallb is_skipped lines = true ->
  forall (d fuel i : nat) (results : list Value) (hd : HTTPDSLv3),
    (length lines - i <= d)%nat -> (d < fuel)%nat ->
    parse_lines fuel lines i results hd = (Ok results, hd).
Proof.
  intros Hs. induction d as [| d IH]; intros fuel i results hd Hd Hf.
  - destruct fuel as [| fuel]; [lia |]. rewrite parse_lines_S. unfold parse_lines_step.
    rewrite (proj2 (nth_error_None lines i)) by lia. reflexivity.
  - destruct fuel as [| fuel]; [lia |]. rewrite parse_lines_S. unfold parse_lines_step.
    destruct (nth_error lines i) as [raw |] eqn:Hn; [| reflexivity].
    cbv zeta.
    assert (Hr : is_skipped raw = true).
    { rewrite forallb_forall in Hs. apply Hs. eapply nth_error_In. exact Hn. }
    unfold is_skipped in Hr. cbv zeta in Hr. rewrite Hr.
    apply IH; lia.
Qed.

(** X16: a script of blank lines and comments ([#] or [//]) runs
    nothing: it returns no result and the interpreter is as it was. *)
Theorem comments_run_nothing (fuel : nat) (code : string) (hd : HTTPDSLv3) :
  forallb is_skipped (strings.Split code newline) = true ->
  (length (strings.Split code newline) + 1 < fuel)%nat ->
  ParseWithBlockSupport fuel code hd = (Ok [], hd).
Proof.
  intros Hs Hf. destruct fuel as [| fuel]; [lia |].
  rewrite ParseWithBlockSupport_S.
  apply (parse_lines_skips _ Hs (length (strings.Split code newline))); lia.
Qed.

Lemma loop_body_skips (pre : list string) :
  forallb (fun line => is_comment_or_blank (strings.TrimSpace line)) pre = true ->
  forall (rest : list string) (fuel i : nat) (results : list Value) (hd : HTTPDSLv3),
    (i <= length pre)%nat -> (length pre - i < fuel)%nat ->
    loop_body fuel (pre ++ rest) i results hd
    = loop_body (fuel - (length pre - i)) (pre ++ rest) (length pre) results hd.
Proof.
  intros Hs rest fuel. induction fuel as [| fuel IH]; intros i results hd Hi Hf; [lia |].
  destruct (Nat.eq_dec i (length pre)) as [-> | Hne].
  - replace (S fuel - (length pre - length pre))%nat with (S fuel) by lia. reflexivity.
  - cbn [loop_body]. unfold loop_body_step at 1.
    destruct (nth_error pre i) as [line |] eqn:Hn.
    2:{ apply nth_error_None in Hn. lia. }
    rewrite (nth_error_app1 pre rest) by lia. rewrite Hn. cbv zeta.
    assert (Hl : is_comment_or_blank (strings.TrimSpace line) = true).
    { rewrite forallb_forall in Hs. apply Hs. eapply nth_error_In. exact Hn. }
    rewrite Hl. rewrite IH by lia. f_equal. lia.
Qed.

(** X17: in a loop body, a [break] or [continue] line reached after
    nothing but blank lines and comments ends the pass at once: the signal
    is returned, no later line of the body is looked at, and the
    interpreter (its context included) is as it was. *)
Theorem loop_body_stops_at_control
        (pre rest : list string) (line : string) (fuel : nat) (hd : HTTPDSLv3) :
  forallb (fun line => is_comment_or_blank (strings.TrimSpace line)) pre = true ->
  (length pre + 1 < fuel)%nat ->
  (strings.TrimSpace line = "break" ->
   ProcessLoopBody fuel (pre ++ line :: rest) hd = (Ok (mkLoopResult [] true false), hd))
  /\ (strings.TrimSpace line = "continue" ->
      ProcessLoopBody fuel (pre ++ line :: rest) hd = (Ok (mkLoopResult [] false true), hd)).
Proof.
  intros Hs Hf. destruct fuel as [| fuel]; [lia |].
  assert (Hgo : ProcessLoopBody (S fuel) (pre ++ line :: rest) hd
                = loop_body (fuel - length pre) (pre ++ line :: rest) (length pre) [] hd).
  { cbn [ProcessLoopBody]. rewrite (loop_body_skips pre Hs) by lia. f_equal. lia. }
  rewrite Hgo. destruct (fuel - length pre)%nat as [| f] eqn:Hfl; [lia |].
  cbn [loop_body]. unfold loop_body_step.
  rewrite nth_error_app2 by lia. rewrite Nat.sub_diag. cbn [nth_error]. cbv zeta.
  split; intros ->; reflexivity.
Qed.
End Loops.

Lemma while_loop_reports_at_most_1000_witness :
  let hd := SetVariable "c" (VFloat 0%float) (NewHTTPDSLv3 []) in
  exists results n hd',
    while_loop (E := Ref.env false) 20 "$c < 2" ["set $c $c + 1"] 0 [] hd
    = (Ok (results, n), hd')
    /\ 0 <= n <= 1000 /\ exists added, results = ([] ++ added)%list.
Proof.
  intros hd.
  destruct (while_loop (E := Ref.env false) 20 "$c < 2" ["set $c $c + 1"] 0 [] hd)
    as [[[results n] | m | m |] hd'] eqn:Hr;
    try (vm_compute in Hr; discriminate).
  exists results, n, hd'. split; [reflexivity |].
  exact (while_loop_reports_at_most_1000 (E := Ref.env false) _ _ _ _ _ _ _ _ Hr).
Defined.

Lemma while_runs_no_pass_witness :
  let hd := SetVariable "a" (VFloat 0%float) (NewHTTPDSLv3 []) in
  inline_condition (E := Ref.env false) "$a < 3 AND $a >= 0" hd = false
  /\ while_loop (E := Ref.env false) 5 "$a < 3 AND $a >= 0" ["set $a $a + 1"] 0 [] hd
     = (Ok ([], 0), hd).
Proof.
  intros hd.
  apply (while_runs_no_pass (E := Ref.env false) 4 "$a < 3 AND $a >= 0" ["set $a $a + 1"] [] hd).
  left. vm_compute. discriminate.
Defined.

Lemma comments_run_nothing_witness :
  let code := "# setup" +:+ newline +:+ newline +:+ "   // nothing yet" in
  ParseWithBlockSupport (E := Ref.env false) 5 code (NewHTTPDSLv3 []) = (Ok [], NewHTTPDSLv3 []).
Proof.
  intros code.
  apply (comments_run_nothing (E := Ref.env false) 5 code (NewHTTPDSLv3 []));
    [vm_compute; reflexivity | vm_compute; lia].
Defined.

Lemma loop_body_stops_at_control_witness :
  ProcessLoopBody (E := Ref.env false) 4 (["# skip the rest"; ""] ++ ["  break"; "set $x 1"])
                  (NewHTTPDSLv3 [])
  = (Ok (mkLoopResult [] true false), NewHTTPDSLv3 []).
Proof.
  apply (loop_body_stops_at_control (E := Ref.env false) ["# skip the rest"; ""] ["set $x 1"]
           "  break" 4 (NewHTTPDSLv3 [])); [reflexivity | cbn; lia | reflexivity].
Defined.

(* ===================================================================== *)
(** ** Arrays: bounds, [split] and the items of [foreach] *)
(* ===================================================================== *)

Lemma prefix_append_drop (p s : string) :
  String.prefix p s = true -> s = p +:+ strings.drop (strings.len p) s.
Proof.
  revert s. induction p as [| c p IH]; intros s; [reflexivity |].
  destruct s as [| d s]; cbn [String.prefix]; [discriminate |].
  destruct (ascii_dec c d) as [<- | _]; [| discriminate].
  intros H. change (String c s = String c (p +:+ strings.drop (strings.len p) s)).
  f_equal. apply IH. exact H.
Qed.

(** Where [index_from] finds [sep], the text is what precedes it, [sep]
    and what follows. *)
Lemma index_from_split (sep s : string) :
  forall j i, strings.index_from s sep j = Some i ->
              exists k, i = (j + k)%nat
                        /\ s = strings.take k s +:+ sep
                                 +:+ strings.drop (k + strings.len sep) s.
Proof.
  induction s as [| c s IH]; intros j i; cbn [strings.index_from].
  - destruct (String.prefix sep "") eqn:Hp; [| discriminate].
    intros [= <-]. exists O. split; [lia |]. apply (prefix_append_drop sep "" Hp).
  - destruct (String.prefix sep (String c s)) eqn:Hp.
    + intros [= <-]. exists O. split; [lia |]. apply (prefix_append_drop _ _ Hp).
    + intros H. apply IH in H. destruct H as (k & -> & Hs).
      exists (S k). split; [lia |].
      change (String c s = String c (strings.take k s +:+ sep
                                       +:+ strings.drop (k + strings.len sep) s)).
      f_equal. exact Hs.
Qed.

Lemma cut_not_empty (k : nat) (s sep : string) : strings.cut k s sep <> [].
Proof.
  destruct k as [| k]; cbn [strings.cut]; [discriminate |].
  destruct (strings.index_from s sep 0); discriminate.
Qed.

Lemma Join_cons (a : string) (l : list string) (sep : string) :
  l <> [] -> strings.Join (a :: l) sep = a +:+ sep +:+ strings.Join l sep.
Proof. destruct l; [contradiction | reflexivity]. Qed.

(** The pieces cut at [sep], joined by [sep], are the text. *)
Lemma Join_cut (k : nat) (sep : string) :
  forall s, strings.Join (strings.cut k s sep) sep = s.
Proof.
  induction k as [| k IH]; intros s; cbn [strings.cut]; [reflexivity |].
  destruct (strings.index_from s sep 0) as [i |] eqn:Hi; [| reflexivity].
  rewrite Join_cons by apply cut_not_empty. rewrite IH.
  apply index_from_split in Hi. destruct Hi as (j & -> & Hs). symmetry. exact Hs.
Qed.

Lemma get_in_range (s : string) :
  forall n, (n < strings.len s)%nat -> exists c, String.get n s = Some c.
Proof.
  unfold strings.len. induction s as [| c s IH]; intros n Hn; cbn in Hn; [lia |].
  destruct n as [| n]; cbn [String.get]; [eauto | apply IH; lia].
Qed.

Section ArrayFacts.
Context {E : GoEnv}.

(** X18: [length] and indexing agree on every variable.  [$a[i]] returns
    an element exactly when [0 <= i < length $a], and fails with an error
    otherwise: a negative index, an index past the end, an empty list, a
    variable that holds no array or is not defined; it never reads out of
    bounds, and neither function writes the interpreter. *)
Theorem array_index_within_length (variable : string) (hd : HTTPDSLv3) :
  exists n,
    lengthFunction variable hd = (Ok (VInt n), hd) /\ 0 <= n
    /\ forall index,
        (0 <= index < n ->
         exists v, array_element (strings.TrimPrefix variable "$") index hd = (Ok v, hd))
        /\ (~ 0 <= index < n ->
            exists msg, array_element (strings.TrimPrefix variable "$") index hd
                        = (Err msg, hd)).
Proof.
  unfold lengthFunction, array_element, bind, get, ret, fail. cbv zeta.
  set (varName := strings.TrimPrefix variable "$").
  assert (Hr : forall index n, 0 <= index < n -> (0 <=? index) && (index <? n) = true).
  { intros. apply andb_true_iff. split; [apply Z.leb_le | apply Z.ltb_lt]; lia. }
  assert (Hn : forall index n, ~ 0 <= index < n -> (0 <=? index) && (index <? n) = false).
  { intros index n H. apply andb_false_iff.
    destruct (Z.leb_spec 0 index); [right; apply Z.ltb_ge; lia | left; reflexivity]. }
  destruct (variables hd !! varName) as [[| b | i | i | f | v | v | m] |];
    try (exists 0; split; [reflexivity | split; [lia |]]; intros index; split;
         [lia | intros _; eexists; reflexivity]).
  - destruct (strings.HasPrefix v "[" && strings.HasSuffix v "]").
    + destruct (String.eqb (strings.TrimSpace (strings.Trim v "[]")) "").
      * exists 0. split; [reflexivity | split; [lia |]]. intros index. split;
          [lia | intros _; eexists; reflexivity].
      * eexists. split; [reflexivity | split; [lia |]]. intros index. split; intros H.
        -- rewrite (Hr _ _ H). eexists. reflexivity.
        -- rewrite (Hn _ _ H). eexists. reflexivity.
    + eexists. split; [reflexivity | split; [lia |]]. intros index. split; intros H.
      * rewrite (Hr _ _ H).
        destruct (get_in_range v (Z.to_nat index) ltac:(lia)) as [c ->].
        eexists. reflexivity.
      * rewrite (Hn _ _ H). eexists. reflexivity.
  - eexists. split; [reflexivity | split; [lia |]]. intros index. split; intros H.
    + rewrite (Hr _ _ H). eexists. reflexivity.
    + rewrite (Hn _ _ H). eexists. reflexivity.
Qed.

(** X19: [split $v "d"] on a text and a delimiter that is not empty gives
    an array of texts that is never empty and whose items, joined by the
    delimiter, are the text again; so [length] of the result is at least
    one, also for the empty text. *)
Theorem split_then_join (variable lexeme text : string) (hd : HTTPDSLv3) :
  variables hd !! strings.TrimPrefix variable "$" = Some (VString text) ->
  unquoteString lexeme <> "" ->
  exists parts,
    splitFunction variable lexeme hd = (Ok (VSlice (map VString parts)), hd)
    /\ parts <> []
    /\ strings.Join parts (unquoteString lexeme) = text
    /\ lengthFunction "$parts" (SetVariable "parts" (VSlice (map VString parts)) hd)
       = (Ok (VInt (Z.of_nat (length parts))),
          SetVariable "parts" (VSlice (map VString parts)) hd).
Proof.
  intros Hv Hd. unfold splitFunction, bind, get, ret. cbv zeta. rewrite Hv.
  exists (strings.Split text (unquoteString lexeme)).
  assert (Hs : strings.Split text (unquoteString lexeme)
               = strings.cut (strings.len text) text (unquoteString lexeme)).
  { unfold strings.Split. destruct (unquoteString lexeme); [contradiction | reflexivity]. }
  split; [reflexivity |]. rewrite Hs. split; [apply cut_not_empty |].
  split; [apply Join_cut |].
  unfold lengthFunction, bind, get, ret, SetVariable. cbv zeta. cbn [variables].
  change (strings.TrimPrefix "$parts" "$") with "parts".
  rewrite lookup_insert_eq, length_map. reflexivity.
Qed.

Lemma flat_map_at_most {A B} (f : A -> list B) (l : list A) :
  (forall a, length (f a) <= 1)%nat -> (length (flat_map f l) <= length l)%nat.
Proof.
  intros Hf. induction l as [| a l IH]; [cbn; lia |].
  cbn [flat_map]. rewrite length_app. specialize (Hf a). cbn [length]. lia.
Qed.

(** X20: the items a [foreach] visits in a variable that holds a
    bracketed list are texts, none of them empty, and there are at most
    [length $v] of them: the empty items that [length] counts are
    skipped by [foreach]. *)
Theorem foreach_items_of_a_list (listPart text : string) (hd : HTTPDSLv3) :
  strings.HasPrefix listPart "$" = true ->
  variables hd !! strings.TrimPrefix listPart "$" = Some (VString text) ->
  strings.HasPrefix text "[" = true ->
  strings.HasSuffix text "]" = true ->
  exists n,
    lengthFunction listPart hd = (Ok (VInt n), hd)
    /\ Z.of_nat (length (foreach_items listPart hd)) <= n
    /\ Forall (fun item => exists s, item = VString s /\ s <> "") (foreach_items listPart hd).
Proof.
  intros Hp Hv Hb He.
  assert (Hl : strings.HasPrefix listPart "[" = false).
  { unfold strings.HasPrefix in *. destruct listPart as [| c l]; [discriminate |].
    cbn [String.prefix] in *. destruct (ascii_dec "$" c) as [<- | _]; [reflexivity | discriminate]. }
  unfold lengthFunction, foreach_items, bind, get, ret. cbv zeta.
  rewrite Hl, Hp, Hv, Hb, He. cbn [andb]. unfold list_items.
  destruct (String.eqb (strings.TrimSpace (strings.Trim text "[]")) "").
  - exists 0. repeat split; [cbn; lia | constructor].
  - eexists. split; [reflexivity |]. split.
    + apply inj_le. apply flat_map_at_most. intros a. cbv zeta.
      destruct (String.eqb _ ""); cbn; lia.
    + apply Forall_flat_map. apply Forall_forall. intros part _. cbv zeta.
      destruct (String.eqb _ "") eqn:Hq; constructor; [| constructor].
      eexists. split; [reflexivity |]. apply String.eqb_neq. exact Hq.
Qed.
End ArrayFacts.

Lemma split_then_join_witness :
  let hd := SetVariable "csv" (VString "a,b,,c") (NewHTTPDSLv3 []) in
  exists parts,
    splitFunction (E := Ref.env false) "$csv" (quoted ",") hd
    = (Ok (VSlice (map VString parts)), hd)
    /\ parts <> []
    /\ strings.Join parts (unquoteString (quoted ",")) = "a,b,,c"
    /\ lengthFunction "$parts"
                      (SetVariable "parts" (VSlice (map VString parts)) hd)
       = (Ok (VInt (Z.of_nat (length parts))),
          SetVariable "parts" (VSlice (map VString parts)) hd).
Proof.
  intros hd.
  apply (split_then_join (E := Ref.env false) "$csv" (quoted ",") "a,b,,c" hd);
    [vm_compute; reflexivity | vm_compute; discriminate].
Defined.

Lemma foreach_items_of_a_list_witness :
  let hd := SetVariable "l" (VString "[a, ,b]") (NewHTTPDSLv3 []) in
  exists n,
    lengthFunction "$l" hd = (Ok (VInt n), hd)
    /\ Z.of_nat (length (foreach_items "$l" hd)) <= n
    /\ Forall (fun item => exists s, item = VString s /\ s <> "") (foreach_items "$l" hd).
Proof.
  intros hd.
  apply (foreach_items_of_a_list "$l" "[a, ,b]" hd);
    vm_compute; reflexivity.
Defined.

(** [length] counts the empty item that [foreach] skips. *)
Example length_counts_what_foreach_skips :
  let hd := SetVariable "l" (VString "[a, ,b]") (NewHTTPDSLv3 []) in
  fst (lengthFunction "$l" hd) = Ok (VInt 3)
  /\ foreach_items "$l" hd = [VString "a"; VString "b"]
  /\ fst (array_element "l" 1 hd) = Ok (VString "").
Proof. vm_compute. repeat split. Qed.


(* ===================================================================== *)
(** ** Conditions: [EvaluateCondition], [Compare], [CompareValues] *)
(* ===================================================================== *)

Lemma len_take_le (k : nat) (s : string) : (strings.len (strings.take k s) <= strings.len s)%nat.
Proof.
  unfold strings.len. revert s. induction k as [| k IH]; intros [| c s]; cbn; try lia.
  specialize (IH s). lia.
Qed.

Lemma len_drop_le (k : nat) (s : string) : (strings.len (strings.drop k s) <= strings.len s)%nat.
Proof.
  unfold strings.len. revert s. induction k as [| k IH]; intros [| c s]; cbn; try lia.
  specialize (IH s). lia.
Qed.

Lemma len_trimLeftFunc_le (f : ascii -> bool) (s : string) :
  (strings.len (strings.trimLeftFunc f s) <= strings.len s)%nat.
Proof.
  unfold strings.len. induction s as [| c s IH]; cbn; [lia |].
  destruct (f c); cbn; lia.
Qed.

Lemma len_trimRightFunc_le (f : ascii -> bool) (s : string) :
  (strings.len (strings.trimRightFunc f s) <= strings.len s)%nat.
Proof.
  unfold strings.len. induction s as [| c s IH]; cbn; [lia |].
  destruct (strings.trimRightFunc f s); [destruct (f c) |]; cbn in *; lia.
Qed.

Lemma len_TrimSpace_le (s : string) : (strings.len (strings.TrimSpace s) <= strings.len s)%nat.
Proof.
  unfold strings.TrimSpace, strings.trimRightSpace, strings.trimLeftSpace.
  rewrite len_reverse.
  etransitivity; [apply len_trimLeftRunes_le |]. rewrite len_reverse.
  apply len_trimLeftRunes_le.
Qed.

(** Every piece cut from a text is no longer than the text. *)
Lemma cut_pieces_le (sep : string) (k : nat) :
  forall s p, In p (strings.cut k s sep) -> (strings.len p <= strings.len s)%nat.
Proof.
  induction k as [| k IH]; intros s p; cbn [strings.cut].
  - intros [<- | []]. lia.
  - destruct (strings.index_from s sep 0) as [i |]; [| intros [<- | []]; lia].
    intros [<- | Hin]; [apply len_take_le |].
    apply IH in Hin. pose proof (len_drop_le (i + strings.len sep) s). lia.
Qed.

(** The pieces of a text that holds [sep] are shorter than the text. *)
Lemma Split_pieces_shorter (s sep : string) (p : string) :
  sep <> "" -> strings.Contains s sep = true -> In p (strings.Split s sep) ->
  (strings.len p < strings.len s)%nat.
Proof.
  intros Hsep Hc. unfold strings.Split, strings.Contains in *.
  destruct sep as [| c sep]; [contradiction |]. cbn [String.eqb].
  destruct (strings.index_from s (String c sep) 0) as [i |] eqn:Hi; [| discriminate].
  destruct (strings.len s) as [| k] eqn:Hl.
  { apply index_from_split in Hi. destruct Hi as (j & _ & Hs).
    apply (f_equal strings.len) in Hs. rewrite !len_append in Hs.
    unfold strings.len in *. cbn in Hs. lia. }
  cbn [strings.cut]. rewrite Hi.
  pose proof Hi as Hi'. apply index_from_split in Hi'. destruct Hi' as (j & Hj & Hs).
  cbn in Hj. subst j.
  apply (f_equal strings.len) in Hs. rewrite !len_append in Hs.
  assert (Hc1 : (1 <= strings.len (String c sep))%nat) by (unfold strings.len; cbn; lia).
  intros [<- | Hin]; [lia |].
  apply cut_pieces_le in Hin. lia.
Qed.

Lemma existsb_ext_in {A} (f g : A -> bool) (l : list A) :
  (forall x, In x l -> f x = g x) -> existsb f l = existsb g l.
Proof.
  induction l as [| a l IH]; intros H; [reflexivity |].
  cbn. rewrite (H a) by (left; reflexivity). f_equal. apply IH. intros x Hx. apply H. now right.
Qed.

Lemma forallb_ext_in {A} (f g : A -> bool) (l : list A) :
  (forall x, In x l -> f x = g x) -> forallb f l = forallb g l.
Proof.
  induction l as [| a l IH]; intros H; [reflexivity |].
  cbn. rewrite (H a) by (left; reflexivity). f_equal. apply IH. intros x Hx. apply H. now right.
Qed.

Section ConditionFacts.
Context {E : GoEnv}.

(** The recursion of [EvaluateCondition] is on shorter texts: from the
    length of the text on, the number of steps allowed plays no part. *)
Lemma EvaluateCondition_rec_stable (hd : HTTPDSLv3) (n : nat) :
  forall (s : string) (fuel fuel' : nat),
    (strings.len s <= n)%nat -> (strings.len s < fuel)%nat -> (strings.len s < fuel')%nat ->
    EvaluateCondition_rec fuel s hd = EvaluateCondition_rec fuel' s hd.
Proof.
  induction n as [| n IH]; intros s fuel fuel' Hn Hf Hf';
    (destruct fuel as [| fuel]; [lia |]); (destruct fuel' as [| fuel']; [lia |]);
    cbn [EvaluateCondition_rec].
  - destruct s as [| c s]; [reflexivity | unfold strings.len in Hn; cbn in Hn; lia].
  - destruct (strings.Contains s " OR ") eqn:Ho.
    { apply existsb_ext_in. intros p Hp.
      pose proof (Split_pieces_shorter s " OR " p ltac:(discriminate) Ho Hp).
      pose proof (len_TrimSpace_le p). apply IH; lia. }
    destruct (strings.Contains s " AND ") eqn:Ha; [| reflexivity].
    apply forallb_ext_in. intros p Hp.
    pose proof (Split_pieces_shorter s " AND " p ltac:(discriminate) Ha Hp).
    pose proof (len_TrimSpace_le p). apply IH; lia.
Qed.

(** X21: [EvaluateCondition] cuts at [ OR ] first and, in a text without
    it, at [ AND ], and evaluates every piece (trimmed) as a condition of
    its own: [AND] binds tighter than [OR], a text with neither is a
    simple condition, and the evaluation has the value the recursion of
    the source gives on every text. *)
Theorem EvaluateCondition_cuts_OR_then_AND (conditionStr : string) (hd : HTTPDSLv3) :
  EvaluateCondition conditionStr hd
  = if strings.Contains conditionStr " OR " then
      existsb (fun part => EvaluateCondition (strings.TrimSpace part) hd)
              (strings.Split conditionStr " OR ")
    else if strings.Contains conditionStr " AND " then
      forallb (fun part => EvaluateCondition (strings.TrimSpace part) hd)
              (strings.Split conditionStr " AND ")
    else EvaluateSimpleCondition conditionStr hd.
Proof.
  unfold EvaluateCondition at 1. cbn [EvaluateCondition_rec].
  destruct (strings.Contains conditionStr " OR ") eqn:Ho.
  { apply existsb_ext_in. intros p Hp. unfold EvaluateCondition.
    pose proof (Split_pieces_shorter conditionStr " OR " p ltac:(discriminate) Ho Hp).
    pose proof (len_TrimSpace_le p).
    apply (EvaluateCondition_rec_stable hd (strings.len conditionStr)); lia. }
  destruct (strings.Contains conditionStr " AND ") eqn:Ha; [| reflexivity].
  apply forallb_ext_in. intros p Hp. unfold EvaluateCondition.
  pose proof (Split_pieces_shorter conditionStr " AND " p ltac:(discriminate) Ha Hp).
  pose proof (len_TrimSpace_le p).
  apply (EvaluateCondition_rec_stable hd (strings.len conditionStr)); lia.
Qed.
End ConditionFacts.

Section Comparing.
Context {E : GoEnv}.

(** X22: a lone variable as a condition ([if $x then]) is read by the
    block preprocessor as [toBool] reads the value, for every value but a
    [float64] equal to zero, which alone is false here and true there; a
    variable that is not defined is false. *)
Theorem lone_variable_condition (word : string) (hd : HTTPDSLv3) :
  strings.Fields word = [word] ->
  match variables hd !! strings.TrimPrefix word "$" with
  | Some (VFloat f) =>
      EvaluateSimpleCondition word hd = negb (PrimFloat.eqb f 0%float)
      /\ toBool (VFloat f) = true
  | Some value => EvaluateSimpleCondition word hd = toBool value
  | None => EvaluateSimpleCondition word hd = false
  end.
Proof.
  intros Hw. unfold EvaluateSimpleCondition. rewrite Hw. cbv zeta.
  destruct (variables hd !! strings.TrimPrefix word "$") as [[| b | i | i | f | v | v | m] |];
    try reflexivity.
  - split; reflexivity.
  - cbn [toBool]. destruct (String.eqb v ""), (String.eqb v "0"), (String.eqb v "false");
      reflexivity.
Qed.
End Comparing.

Lemma lone_variable_condition_witness :
  let hd := SetVariable "x" (VFloat 0%float) (NewHTTPDSLv3 []) in
  EvaluateSimpleCondition (E := Ref.env false) "$x" hd = negb (PrimFloat.eqb 0%float 0%float)
  /\ toBool (VFloat 0%float) = true.
Proof.
  intros hd.
  exact (lone_variable_condition (E := Ref.env false) "$x" hd eq_refl).
Defined.

(* ===================================================================== *)
(** ** History and retries *)
(* ===================================================================== *)

(** X23: the history is a bounded buffer.  With a positive bound, adding
    an entry puts it last and keeps the most recent entries, at most the
    bound of them; with a bound of zero or less nothing is recorded. *)
Theorem addToHistory_keeps_the_last
        (req : string * string) (resp : Z) (reqBody respBody : string) (duration now : Z)
        (st : HistoryState) :
  let entry := mkRequestHistory req resp reqBody respBody duration now in
  let st' := addToHistory req resp reqBody respBody duration now st in
  maxHistory st' = maxHistory st
  /\ (maxHistory st <= 0 -> st' = st)
  /\ (0 < maxHistory st ->
      Z.of_nat (length (history st'))
      = Z.min (Z.of_nat (length (history st)) + 1) (maxHistory st)
      /\ (exists front, history st' = (front ++ [entry])%list)
      /\ (exists dropped, (history st ++ [entry])%list = (dropped ++ history st')%list)).
Proof.
  cbv zeta. unfold addToHistory.
  destruct (maxHistory st <=? 0) eqn:Hm.
  - apply Z.leb_le in Hm. repeat split; try reflexivity; lia.
  - apply Z.leb_gt in Hm. cbv zeta. cbn [maxHistory history].
    split; [reflexivity |]. split; [lia |]. intros _.
    set (entry := mkRequestHistory req resp reqBody respBody duration now).
    set (h := (history st ++ [entry])%list).
    assert (Hl : length h = S (length (history st)))
      by (unfold h; rewrite length_app; cbn; lia).
    destruct (maxHistory st <? Z.of_nat (length h)) eqn:Hc.
    + apply Z.ltb_lt in Hc.
      set (k := Z.to_nat (Z.of_nat (length h) - maxHistory st)).
      assert (Hk : (k <= length (history st))%nat) by (unfold k; lia).
      repeat split.
      * rewrite length_skipn. unfold k. lia.
      * unfold h. rewrite skipn_app.
        replace (k - length (history st))%nat with O by lia. cbn [skipn]. eauto.
      * exists (firstn k h). symmetry. apply firstn_skipn.
    + apply Z.ltb_ge in Hc. repeat split.
      * lia.
      * unfold h. eauto.
      * exists []. reflexivity.
Qed.

Lemma addToHistory_keeps_the_last_witness :
  let st := {| history := [mkRequestHistory ("GET", "/a") 200 "" "a" 5 1;
                           mkRequestHistory ("GET", "/b") 404 "" "b" 6 2];
               maxHistory := 2 |} in
  let st' := addToHistory ("GET", "/c") 200 "" "c" 7 3 st in
  Z.of_nat (length (history st')) = Z.min (Z.of_nat (length (history st)) + 1) (maxHistory st)
  /\ (exists front, history st' = (front ++ [mkRequestHistory ("GET", "/c") 200 "" "c" 7 3])%list)
  /\ (exists dropped,
         (history st ++ [mkRequestHistory ("GET", "/c") 200 "" "c" 7 3])%list
         = (dropped ++ history st')%list).
Proof.
  intros st st'.
  apply (addToHistory_keeps_the_last ("GET", "/c") 200 "" "c" 7 3 st). reflexivity.
Defined.

Section RetryFacts.
Context {E : GoEnv}.

(** One call of [Request] hands at most one request to the transport, and
    what it returns on success is the status it stored. *)
Lemma Request_sends_at_most_one (method urlStr : string) (options : option RequestOptions)
      (he : HTTPEngine) :
  (length (sent (snd (Request method urlStr options he))) <= S (length (sent he)))%nat.
Proof.
  unfold Request. destruct (url_Parse _) as [p |]; [| cbn; lia].
  destruct (match client he with [] => _ | a :: _ => a end) as [err el | st h [b |] re el];
    cbn [snd sent]; rewrite length_app; cbn; lia.
Qed.

Lemma Request_returns_its_status (method urlStr : string) (options : option RequestOptions)
      (he he' : HTTPEngine) (result : Value) :
  Request method urlStr options he = (Ok result, he') ->
  exists response, result = VMap response
                   /\ map_index response "status" = Some (VInt (lastStatusCode he')).
Proof.
  unfold Request. destruct (url_Parse _) as [p |]; [| discriminate].
  destruct (match client he with [] => _ | a :: _ => a end) as [err el | st h [b |] re el];
    intros H; inversion H; subst; clear H.
  eexists. split; reflexivity.
Qed.

Lemma Request_never_panics (method urlStr : string) (options : option RequestOptions)
      (he : HTTPEngine) :
  match fst (Request method urlStr options he) with
  | Ok _ | Err _ => True
  | _ => False
  end.
Proof.
  unfold Request. destruct (url_Parse _) as [p |]; [| exact I].
  destruct (match client he with [] => _ | a :: _ => a end) as [err el | st h [b |] re el];
    exact I.
Qed.

Lemma retry_loop_bounds (policy : RetryPolicy) (method urlStr : string)
      (options : option RequestOptions) (left : nat) :
  forall (attempt backoff : Z) (lastErr : option string) (slept : list Z) (he : HTTPEngine),
    0 <= attempt ->
    (1 < attempt -> backoff <= MaxBackoff policy) ->
    let '(r, he', slept') :=
      retry_loop policy method urlStr options left attempt backoff lastErr slept he in
    (length (sent he') <= length (sent he) + left)%nat
    /\ (exists pauses,
           slept' = (slept ++ pauses)%list
           /\ (length pauses <= if (0 <? attempt)%Z then left else left - 1)%nat
           /\ Forall (fun d => d <= MaxBackoff policy)
                     (if 1 <? attempt then pauses else tl pauses))
    /\ (forall result, r = Ok result ->
          exists response,
            result = VMap response
            /\ map_index response "status" = Some (VInt (lastStatusCode he'))
            /\ existsb (Z.eqb (lastStatusCode he')) (RetryOn policy) = false).
Proof.
  induction left as [| left IH]; intros attempt backoff lastErr slept he Ha Hb;
    cbn [retry_loop].
  - split; [lia |]. split; [| discriminate].
    exists []. rewrite app_nil_r. split; [reflexivity |].
    split; [destruct (0 <? attempt); cbn; lia | destruct (1 <? attempt); constructor].
  - cbv zeta.
    set (slept1 := if 0 <? attempt then (slept ++ [backoff])%list else slept).
    set (backoff1 := if 0 <? attempt then _ else backoff).
    assert (Hb1 : 1 < attempt + 1 -> backoff1 <= MaxBackoff policy).
    { intros H1. unfold backoff1. destruct (0 <? attempt) eqn:Hp; [| apply Z.ltb_ge in Hp; lia].
      destruct (MaxBackoff policy <? _) eqn:Hc; [lia | apply Z.ltb_ge in Hc; lia]. }
    assert (Hrec : forall lastErr' he',
               (length (sent he') <= S (length (sent he)))%nat ->
               let '(r, he'', slept') :=
                 retry_loop policy method urlStr options left (attempt + 1) backoff1 lastErr'
                            slept1 he' in
               (length (sent he'') <= length (sent he) + S left)%nat
               /\ (exists pauses,
                      slept' = (slept ++ pauses)%list
                      /\ (length pauses <= if (0 <? attempt)%Z then S left else S left - 1)%nat
                      /\ Forall (fun d => d <= MaxBackoff policy)
                                (if 1 <? attempt then pauses else tl pauses))
               /\ (forall result, r = Ok result ->
                     exists response,
                       result = VMap response
                       /\ map_index response "status" = Some (VInt (lastStatusCode he''))
                       /\ existsb (Z.eqb (lastStatusCode he'')) (RetryOn policy) = false)).
    { intros lastErr' he1 Hs1.
      specialize (IH (attempt + 1) backoff1 lastErr' slept1 he1 ltac:(lia) Hb1).
      destruct (retry_loop policy method urlStr options left (attempt + 1) backoff1 lastErr'
                           slept1 he1) as [[r he2] slept2].
      destruct IH as (Hs & (pauses & -> & Hlen & Hcap) & Hres).
      replace (0 <? attempt + 1) with true in Hlen by (symmetry; apply Z.ltb_lt; lia).
      split; [lia |]. split; [| exact Hres].
      unfold slept1. destruct (0 <? attempt) eqn:Hp.
      - exists (backoff :: pauses). rewrite <- app_assoc. split; [reflexivity |].
        split; [cbn; lia |].
        apply Z.ltb_lt in Hp.
        destruct (1 <? attempt) eqn:Hq.
        + apply Z.ltb_lt in Hq.
          replace (1 <? attempt + 1) with true in Hcap by (symmetry; apply Z.ltb_lt; lia).
          constructor; [apply Hb; lia | exact Hcap].
        + apply Z.ltb_ge in Hq.
          replace (1 <? attempt + 1) with true in Hcap by (symmetry; apply Z.ltb_lt; lia).
          exact Hcap.
      - exists pauses. split; [reflexivity |]. split; [lia |].
        apply Z.ltb_ge in Hp.
        replace (1 <? attempt) with false by (symmetry; apply Z.ltb_ge; lia).
        replace (1 <? attempt + 1) with false in Hcap by (symmetry; apply Z.ltb_ge; lia).
        exact Hcap. }
    pose proof (Request_sends_at_most_one method urlStr options he) as Hone.
    pose proof (Request_never_panics method urlStr options he) as Hnp.
    destruct (Request method urlStr options he) as [[result | e | e |] he1] eqn:Hreq;
      cbn [fst snd] in *; try contradiction.
    + apply Request_returns_its_status in Hreq. destruct Hreq as (response & -> & Hst).
      rewrite Hst.
      destruct (existsb (Z.eqb (lastStatusCode he1)) (RetryOn policy)) eqn:Hex;
        [apply Hrec; exact Hone |].
      split; [lia |]. split.
      * unfold slept1. destruct (0 <? attempt) eqn:Hp.
        -- exists [backoff]. split; [reflexivity |]. split; [cbn; lia |].
           destruct (1 <? attempt) eqn:Hq; [| constructor].
           apply Z.ltb_lt in Hq. constructor; [apply Hb; lia | constructor].
        -- exists []. rewrite app_nil_r. split; [reflexivity |]. split; [cbn; lia |].
           destruct (1 <? attempt); constructor.
      * intros result [= <-]. exists response. repeat split; assumption.
    + apply Hrec. exact Hone.
Qed.

(** X24: [RequestWithRetry] under a policy (with [MaxRetries] below the
    largest [int]) makes at most [MaxRetries + 1]
    requests, pausing before every one but the first; every pause after
    the first is at most [MaxBackoff] (the first is [InitialBackoff] as
    given).  A response whose status is listed in [RetryOn] is never
    returned as a success: what is returned is the response the engine
    stored last. *)
Theorem RequestWithRetry_is_bounded
        (policy : RetryPolicy) (method urlStr : string) (options : option RequestOptions)
        (he : HTTPEngine) :
  MaxRetries policy < 2 ^ 63 - 1 ->
  let '(r, he', slept) := RequestWithRetry (Some policy) method urlStr options he in
  (length (sent he') <= length (sent he) + Z.to_nat (MaxRetries policy + 1))%nat
  /\ (length slept <= Z.to_nat (MaxRetries policy + 1) - 1)%nat
  /\ Forall (fun d => d <= MaxBackoff policy) (tl slept)
  /\ (forall result, r = Ok result ->
        exists response,
          result = VMap response
          /\ map_index response "status" = Some (VInt (lastStatusCode he'))
          /\ existsb (Z.eqb (lastStatusCode he')) (RetryOn policy) = false).
Proof.
  intros _. unfold RequestWithRetry.
  pose proof (retry_loop_bounds policy method urlStr options
                (Z.to_nat (MaxRetries policy + 1)) 0 (InitialBackoff policy) None [] he
                ltac:(lia) ltac:(lia)) as H.
  destruct (retry_loop _ _ _ _ _ _ _ _ _ _) as [[r he'] slept].
  destruct H as (Hs & (pauses & -> & Hlen & Hcap) & Hres).
  change (0 <? 0) with false in Hlen. change (1 <? 0) with false in Hcap.
  cbn [app]. repeat split; assumption.
Qed.

(** With no try allowed ([MaxRetries] below zero) [RequestWithRetry] sends
    nothing and fails with [max retries exceeded: <nil>]; with no policy it
    is [Request]. *)
Lemma RequestWithRetry_without_tries
        (policy : RetryPolicy) (method urlStr : string) (options : option RequestOptions)
        (he : HTTPEngine) :
  (MaxRetries policy < 0 ->
   RequestWithRetry (Some policy) method urlStr options he
   = (Err "max retries exceeded: <nil>", he, []))
  /\ RequestWithRetry None method urlStr options he
     = (fst (Request method urlStr options he), snd (Request method urlStr options he), []).
Proof.
  split.
  - intros Hm. unfold RequestWithRetry.
    replace (Z.to_nat (MaxRetries policy + 1)) with O by lia. reflexivity.
  - unfold RequestWithRetry. destruct (Request method urlStr options he). reflexivity.
Qed.
End RetryFacts.

Definition busy_policy : RetryPolicy :=
  {| MaxRetries := 2; InitialBackoff := 100; MaxBackoff := 150;
     Multiplier := 2%float; RetryOn := [503] |}.

Definition busy_engine : HTTPEngine :=
  NewHTTPEngine [RTResponse 503 [] (Some "busy") "" 1%float;
                 RTResponse 200 [] (Some "fine") "" 1%float].

Lemma RequestWithRetry_is_bounded_witness :
  let '(r, he', slept) :=
    RequestWithRetry (E := Ref.env false) (Some busy_policy) "GET" "http://host/x" None
                     busy_engine in
  (length (sent he') <= length (sent busy_engine) + Z.to_nat (MaxRetries busy_policy + 1))%nat
  /\ (length slept <= Z.to_nat (MaxRetries busy_policy + 1) - 1)%nat
  /\ Forall (fun d => d <= MaxBackoff busy_policy) (tl slept)
  /\ (forall result, r = Ok result ->
        exists response,
          result = VMap response
          /\ map_index response "status" = Some (VInt (lastStatusCode he'))
          /\ existsb (Z.eqb (lastStatusCode he')) (RetryOn busy_policy) = false).
Proof.
  apply (RequestWithRetry_is_bounded (E := Ref.env false) busy_policy "GET" "http://host/x"
           None busy_engine).
  vm_compute. reflexivity.
Defined.

(** A status listed in [RetryOn] is retried until the tries are used up;
    the error then names no cause. *)
Example retry_on_status_run :
  let policy := {| MaxRetries := 2; InitialBackoff := 100; MaxBackoff := 150;
                   Multiplier := 2%float; RetryOn := [503] |} in
  let he := NewHTTPEngine [RTResponse 503 [] (Some "busy") "" 1%float;
                           RTResponse 503 [] (Some "busy") "" 1%float;
                           RTResponse 503 [] (Some "busy") "" 1%float;
                           RTResponse 200 [] (Some "late") "" 1%float] in
  let '(r, he', slept) :=
    RequestWithRetry (E := Ref.env false) (Some policy) "GET" "http://host/x" None he in
  r = Err "max retries exceeded: <nil>" /\ length (sent he') = 3%nat /\ slept = [100; 150]
  /\ GetLastStatusCode he' = 503.
Proof. vm_compute. repeat split. Qed.

Example retry_until_answer_run :
  let policy := {| MaxRetries := 3; InitialBackoff := 100; MaxBackoff := 150;
                   Multiplier := 2%float; RetryOn := [503] |} in
  let he := NewHTTPEngine [RTError "connection reset" 1%float;
                           RTResponse 503 [] (Some "busy") "" 1%float;
                           RTResponse 200 [] (Some "fine") "" 1%float] in
  let '(r, he', slept) :=
    RequestWithRetry (E := Ref.env false) (Some policy) "GET" "http://host/x" None he in
  (exists response, r = Ok (VMap response) /\ map_index response "status" = Some (VInt 200))
  /\ length (sent he') = 3%nat /\ slept = [100; 150] /\ GetLastResponse he' = "fine".
Proof. vm_compute. split; [eexists; split; reflexivity | repeat split]. Qed.

(* ===================================================================== *)
(** ** Errors inside an [if] block of a loop body *)
(* ===================================================================== *)

Section ControlWords.
Context {E : GoEnv}.

(** X25: in an [if] block of a loop body an error is looked at as text.
    When the block that runs fails with a message that holds the word
    [break], the error is not returned: the pass ends with the [break]
    signal, with no result, and the loop ends as if [break] had been
    written; the same with [continue]; any other message is returned as
    the error it is. *)
Theorem error_text_is_read_as_control
        (fuel : nat) (first second : string) (rest : list string)
        (msg : string) (hd hd' : HTTPDSLv3) :
  is_if_opener (strings.TrimSpace first) = true ->
  let conditionStr :=
    strings.TrimSuffix (strings.TrimPrefix (strings.TrimSpace first) "if ") " then" in
  let blocks := split_then_else (second :: rest) 0 false [] [] in
  let blockToExecute :=
    if EvaluateCondition conditionStr hd then fst blocks else snd blocks in
  blockToExecute <> [] ->
  ParseWithBlockSupport fuel (strings.Join blockToExecute newline) hd = (Err msg, hd') ->
  ProcessIfBlockWithControl (S fuel) (first :: second :: rest) hd
  = (if strings.Contains msg "break" then Ok (mkLoopResult [] true false)
     else if strings.Contains msg "continue" then Ok (mkLoopResult [] false true)
     else Err msg,
     hd').
Proof.
  intros Ho conditionStr blocks blockToExecute Hne Hrun.
  cbn [ProcessIfBlockWithControl]. unfold ProcessIfBlockWithControl_step.
  unfold is_if_opener in Ho. apply andb_true_iff in Ho. destruct Ho as [Hp Hs].
  cbv zeta. rewrite Hp, Hs. cbn [negb orb].
  unfold bind at 1, get at 1. cbv beta iota zeta.
  fold conditionStr. fold blocks. destruct blocks as [thenBlock elseBlock] eqn:Hb.
  cbn [fst snd] in blockToExecute. fold blockToExecute.
  destruct blockToExecute as [| l ls] eqn:Hx; [contradiction |].
  unfold bind, catch. rewrite Hrun.
  destruct (strings.Contains msg "break"); [reflexivity |].
  destruct (strings.Contains msg "continue"); reflexivity.
Qed.
End ControlWords.

Lemma error_text_is_read_as_control_witness :
  let hd := SetVariable "n" (VFloat 1%float) (NewHTTPDSLv3 []) in
  ProcessIfBlockWithControl (E := Ref.env false) 4
    ["if $n > 0 then"; "set $x $breakfast"; "endif"] hd
  = (Ok (mkLoopResult [] true false), hd).
Proof.
  intros hd.
  apply (error_text_is_read_as_control (E := Ref.env false) 3 "if $n > 0 then"
           "set $x $breakfast" ["endif"] "error at line 1: variable $breakfast not found"
           hd hd); [reflexivity | vm_compute; discriminate | vm_compute; reflexivity].
Defined.

(** Through the entry point: the variable that is not defined ends the
    loop after its first pass, and the script goes on without an error. *)
Example error_with_break_in_its_text_run :
  fst (run false 30
           ["set $n 0"; "repeat 3 times do"; "  set $n $n + 1"; "  if $n > 0 then";
            "    set $x $breakfast"; "  endif"; "endloop"; "print $n"]
           (NewHTTPDSLv3 []))
  = Ok [VString "Variable $n set to 0"; VString "Variable $n set to 1";
        VString "Repeated 1 times"; VString "$n = 1"].
Proof. vm_compute. reflexivity. Qed.

(* ===================================================================== *)
(** ** The main loop on plain lines and on an [if] left open *)
(* ===================================================================== *)

(** A line that the main loop of [ParseWithBlockSupport] hands to the
    grammar as it is: no comment, no request, no block opener and no
    single-line [if ... then ... else]. *)
Definition is_plain (line : string) : bool :=
  negb (String.eqb line "" || strings.HasPrefix line "#" || strings.HasPrefix line "//")
  && negb (isHTTPMethod line)
  && negb (strings.HasPrefix line "if " && strings.HasSuffix line " then")
  && negb (strings.HasPrefix line "repeat " && strings.HasSuffix line " do")
  && negb (strings.HasPrefix line "while " && strings.HasSuffix line " do")
  && negb (strings.HasPrefix line "foreach " && strings.Contains line " in "
           && strings.HasSuffix line " do")
  && negb (strings.HasPrefix line "if " && strings.Contains line " then "
           && strings.Contains line " else " && negb (strings.Contains line "endif")).

Section PlainLines.
Context {E : GoEnv}.

(** The statements of [lines] one after the other, from the line number
    [i] on: each trimmed line through [ParseWithContext], every result
    kept, the first error returned with the number of its line. *)
Fixpoint run_in_order (lines : list string) (i : nat) (results : list Value)
  : M (list Value) :=
  match lines with
  | [] => ret results
  | raw :: rest =>
      let line := strings.TrimSpace raw in
      if is_skipped raw then run_in_order rest (S i) results
      else
        result <- wrap_err (fun e => "error at line " +:+ itoa (Z.of_nat i + 1) +:+ ": " +:+ e)
                           (ParseWithContext line) ;;
        run_in_order rest (S i) (results ++ [result])%list
  end.

Lemma parse_lines_in_order (lines : list string) :
  forall (pre : list string) (fuel : nat) (results : list Value) (hd : HTTPDSLv3),
    forallb (fun raw => is_skipped raw || is_plain (strings.TrimSpace raw)) lines = true ->
    (length lines < fuel)%nat ->
    parse_lines fuel (pre ++ lines) (length pre) results hd
    = run_in_order lines (length pre) results hd.
Proof.
  induction lines as [| raw rest IH]; intros pre fuel results hd Hp Hf;
    (destruct fuel as [| fuel]; [cbn in Hf; lia |]);
    rewrite parse_lines_S; unfold parse_lines_step.
  - rewrite app_nil_r. rewrite (proj2 (nth_error_None pre (length pre))) by lia. reflexivity.
  - rewrite nth_error_app2 by lia. rewrite Nat.sub_diag. cbn [nth_error]. cbv zeta.
    cbn [forallb] in Hp. apply andb_true_iff in Hp. destruct Hp as [Hraw Hrest].
    assert (Hnext : forall rs hd',
               parse_lines fuel (pre ++ raw :: rest) (S (length pre)) rs hd'
               = run_in_order rest (S (length pre)) rs hd').
    { intros rs hd'. specialize (IH (pre ++ [raw])%list fuel rs hd' Hrest).
      rewrite <- app_assoc, length_app in IH. cbn [app length] in IH.
      rewrite Nat.add_1_r in IH. apply IH. cbn in Hf. lia. }
    cbn [run_in_order]. cbv zeta.
    destruct (is_skipped raw) eqn:Hs.
    + unfold is_skipped in Hs. cbv zeta in Hs. rewrite Hs. apply Hnext.
    + cbn [orb] in Hraw. unfold is_plain in Hraw.
      repeat match type of Hraw with
             | (_ && _) = true => apply andb_prop in Hraw; destruct Hraw as [Hraw ?]
             end.
      repeat match goal with
             | H : negb _ = true |- _ => apply negb_true_iff in H
             end.
      repeat match goal with
             | H : ?b = false |- context [if ?b then _ else _] => rewrite H
             end.
      unfold bind. destruct (wrap_err _ _ hd) as [[result | m | m |] hd1]; try reflexivity.
      apply Hnext.
Qed.

(** X26: a script of plain statements, blank lines and comments is run in
    the order of its lines: every statement's result is kept, in order,
    and the first statement that fails stops the script with the number of
    its line (counted from 1, blank lines and comments included) in front
    of its error. *)
Theorem plain_script_runs_in_order (fuel : nat) (code : string) (hd : HTTPDSLv3) :
  forallb (fun raw => is_skipped raw || is_plain (strings.TrimSpace raw))
          (strings.Split code newline) = true ->
  (length (strings.Split code newline) + 1 < fuel)%nat ->
  ParseWithBlockSupport fuel code hd = run_in_order (strings.Split code newline) 0 [] hd.
Proof.
  intros Hp Hf. destruct fuel as [| fuel]; [lia |]. rewrite ParseWithBlockSupport_S.
  apply (parse_lines_in_order _ [] fuel [] hd Hp). lia.
Qed.

Lemma collect_if_left_open (rest : list string) :
  forall (i nestLevel : nat) (thenBlock : list string),
    (1 <= nestLevel)%nat ->
    forallb (fun raw => negb (String.eqb (strings.TrimSpace raw) "endif")
                        && negb (String.eqb (strings.TrimSpace raw) "else")) rest = true ->
    exists thenBlock',
      collect_if rest i nestLevel false thenBlock [] = (thenBlock', [], (i + length rest)%nat).
Proof.
  induction rest as [| raw rest IH]; intros i n tb Hn Hf; cbn [collect_if].
  - exists tb. cbn. f_equal. lia.
  - cbn [forallb] in Hf. apply andb_true_iff in Hf. destruct Hf as [Hraw Hrest].
    apply andb_true_iff in Hraw. destruct Hraw as [He Hl].
    apply negb_true_iff in He, Hl. cbv zeta. rewrite He, Hl. cbn [andb].
    cbn [length]. replace (i + S (length rest))%nat with (S i + length rest)%nat by lia.
    destruct (is_if_opener (strings.TrimSpace raw)); [apply IH; [lia | exact Hrest] |].
    destruct (negb (is_comment_or_blank (strings.TrimSpace raw)));
      apply IH; assumption.
Qed.

Lemma if_opener_is_no_other_line (line : string) :
  is_if_opener line = true ->
  String.eqb line "" || strings.HasPrefix line "#" || strings.HasPrefix line "//" = false
  /\ isHTTPMethod line = false.
Proof.
  unfold is_if_opener, isHTTPMethod, strings.HasPrefix.
  destruct line as [| c line]; [discriminate |].
  cbn [String.prefix]. destruct (ascii_dec "i" c) as [<- | Hne]; [| discriminate].
  intros _. split; reflexivity.
Qed.

(** X27: an [if] block whose [endif] is missing is no error.  When the
    condition is false and no later line is [endif] or [else], the main
    loop takes every line to the end of the script for the block and runs
    none of them: it returns the results it had, with the interpreter as
    it was. *)
Theorem open_if_skips_the_rest
        (fuel : nat) (lines : list string) (i : nat) (raw : string)
        (results : list Value) (hd : HTTPDSLv3) :
  nth_error lines i = Some raw ->
  is_if_opener (strings.TrimSpace raw) = true ->
  EvaluateCondition
    (strings.TrimSuffix (strings.TrimPrefix (strings.TrimSpace raw) "if ") " then") hd = false ->
  forallb (fun raw => negb (String.eqb (strings.TrimSpace raw) "endif")
                      && negb (String.eqb (strings.TrimSpace raw) "else"))
          (skipn (S i) lines) = true ->
  parse_lines (S (S fuel)) lines i results hd = (Ok results, hd).
Proof.
  intros Hn Ho Hc Hrest.
  rewrite parse_lines_S. unfold parse_lines_step at 1. rewrite Hn. cbv zeta.
  destruct (if_opener_is_no_other_line _ Ho) as [Hb Hm]. rewrite Hb, Hm.
  unfold is_if_opener in Ho. rewrite Ho.
  unfold bind at 1, get at 1. cbv beta iota zeta. rewrite Hc.
  destruct (collect_if_left_open (skipn (S i) lines) (S i) 1 [] ltac:(lia) Hrest)
    as [tb Hcol].
  rewrite Hcol. unfold bind, ret. cbv beta iota zeta.
  rewrite parse_lines_S. unfold parse_lines_step.
  rewrite (proj2 (nth_error_None lines _)); [reflexivity |].
  rewrite length_skipn.
  assert (i < length lines)%nat by (apply nth_error_Some; congruence). lia.
Qed.
End PlainLines.

Lemma plain_script_runs_in_order_witness :
  let code := "set $a 1" +:+ newline +:+ "# then" +:+ newline +:+ "  print $a" in
  ParseWithBlockSupport (E := Ref.env false) 6 code (NewHTTPDSLv3 [])
  = run_in_order (E := Ref.env false) (strings.Split code newline) 0 [] (NewHTTPDSLv3 []).
Proof.
  intros code.
  apply (plain_script_runs_in_order (E := Ref.env false) 6 code (NewHTTPDSLv3 []));
    [vm_compute; reflexivity | vm_compute; lia].
Defined.

(** The number in the error is the line's place in the script. *)
Example error_names_the_line :
  fst (run false 8 ["set $a 1"; ""; "# next"; "set $b $missing"; "set $c 3"] (NewHTTPDSLv3 []))
  = Err "error at line 4: variable $missing not found".
Proof. vm_compute. reflexivity. Qed.

Lemma open_if_skips_the_rest_witness :
  let hd := SetVariable "a" (VFloat 1%float) (NewHTTPDSLv3 []) in
  parse_lines (E := Ref.env false) 2
              ["if $a > 5 then"; "  set $a 9"; "set $b 2"] 0 [] hd
  = (Ok [], hd).
Proof.
  intros hd.
  apply (open_if_skips_the_rest (E := Ref.env false) 0
           ["if $a > 5 then"; "  set $a 9"; "set $b 2"] 0 "if $a > 5 then" [] hd);
    vm_compute; reflexivity.
Defined.
